(** * Planck noise-model pipeline: asset fetcher and spectral model builder

    A shallow embedding of [cmbml/utils/get_maps.py] and
    [archive/make_planck_sims_cov_model.py], and the verification of the
    properties stated for them.

    Conventions of the embedding.
    - Python integers are [Z]; Python [str] is [string]; [bytes] is a list of
      [Byte.byte].
    - A [pathlib.Path] built as [Path(directory) / fn] is the record
      [{| parent := directory; name := fn |}]; its [.name] is the second
      field.  Every file name built by the code is free of slashes.  The
      directory is kept as the string the caller gave, where pathlib
      normalises it (a trailing or doubled slash is dropped): two records
      with different [parent] can denote one file, and no statement below
      concludes that two directories are equal.
    - I/O is explicit state passing: a [world] holds the local files, which
      paths can be written, the remote service, the written archives and the
      chronological [trace] of observable events (console lines, HTTP
      requests, file writes, library calls).  A raised exception is the
      [Raise] result; the world reached so far is kept, since side effects
      done before a raise stay done.
    - The numerical libraries (astropy, healpy, numpy, scikit-learn) are
      outside the repository: their routines are the fields of the class
      [Libraries], and pixel values are an abstract type [float].
    - The progress bar around the realization loop and the configuration of
      the logger are not modelled. *)

From Stdlib Require Import ZArith String Ascii DecimalString DecimalZ DecimalPos List Bool Lia.
From stdpp Require Import gmap strings list fin_maps.

Local Open Scope string_scope.
Local Open Scope list_scope.
Local Open Scope Z_scope.

(** ** Paths, exceptions and results *)

Inductive path := Path { parent : string; name : string }.

#[global] Instance path_eq_dec : EqDecision path.
Proof. solve_decision. Defined.

#[global] Instance path_countable : Countable path.
Proof.
  apply (inj_countable' (fun p => (parent p, name p))
                        (fun q => Path (fst q) (snd q))).
  intros []; reflexivity.
Defined.

Abbreviation bytes := (list Byte.byte).

Inductive exn :=
| OverflowError                          (* int too large to convert to float *)
| KeyError (key : string)                (* str.format with a missing field *)
| IndexError                             (* hdul[hdu] out of range; a field without name *)
| ValueError_format                      (* str.format on a malformed template *)
| RequestException                       (* requests.get raised *)
| OSError (p : path)                     (* a file cannot be opened or decoded *)
| ValueError_unknown_unit (unit : string) (map : path)
| ValueError_shape                       (* numpy operands of different shape *)
| NameError (var : string)               (* a local read before assignment *)
| LibraryError (fn : string).            (* a numerical routine rejected its input *)

Inductive result (A : Type) :=
| Ok (a : A)
| Raise (e : exn).
Arguments Ok {A} a.
Arguments Raise {A} e.

#[global] Instance result_ret : MRet result := fun A a => Ok a.

#[global] Instance result_bind : MBind result := fun A B f r =>
  match r with
  | Ok a => f a
  | Raise e => Raise e
  end.

(** ** Python string helpers *)

Module Py.

(** [float(z)] for a Python int: round to nearest, ties to even, on a 53-bit
    significand; the value is returned as the integer the float denotes.
    [None] is [OverflowError]. *)
Definition float_of_int (z : Z) : option Z :=
  let a := Z.abs z in
  if a <? 2 ^ 53 then Some z
  else
    let sh := Z.log2 a - 52 in
    let q := Z.shiftr a sh in
    let r := Z.land a (Z.ones sh) in
    let half := Z.shiftl 1 (sh - 1) in
    let q' := if (half <? r) || ((r =? half) && Z.odd q) then q + 1 else q in
    let v := Z.shiftl q' sh in
    if 2 ^ 1024 <=? v then None else Some (Z.sgn z * v).

(** [str(z)] for a Python int. *)
Definition str_of_int (z : Z) : string := NilZero.string_of_int (Z.to_int z).

(** ["{:.0f}".format(z)] for a Python int: the int is converted to a float
    and the float, which is integral, is printed without fraction. *)
Definition format_f0 (z : Z) : result string :=
  match float_of_int z with
  | Some v => Ok (str_of_int v)
  | None => Raise OverflowError
  end.

Fixpoint zeros (n : nat) : string :=
  match n with
  | O => EmptyString
  | S k => String "0" (zeros k)
  end.

Definition is_sign (c : ascii) : bool :=
  (Ascii.eqb c "+" || Ascii.eqb c "-")%bool.

(** [s.zfill(width)]: left-pad with zeros, after a leading sign if any. *)
Definition zfill (width : nat) (s : string) : string :=
  if (width <=? String.length s)%nat then s
  else
    let fill := zeros (width - String.length s) in
    match s with
    | String c rest => if is_sign c then String c (fill +:+ rest) else fill +:+ s
    | EmptyString => fill
    end.

(** Values passed as keyword arguments of [str.format]. *)
Inductive value :=
| VStr (s : string)
| VInt (z : Z).

Definition str (v : value) : string :=
  match v with
  | VStr s => s
  | VInt z => str_of_int z
  end.

Fixpoint kw_lookup (kwargs : list (string * value)) (k : string) : option value :=
  match kwargs with
  | [] => None
  | (k', v) :: rest => if String.eqb k k' then Some v else kw_lookup rest k
  end.

Fixpoint snoc (s : string) (c : ascii) : string :=
  match s with
  | EmptyString => String c EmptyString
  | String d rest => String d (snoc rest c)
  end.

(** [template.format( **kwargs )] for templates whose replacement fields are
    plain names (no conversion, format specification, attribute or index),
    as all templates of the repository are.  [field] is the name being read
    after an opening brace; doubled braces are literal braces. *)
Fixpoint format_go (template : string) (field : option string)
         (kwargs : list (string * value)) : result string :=
  match template with
  | EmptyString =>
      match field with
      | None => Ok EmptyString
      | Some _ => Raise ValueError_format
      end
  | String c rest =>
      match field with
      | None =>
          if Ascii.eqb c "{" then
            match rest with
            | String c' rest' =>
                if Ascii.eqb c' "{"
                then match format_go rest' None kwargs with
                     | Ok s => Ok (String c s)
                     | Raise e => Raise e
                     end
                else format_go rest (Some EmptyString) kwargs
            | EmptyString => format_go rest (Some EmptyString) kwargs
            end
          else if Ascii.eqb c "}" then
            match rest with
            | String c' rest' =>
                if Ascii.eqb c' "}"
                then match format_go rest' None kwargs with
                     | Ok s => Ok (String c s)
                     | Raise e => Raise e
                     end
                else Raise ValueError_format
            | EmptyString => Raise ValueError_format
            end
          else match format_go rest None kwargs with
               | Ok s => Ok (String c s)
               | Raise e => Raise e
               end
      | Some acc =>
          if Ascii.eqb c "}" then
            match acc with
            | EmptyString => Raise IndexError
            | _ =>
                match kw_lookup kwargs acc with
                | Some v =>
                    match format_go rest None kwargs with
                    | Ok s => Ok (str v +:+ s)
                    | Raise e => Raise e
                    end
                | None => Raise (KeyError acc)
                end
            end
          else if Ascii.eqb c "{" then Raise ValueError_format
          else format_go rest (Some (snoc acc c)) kwargs
      end
  end.

Definition format (template : string) (kwargs : list (string * value)) : result string :=
  format_go template None kwargs.

End Py.

(** ** [cmbml/utils/get_maps.py]: file-name formatting *)

Definition format_freq (freq : Z) : result string :=
  match Py.format_f0 freq with
  | Ok s => Ok (Py.zfill 3 s)
  | Raise e => Raise e
  end.

Definition format_real (real : Z) : result string :=
  match Py.format_f0 real with
  | Ok s => Ok (Py.zfill 5 s)
  | Raise e => Raise e
  end.

(** ** The world: file system, remote service, archives and trace *)

(** The three results of scikit-learn's [PCA] the builder keeps. *)
Record pca (float : Type) := PCA {
  mean_ : list float;
  components_ : list (list float);
  explained_variance_ : list float
}.
Arguments PCA {float}.
Arguments mean_ {float}.
Arguments components_ {float}.
Arguments explained_variance_ {float}.

(** The libraries the repository calls.  A FITS file is seen through its
    decoders: [fits_headers] gives the header (keyword to value) of each HDU
    as [astropy.io.fits.open] does, [read_map_field0] the first field of the
    map as [healpy.read_map] does; both are [None] on bytes that are not such
    a file.  [anafast] and [pca_fit] are [None] when the routine raises. *)
Class Libraries := {
  float : Type;
  float_sub : float -> float -> float;
  float_log10 : float -> float;
  fits_headers : bytes -> option (list (gmap string string));
  read_map_field0 : bytes -> option (list float);
  np_mean : list float -> float;
  np_std : list float -> float;
  anafast : list float -> Z -> option (list float);
  pca_fit : list (list float) -> option (pca float)
}.

(** The named entries [np.savez] stores in one archive. *)
Record archive `{Libraries} := Archive {
  mean_ps : list float;
  components : list (list float);
  variance : list float;
  maps_mean : float;
  maps_sd : float;
  maps_unit : string
}.

(** Console lines of [acquire_map_data]. *)
Inductive message :=
| File_does_not_exist (p : path)         (* "File {p} does not exist; downloading." *)
| File_has_placeholder (p : path)        (* "File {p} has placeholder file; redownloading." *)
| File_exists (p : path)                 (* "File {p} exists." *)
| Downloaded (fn : string).              (* "Downloaded {fn}" *)

Inductive event `{Libraries} :=
| EPrint (m : message)
| ENetGet (url : string)                          (* requests.get(url) *)
| EWrite (p : path) (content : bytes)             (* open(p, "wb").write(content) *)
| EFieldUnit (p : path) (r : result string)       (* get_field_unit(p, ...) and its outcome *)
| EReadMap (p : path) (r : result (list float))   (* hp.read_map(p) and its outcome *)
| EAnafast (m : list float) (lmax : Z)            (* hp.anafast(m, lmax=lmax) *)
| ESavez (fn : string)                            (* np.savez(fn, ...) *)
| ELog (line : string).                           (* logger.info(line) *)

Record world `{Libraries} := World {
  fs : gmap path bytes;                  (* local files and their content *)
  writable : path -> bool;               (* whether opening the path for writing succeeds *)
  remote : string -> option bytes;       (* response body per URL; None: the request raises *)
  archives : gmap string archive;        (* written .npz archives, by file name *)
  trace : list event                     (* events so far, oldest first *)
}.

Arguments Archive {_} _ _ _ _ _ _.
Arguments World {_} _ _ _ _ _.

(** [w] with [evs] added to its trace. *)
Definition log `{Libraries} (w : world) (evs : list event) : world :=
  World (fs w) (writable w) (remote w) (archives w) (trace w ++ evs).

(** [w] with [content] as the content of [p]. *)
Definition store `{Libraries} (w : world) (p : path) (content : bytes) : world :=
  World (<[p := content]> (fs w)) (writable w) (remote w) (archives w) (trace w).

(** [w] with archive [a] under the name [fn]. *)
Definition store_archive `{Libraries} (w : world) (fn : string) (a : archive) : world :=
  World (fs w) (writable w) (remote w) (<[fn := a]> (archives w)) (trace w).

(** ** State and exception monad *)

Definition M `{Libraries} (A : Type) : Type := world -> result A * world.

#[global] Instance M_ret `{Libraries} : MRet M := fun A a w => (Ok a, w).

#[global] Instance M_bind `{Libraries} : MBind M := fun A B f c w =>
  match c w with
  | (Ok a, w') => f a w'
  | (Raise e, w') => (Raise e, w')
  end.

Definition raise `{Libraries} {A} (e : exn) : M A := fun w => (Raise e, w).

Definition lift `{Libraries} {A} (r : result A) : M A := fun w => (r, w).

Definition emit `{Libraries} (e : event) : M unit := fun w => (Ok tt, log w [e]).

Definition print `{Libraries} (m : message) : M unit := emit (EPrint m).

(** [dest_path.exists()] and [dest_path.stat().st_size]. *)
Definition stat `{Libraries} (p : path) : M (option Z) := fun w =>
  (Ok (Z.of_nat <$> (length <$> fs w !! p)), w).

(** [requests.get(url)] then [.content]. *)
Definition requests_get `{Libraries} (url : string) : M bytes := fun w =>
  let w' := log w [ENetGet url] in
  match remote w url with
  | Some body => (Ok body, w')
  | None => (Raise RequestException, w')
  end.

(** [with open(p, "wb") as file: file.write(content)]; the [open] raises when
    the path cannot be opened for writing. *)
Definition write_file `{Libraries} (p : path) (content : bytes) : M unit := fun w =>
  if writable w p then (Ok tt, log (store w p content) [EWrite p content])
  else (Raise (OSError p), w).

(** Run [c] and record its outcome as one event. *)
Definition observe `{Libraries} {A} (ev : result A -> event) (c : M A) : M A := fun w =>
  let '(r, w') := c w in
  (r, log w' [ev r]).

(** The content of a local file, for the library readers. *)
Definition read_file `{Libraries} (p : path) : M bytes := fun w =>
  match fs w !! p with
  | Some content => (Ok content, w)
  | None => (Raise (OSError p), w)
  end.

Fixpoint for_each `{Libraries} {A S : Type} (items : list A) (body : S -> A -> M S)
         (s : S) : M S :=
  match items with
  | [] => mret s
  | x :: rest => s' ← body s x; for_each rest body s'
  end.

(** [range(n)]. *)
Definition range (n : nat) : list Z := map Z.of_nat (seq 0 n).

(** ** [cmbml/utils/get_maps.py]: the resolvers *)

(** The templates are local names of the functions below; the two resolvers
    of observation maps bind [url_template_maps] to the same string. *)
Definition planck_obs_fn : string :=
  "{instrument}_SkyMap_{frequency}_{obs_nside}_{rev}_full.fits".
Definition planck_noise_fn_template : string :=
  "ffp10_noise_{frequency}_{ring_cut}_map_mc_{realization}.fits".
Definition hm_map_fn_template : string :=
  "{instrument}_SkyMap_{freq}_2048_R3.01_halfmission-{hm}.fits".
Definition url_template_maps : string :=
  "http://pla.esac.esa.int/pla/aio/product-action?MAP.MAP_ID={fn}".
Definition url_template_sims : string :=
  "http://pla.esac.esa.int/pla/aio/product-action?SIMULATED_MAP.FILE_ID={fn}".

Definition in_list (x : Z) (l : list Z) : bool := existsb (Z.eqb x) l.

Section Fetcher.
Context `{Libraries}.

Definition acquire_map_data (dest_path : path) (source_url_template : string) : M unit :=
  size ← stat dest_path;
  need_to_dl ←
    match size with
    | None => print (File_does_not_exist dest_path);; mret true
    | Some sz =>
        if sz <? 1024 then print (File_has_placeholder dest_path);; mret true
        else print (File_exists dest_path);; mret false
    end;
  let fn := name dest_path in
  if need_to_dl : bool then
    url ← lift (Py.format source_url_template [("fn", Py.VStr fn)]);
    response ← requests_get url;
    write_file dest_path response;;
    print (Downloaded fn)
  else mret tt.

Definition get_planck_obs_data (detector : Z) (assets_directory : string) : M path :=
  '(instrument, use_freq_str, rev, obs_nside) ←
    (if in_list detector [30; 44; 70]
     then f ← lift (format_freq detector);
          mret ("LFI", f +:+ "-BPassCorrected", "R3.00", 1024)
     else f ← lift (format_freq detector);
          mret ("HFI", f, "R3.01", 2048));
  use_freq_str ←
    (if detector =? 353
     then f ← lift (format_freq detector); mret (f +:+ "-psb")
     else mret use_freq_str);
  obs_map_fn ← lift (Py.format planck_obs_fn
                       [("instrument", Py.VStr instrument);
                        ("frequency", Py.VStr use_freq_str);
                        ("rev", Py.VStr rev);
                        ("obs_nside", Py.VInt obs_nside)]);
  let dest_path := Path assets_directory obs_map_fn in
  acquire_map_data dest_path url_template_maps;;
  mret dest_path.

Definition get_planck_noise_data (detector : Z) (assets_directory : string)
           (realization : Z) : M path :=
  let ring_cut := "full" in
  f ← lift (format_freq detector);
  r ← lift (format_real realization);
  fn ← lift (Py.format planck_noise_fn_template
               [("frequency", Py.VStr f);
                ("ring_cut", Py.VStr ring_cut);
                ("realization", Py.VStr r)]);
  let fn := Path assets_directory fn in
  acquire_map_data fn url_template_sims;;
  mret fn.

Definition get_planck_hm_data (detector : Z) (assets_directory : string) : M (path * path) :=
  let instrument := if in_list detector [30; 44; 70] then "LFI" else "HFI" in
  f1 ← lift (format_freq detector);
  hm_1_fn ← lift (Py.format hm_map_fn_template
                    [("instrument", Py.VStr instrument); ("freq", Py.VStr f1); ("hm", Py.VInt 1)]);
  f2 ← lift (format_freq detector);
  hm_2_fn ← lift (Py.format hm_map_fn_template
                    [("instrument", Py.VStr instrument); ("freq", Py.VStr f2); ("hm", Py.VInt 2)]);
  let hm_1_fn := Path assets_directory hm_1_fn in
  let hm_2_fn := Path assets_directory hm_2_fn in
  acquire_map_data hm_1_fn url_template_maps;;
  acquire_map_data hm_2_fn url_template_maps;;
  mret (hm_1_fn, hm_2_fn).

End Fetcher.

(** ** [archive/make_planck_sims_cov_model.py] *)

Definition DATA_ROOT : string := "/shared/data/Assets/".
Definition PLANCK_NOISE_DIR : string := DATA_ROOT +:+ "/PlanckNoise/".

Definition DETECTORS : list Z := [545].
Definition N_PLANCK_SIMS : nat := 100.


Definition get_lmax_for_nside (nside : Z) : Z := 3 * nside - 1.

(** The names bound by the realization loop of [get_ps_data]; [src_map_unit]
    is unbound until the first iteration assigns it. *)
Record sims `{Libraries} := Sims {
  src_cls : list (list float);
  maps_means : list float;
  src_map_unit : option string
}.
Arguments Sims {_} _ _ _.

Section Builder.
Context `{Libraries}.

(** [fits.open(fits_fn)]: the HDU headers of a local file. *)
Definition fits_open (fits_fn : path) : M (list (gmap string string)) :=
  content ← read_file fits_fn;
  match fits_headers content with
  | Some hdul => mret hdul
  | None => raise (OSError fits_fn)
  end.

Definition get_field_unit (fits_fn : path) (hdu : nat) (field_idx : Z) : M string :=
  observe (EFieldUnit fits_fn)
    (hdul ← fits_open fits_fn;
     let field_num := field_idx + 1 in
     match hdul !! hdu with
     | None => raise IndexError
     | Some h =>
         match h !! ("TUNIT" +:+ Py.str_of_int field_num) with
         | Some unit => mret unit
         | None => mret EmptyString     (* except KeyError: the empty unit *)
         end
     end).

(** [hp.read_map(fn)]: field 0 of the map file. *)
Definition hp_read_map (fn : path) : M (list float) :=
  observe (EReadMap fn)
    (content ← read_file fn;
     match read_map_field0 content with
     | Some m => mret m
     | None => raise (OSError fn)
     end).

(** [hp.anafast(m, lmax=lmax)]. *)
Definition hp_anafast (m : list float) (lmax : Z) : M (list float) :=
  emit (EAnafast m lmax);;
  match anafast m lmax with
  | Some cl => mret cl
  | None => raise (LibraryError "anafast")
  end.

(** [a -= b] on one-dimensional numpy arrays: element by element when the
    lengths agree, a one-element [b] is broadcast, anything else raises. *)
Definition isub (a b : list float) : result (list float) :=
  if (length a =? length b)%nat then Ok (zip_with float_sub a b)
  else match b with
       | [b0] => Ok (map (fun x => float_sub x b0) a)
       | _ => Raise ValueError_shape
       end.

Definition recognized_unit (u : string) : bool :=
  existsb (String.eqb u) ["K_CMB"; "MJy/sr"].

(** [np.savez(fn, ...)], in the working directory. *)
Definition np_savez (fn : string) (a : archive) : M unit := fun w =>
  if writable w (Path "." fn) then (Ok tt, log (store_archive w fn a) [ESavez fn])
  else (Raise (OSError (Path "." fn)), w).

(** One iteration of the realization loop. *)
Definition sim_body (detector : Z) (subtract_average : bool) (avg : option (list float))
           (lmax : Z) (s : sims) (i : Z) : M sims :=
  src_map_fn ← get_planck_noise_data detector PLANCK_NOISE_DIR i;
  src_map_unit ← get_field_unit src_map_fn 1 0;
  if negb (recognized_unit src_map_unit)
  then raise (ValueError_unknown_unit src_map_unit src_map_fn)
  else
    t_src_map ← hp_read_map src_map_fn;
    t_src_map ←
      (if subtract_average then
         match avg with
         | Some avg => lift (isub t_src_map avg)
         | None => raise (NameError "avg")
         end
       else mret t_src_map);
    let maps_means := maps_means s ++ [np_mean t_src_map] in
    cl ← hp_anafast t_src_map lmax;
    mret (Sims (src_cls s ++ [cl]) maps_means (Some src_map_unit)).

Definition avg_noise_map_fn (detector : Z) : path :=
  Path "noise_avgs" ("avg_noise_map_" +:+ Py.str_of_int detector +:+ "_TQU_100.fits").

Definition noise_model_fn (detector : Z) : string :=
  "noise_model_" +:+ Py.str_of_int detector +:+ "GHz_diff.npz".

Definition get_ps_data (detector : Z) : M unit :=
  let subtract_average := in_list detector [353; 545; 857] in
  let nside := if in_list detector [30; 44; 70] then 1024 else 2048 in
  avg ← (if subtract_average
         then m ← hp_read_map (avg_noise_map_fn detector); mret (Some m)
         else mret None);
  let lmax := get_lmax_for_nside nside in
  s ← for_each (range N_PLANCK_SIMS)
               (sim_body detector subtract_average avg lmax)
               (Sims [] [] None);
  let log_src_cls := map (map float_log10) (src_cls s) in
  match pca_fit log_src_cls with
  | None => raise (LibraryError "PCA.fit")
  | Some pca =>
      let mean_ps := mean_ pca in
      let components := components_ pca in
      let variance := explained_variance_ pca in
      let maps_mean := np_mean (maps_means s) in
      let maps_sd := np_std (maps_means s) in
      match src_map_unit s with
      | None => raise (NameError "src_map_unit")
      | Some src_map_unit =>
          np_savez (noise_model_fn detector)
                   (Archive mean_ps components variance maps_mean maps_sd src_map_unit)
      end
  end.

(** The script body: every configured detector in turn. *)
Definition main : M unit :=
  for_each DETECTORS
           (fun _ this_det =>
              get_ps_data this_det;;
              emit (ELog ("Done with " +:+ Py.str_of_int this_det +:+ " GHz")))
           tt;;
  emit (ELog "All done").

End Builder.

(** ** Notions used in the statements *)

(** The URLs requested in a stretch of trace, in order. *)
Fixpoint net_calls `{Libraries} (evs : list event) : list string :=
  match evs with
  | [] => []
  | ENetGet url :: rest => url :: net_calls rest
  | _ :: rest => net_calls rest
  end.

(** The events the asset fetcher produces. *)
Definition is_fetch_event `{Libraries} (e : event) : bool :=
  match e with
  | EPrint _ | ENetGet _ | EWrite _ _ => true
  | _ => false
  end.

(** A local file that the fetcher accepts as it is. *)
Definition is_cached `{Libraries} (w : world) (p : path) : bool :=
  match fs w !! p with
  | Some content => negb (Z.of_nat (length content) <? 1024)
  | None => false
  end.

Definition url_maps (fn : string) : string :=
  "http://pla.esac.esa.int/pla/aio/product-action?MAP.MAP_ID=" +:+ fn.

Definition url_sims (fn : string) : string :=
  "http://pla.esac.esa.int/pla/aio/product-action?SIMULATED_MAP.FILE_ID=" +:+ fn.

(** The target of [get_planck_noise_data]. *)
Definition noise_fn (f r : string) : string :=
  "ffp10_noise_" +:+ f +:+ "_full_map_mc_" +:+ r +:+ ".fits".

Definition noise_target (detector : Z) (assets_directory : string) (realization : Z)
  : result path :=
  f ← format_freq detector;
  r ← format_real realization;
  mret (Path assets_directory (noise_fn f r)).

(** Instrument family, resolution and revision as [get_planck_obs_data]
    selects them. *)
Definition obs_instrument (detector : Z) : string :=
  if in_list detector [30; 44; 70] then "LFI" else "HFI".

Definition obs_nside (detector : Z) : Z :=
  if in_list detector [30; 44; 70] then 1024 else 2048.

Definition obs_rev (detector : Z) : string :=
  if in_list detector [30; 44; 70] then "R3.00" else "R3.01".

Definition obs_freq_suffix (detector : Z) : string :=
  if detector =? 353 then "-psb"
  else if in_list detector [30; 44; 70] then "-BPassCorrected" else EmptyString.

Definition obs_fn (detector : Z) (f : string) : string :=
  obs_instrument detector +:+ "_SkyMap_" +:+ f +:+ obs_freq_suffix detector +:+ "_"
    +:+ Py.str_of_int (obs_nside detector) +:+ "_" +:+ obs_rev detector +:+ "_full.fits".

Definition obs_target (detector : Z) (assets_directory : string) : result path :=
  f ← format_freq detector;
  mret (Path assets_directory (obs_fn detector f)).

(** The targets of [get_planck_hm_data]. *)
Definition hm_fn (instrument f hm : string) : string :=
  instrument +:+ "_SkyMap_" +:+ f +:+ "_2048_R3.01_halfmission-" +:+ hm +:+ ".fits".

Definition hm_targets (detector : Z) (assets_directory : string) : result (path * path) :=
  f ← format_freq detector;
  mret (Path assets_directory (hm_fn (obs_instrument detector) f "1"),
        Path assets_directory (hm_fn (obs_instrument detector) f "2")).

(** [fmt z] is the decimal writing of [z] filled with zeros to [width]. *)
Definition padded (width : nat) (fmt : Z -> result string) (z : Z) : bool :=
  match fmt z with
  | Ok s =>
      (String.length s =? width)%nat &&
      String.eqb s (Py.zeros (width - String.length (Py.str_of_int z)) +:+ Py.str_of_int z)
  | Raise _ => false
  end.

(** [P] holds of [fuel] consecutive integers from [z] on. *)
Fixpoint all_from (fuel : nat) (z : Z) (P : Z -> bool) : bool :=
  match fuel with
  | O => true
  | S k => P z && all_from k (z + 1) P
  end.

(** [sub] occurs in [s]. *)
Definition mentions (sub s : string) : bool :=
  match String.index 0 sub s with Some _ => true | None => false end.

(** The events a computation adds to the trace of [w]. *)
Definition new_events `{Libraries} (w w' : world) : list event :=
  drop (length (trace w)) (trace w').

(** The console line of [acquire_map_data] when it decides to download. *)
Definition miss_message `{Libraries} (w : world) (p : path) : message :=
  match fs w !! p with
  | None => File_does_not_exist p
  | Some _ => File_has_placeholder p
  end.

(** A resolver: compute the target, fetch it, return it. *)
Definition resolve `{Libraries} {A} (target : result A) (fetch : A -> M unit) : M A :=
  p ← lift target; fetch p;; mret p.

(** The choices of [get_ps_data] per detector. *)
Definition ps_subtract_average (detector : Z) : bool := in_list detector [353; 545; 857].

Definition ps_nside (detector : Z) : Z :=
  if in_list detector [30; 44; 70] then 1024 else 2048.

(** The maps handed to [hp.anafast], with the multipole bound, in order. *)
Fixpoint anafast_calls `{Libraries} (evs : list event) : list (list float * Z) :=
  match evs with
  | [] => []
  | EAnafast m lmax :: rest => (m, lmax) :: anafast_calls rest
  | _ :: rest => anafast_calls rest
  end.

(** The units [get_field_unit] returned, with the file, in order. *)
Fixpoint units_read `{Libraries} (evs : list event) : list (path * string) :=
  match evs with
  | [] => []
  | EFieldUnit p (Ok u) :: rest => (p, u) :: units_read rest
  | _ :: rest => units_read rest
  end.

(** The unit read last, [dflt] when none was read. *)
Definition last_unit (units : list (path * string)) (dflt : option string) : option string :=
  match last units with
  | Some (_, u) => Some u
  | None => dflt
  end.

(** The archive files [np.savez] wrote, in order. *)
Fixpoint saved `{Libraries} (evs : list event) : list string :=
  match evs with
  | [] => []
  | ESavez fn :: rest => fn :: saved rest
  | _ :: rest => saved rest
  end.

(** ** The shape of a run of the builder

    [iteration] lists the ways one pass of the realization loop can go, with
    the events it adds and its outcome; [realizations] chains the passes of
    the loop until one raises. *)
Section Shape.
Context `{Libraries}.

(** The map given to the spectrum estimator, from the map read. *)
Definition adjust (subtract_average : bool) (avg : option (list float))
           (m : list float) : result (list float) :=
  if subtract_average then
    match avg with
    | Some avg => isub m avg
    | None => Raise (NameError "avg")
    end
  else Ok m.

(** What [get_field_unit] answers on a file content ([None]: no file). *)
Definition header_unit (p : path) (file : option bytes) (hdu : nat) (field_idx : Z)
  : result string :=
  match file with
  | None => Raise (OSError p)
  | Some content =>
      match fits_headers content with
      | None => Raise (OSError p)
      | Some hdul =>
          match hdul !! hdu with
          | None => Raise IndexError
          | Some h =>
              match h !! ("TUNIT" +:+ Py.str_of_int (field_idx + 1)) with
              | Some unit => Ok unit
              | None => Ok EmptyString
              end
          end
      end
  end.

(** What [hp.read_map] answers on a file content. *)
Definition map_of_file (p : path) (file : option bytes) : result (list float) :=
  match file with
  | None => Raise (OSError p)
  | Some content =>
      match read_map_field0 content with
      | Some m => Ok m
      | None => Raise (OSError p)
      end
  end.

(** [w'] is [w] with [evs] added to the trace, the files possibly changed. *)
Definition extends (w w' : world) (evs : list event) : Prop :=
  trace w' = trace w ++ evs /\ remote w' = remote w /\ archives w' = archives w /\
  writable w' = writable w.

Definition fetch_events (evs : list event) : Prop :=
  forallb is_fetch_event evs = true.

Inductive iteration (detector : Z) (subtract_average : bool)
          (avg : option (list float)) (lmax : Z) (i : Z) (s : sims)
  : list event -> result sims -> Prop :=
| it_no_target e :
    noise_target detector PLANCK_NOISE_DIR i = Raise e ->
    iteration detector subtract_average avg lmax i s [] (Raise e)
| it_fetch_failed p fe e :
    noise_target detector PLANCK_NOISE_DIR i = Ok p ->
    fetch_events fe ->
    iteration detector subtract_average avg lmax i s fe (Raise e)
| it_unit_failed p fe e :
    noise_target detector PLANCK_NOISE_DIR i = Ok p ->
    fetch_events fe ->
    iteration detector subtract_average avg lmax i s
              (fe ++ [EFieldUnit p (Raise e)]) (Raise e)
| it_unit_unknown p fe u :
    noise_target detector PLANCK_NOISE_DIR i = Ok p ->
    fetch_events fe ->
    recognized_unit u = false ->
    iteration detector subtract_average avg lmax i s
              (fe ++ [EFieldUnit p (Ok u)]) (Raise (ValueError_unknown_unit u p))
| it_read_failed p fe u e :
    noise_target detector PLANCK_NOISE_DIR i = Ok p ->
    fetch_events fe ->
    recognized_unit u = true ->
    iteration detector subtract_average avg lmax i s
              (fe ++ [EFieldUnit p (Ok u); EReadMap p (Raise e)]) (Raise e)
| it_adjust_failed p fe u m e :
    noise_target detector PLANCK_NOISE_DIR i = Ok p ->
    fetch_events fe ->
    recognized_unit u = true ->
    adjust subtract_average avg m = Raise e ->
    iteration detector subtract_average avg lmax i s
              (fe ++ [EFieldUnit p (Ok u); EReadMap p (Ok m)]) (Raise e)
| it_anafast_failed p fe u m m' :
    noise_target detector PLANCK_NOISE_DIR i = Ok p ->
    fetch_events fe ->
    recognized_unit u = true ->
    adjust subtract_average avg m = Ok m' ->
    anafast m' lmax = None ->
    iteration detector subtract_average avg lmax i s
              (fe ++ [EFieldUnit p (Ok u); EReadMap p (Ok m); EAnafast m' lmax])
              (Raise (LibraryError "anafast"))
| it_done p fe u m m' cl :
    noise_target detector PLANCK_NOISE_DIR i = Ok p ->
    fetch_events fe ->
    recognized_unit u = true ->
    adjust subtract_average avg m = Ok m' ->
    anafast m' lmax = Some cl ->
    iteration detector subtract_average avg lmax i s
              (fe ++ [EFieldUnit p (Ok u); EReadMap p (Ok m); EAnafast m' lmax])
              (Ok (Sims (src_cls s ++ [cl]) (maps_means s ++ [np_mean m']) (Some u))).

Inductive realizations (detector : Z) (subtract_average : bool)
          (avg : option (list float)) (lmax : Z)
  : list Z -> sims -> list event -> result sims -> Prop :=
| rs_nil s :
    realizations detector subtract_average avg lmax [] s [] (Ok s)
| rs_abort i rest s evs e :
    iteration detector subtract_average avg lmax i s evs (Raise e) ->
    realizations detector subtract_average avg lmax (i :: rest) s evs (Raise e)
| rs_next i rest s s' evs evs' r :
    iteration detector subtract_average avg lmax i s evs (Ok s') ->
    realizations detector subtract_average avg lmax rest s' evs' r ->
    realizations detector subtract_average avg lmax (i :: rest) s (evs ++ evs') r.

(** The archive [get_ps_data] stores from the loop's final names. *)
Definition model_of (s : sims) (fit : pca float) (unit : string) : archive :=
  Archive (mean_ fit) (components_ fit) (explained_variance_ fit)
          (np_mean (maps_means s)) (np_std (maps_means s)) unit.

(** The part of [get_ps_data] after the baseline step. *)
Definition finish (detector : Z) (avg : option (list float)) : M unit :=
  s ← for_each (range N_PLANCK_SIMS)
               (sim_body detector (ps_subtract_average detector) avg
                         (get_lmax_for_nside (ps_nside detector)))
               (Sims [] [] None);
  match pca_fit (map (map float_log10) (src_cls s)) with
  | None => raise (LibraryError "PCA.fit")
  | Some fit =>
      match src_map_unit s with
      | None => raise (NameError "src_map_unit")
      | Some u => np_savez (noise_model_fn detector) (model_of s fit u)
      end
  end.

(** The baseline step of [get_ps_data]: the value bound to [avg] and the
    events of the step. *)
Definition baseline (detector : Z) (w : world) (avg : option (list float))
           (base : list event) : Prop :=
  if ps_subtract_average detector then
    exists a, map_of_file (avg_noise_map_fn detector)
                          (fs w !! avg_noise_map_fn detector) = Ok a
              /\ avg = Some a
              /\ base = [EReadMap (avg_noise_map_fn detector) (Ok a)]
  else avg = None /\ base = [].

(** The ways a run of [get_ps_data] from [w] can go: the events it adds,
    its outcome and the world it ends in. *)
Inductive run (detector : Z) (w : world) : list event -> result unit -> world -> Prop :=
| run_no_baseline e :
    ps_subtract_average detector = true ->
    map_of_file (avg_noise_map_fn detector) (fs w !! avg_noise_map_fn detector) = Raise e ->
    run detector w [EReadMap (avg_noise_map_fn detector) (Raise e)] (Raise e)
        (log w [EReadMap (avg_noise_map_fn detector) (Raise e)])
| run_aborted avg base levs e w' :
    baseline detector w avg base ->
    realizations detector (ps_subtract_average detector) avg
                 (get_lmax_for_nside (ps_nside detector))
                 (range N_PLANCK_SIMS) (Sims [] [] None) levs (Raise e) ->
    extends w w' (base ++ levs) ->
    run detector w (base ++ levs) (Raise e) w'
| run_fit_failed avg base levs s w' :
    baseline detector w avg base ->
    realizations detector (ps_subtract_average detector) avg
                 (get_lmax_for_nside (ps_nside detector))
                 (range N_PLANCK_SIMS) (Sims [] [] None) levs (Ok s) ->
    pca_fit (map (map float_log10) (src_cls s)) = None ->
    extends w w' (base ++ levs) ->
    run detector w (base ++ levs) (Raise (LibraryError "PCA.fit")) w'
| run_no_unit avg base levs s fit w' :
    baseline detector w avg base ->
    realizations detector (ps_subtract_average detector) avg
                 (get_lmax_for_nside (ps_nside detector))
                 (range N_PLANCK_SIMS) (Sims [] [] None) levs (Ok s) ->
    pca_fit (map (map float_log10) (src_cls s)) = Some fit ->
    src_map_unit s = None ->
    extends w w' (base ++ levs) ->
    run detector w (base ++ levs) (Raise (NameError "src_map_unit")) w'
| run_saved avg base levs s fit u w' :
    baseline detector w avg base ->
    realizations detector (ps_subtract_average detector) avg
                 (get_lmax_for_nside (ps_nside detector))
                 (range N_PLANCK_SIMS) (Sims [] [] None) levs (Ok s) ->
    pca_fit (map (map float_log10) (src_cls s)) = Some fit ->
    src_map_unit s = Some u ->
    writable w (Path "." (noise_model_fn detector)) = true ->
    trace w' = trace w ++ base ++ levs ++ [ESavez (noise_model_fn detector)] ->
    remote w' = remote w ->
    archives w' = <[noise_model_fn detector := model_of s fit u]> (archives w) ->
    run detector w (base ++ levs ++ [ESavez (noise_model_fn detector)]) (Ok tt) w'
| run_save_failed avg base levs s fit u w' :
    baseline detector w avg base ->
    realizations detector (ps_subtract_average detector) avg
                 (get_lmax_for_nside (ps_nside detector))
                 (range N_PLANCK_SIMS) (Sims [] [] None) levs (Ok s) ->
    pca_fit (map (map float_log10) (src_cls s)) = Some fit ->
    src_map_unit s = Some u ->
    writable w (Path "." (noise_model_fn detector)) = false ->
    extends w w' (base ++ levs) ->
    run detector w (base ++ levs) (Raise (OSError (Path "." (noise_model_fn detector)))) w'.

(** Every call of the spectrum estimator in [evs] comes right after the
    read of a map [m], and is given [f m]. *)
Definition analysed_as (f : list float -> result (list float)) (evs : list event) : Prop :=
  forall pre m' lmax post,
    evs = pre ++ EAnafast m' lmax :: post ->
    exists pre' p m, pre = pre' ++ [EReadMap p (Ok m)] /\ f m = Ok m'.

End Shape.

(** ** Further notions used in the statements *)

(** The map of realization [i] when a run from [w] finds it in the cache:
    the fetcher accepts the local file, the unit of its first field is
    recognized and the file reads as a map. *)
Definition cached_map `{Libraries} (detector : Z) (w : world) (i : Z) : option (list float) :=
  match noise_target detector PLANCK_NOISE_DIR i with
  | Ok p =>
      if is_cached w p then
        match header_unit p (fs w !! p) 1 0 with
        | Ok u =>
            if recognized_unit u then
              match map_of_file p (fs w !! p) with
              | Ok m => Some m
              | Raise _ => None
              end
            else None
        | Raise _ => None
        end
      else None
  | Raise _ => None
  end.

(** The calls of the spectrum estimator that the cached maps of [w]
    determine, for the realizations [idxs] in order: the map of each
    realization, changed by [f], with the bound [lmax]; the list stops at
    the first realization without a cached map, and after the first call
    that [f] or the estimator does not answer. *)
Fixpoint expected_calls `{Libraries} (f : list float -> result (list float)) (lmax : Z)
         (detector : Z) (w : world) (idxs : list Z) : list (list float * Z) :=
  match idxs with
  | [] => []
  | i :: rest =>
      match cached_map detector w i with
      | Some m =>
          match f m with
          | Ok m' =>
              (m', lmax) ::
              match anafast m' lmax with
              | Some _ => expected_calls f lmax detector w rest
              | None => []
              end
          | Raise _ => []
          end
      | None => []
      end
  end.

(** [int(s)] for a string made of an optional minus sign and digits. *)
Definition int_of_str (s : string) : option Z :=
  option_map Z.of_int (NilZero.int_of_string s).

(** [c] does not occur in [s]. *)
Fixpoint lacks (c : ascii) (s : string) : bool :=
  match s with
  | EmptyString => true
  | String x rest => negb (Ascii.eqb x c) && lacks c rest
  end.

(** The request URLs of the realizations [idxs] of a detector whose file is
    not in the cache of [w], in the order of [idxs]. *)
Definition missing_urls `{Libraries} (detector : Z) (w : world) (idxs : list Z)
  : list string :=
  omap (fun i => match noise_target detector PLANCK_NOISE_DIR i with
                 | Ok p => if is_cached w p then None else Some (url_sims (name p))
                 | Raise _ => None
                 end) idxs.

(** Every realization of the detector has its file in the cache. *)
Definition all_cached `{Libraries} (detector : Z) (w : world) : bool :=
  forallb (fun i => match noise_target detector PLANCK_NOISE_DIR i with
                    | Ok p => is_cached w p
                    | Raise _ => false
                    end) (range N_PLANCK_SIMS).

(** What a stretch of the realization loop over [idxs] does to the world:
    it requests some of the realizations' URLs, in order, and changes
    nothing but files of these realizations that the fetcher does not
    accept. *)
Definition fetched `{Libraries} (detector : Z) (idxs : list Z) (w w' : world) : Prop :=
  exists evs : list event,
    trace w' = trace w ++ evs /\
    sublist (net_calls evs) (missing_urls detector w idxs) /\
    (forall q, parent q <> PLANCK_NOISE_DIR -> fs w' !! q = fs w !! q) /\
    (forall q, is_cached w q = true -> fs w' !! q = fs w !! q) /\
    (forall q, is_Some (fs w !! q) -> is_Some (fs w' !! q)) /\
    (forallb (fun i => match noise_target detector PLANCK_NOISE_DIR i with
                       | Ok p => is_cached w p
                       | Raise _ => false
                       end) idxs = true ->
     net_calls evs = [] /\ fs w' = fs w) /\
    (forall q, fs w' !! q <> fs w !! q ->
               exists i, In i idxs /\
                         noise_target detector PLANCK_NOISE_DIR i = Ok q /\
                         is_cached w q = false).

(** The lines written to the log, in order. *)
Fixpoint logs `{Libraries} (evs : list event) : list string :=
  match evs with
  | [] => []
  | ELog s :: rest => s :: logs rest
  | _ :: rest => logs rest
  end.

(** The header reads that raised, with the file, in order. *)
Fixpoint unit_errors `{Libraries} (evs : list event) : list (path * exn) :=
  match evs with
  | [] => []
  | EFieldUnit p (Raise e) :: rest => (p, e) :: unit_errors rest
  | _ :: rest => unit_errors rest
  end.

(** ** A small instance of the libraries, to run the model on examples

    Pixels are integers.  A map file is one tag byte followed by one byte per
    pixel; the tag gives the unit keyword of the first field of HDU 1:
    [K] for K_CMB, [M] for MJy/sr, [u] for uK, [n] for a header without the
    keyword.  Any other content is not a map file. *)
Module Toy.

Definition unit_of_tag (tag : Byte.byte) : option (option string) :=
  match tag with
  | Byte.x4b => Some (Some "K_CMB")
  | Byte.x4d => Some (Some "MJy/sr")
  | Byte.x75 => Some (Some "uK")
  | Byte.x6e => Some None
  | _ => None
  end.

Definition headers (content : bytes) : option (list (gmap string string)) :=
  match content with
  | tag :: _ =>
      match unit_of_tag tag with
      | Some (Some u) => Some [∅; {[ "TUNIT1" := u ]}]
      | Some None => Some [∅; ∅]
      | None => None
      end
  | [] => None
  end.

Definition pixels (content : bytes) : option (list Z) :=
  match content with
  | tag :: body =>
      match unit_of_tag tag with
      | Some _ => Some (map (fun b => Z.of_N (Byte.to_N b)) body)
      | None => None
      end
  | [] => None
  end.

Definition total (m : list Z) : Z := fold_right Z.add 0 m.

#[local] Instance libs : Libraries := {|
  float := Z;
  float_sub := Z.sub;
  float_log10 := Z.log2;
  fits_headers := headers;
  read_map_field0 := pixels;
  np_mean := fun m => total m / Z.of_nat (length m);
  np_std := fun _ => 0;
  anafast := fun m lmax => Some [total (map (fun x => x * x) m)];
  pca_fit := fun cls => Some (PCA (map total cls) [] [])
|}.

(** A map file of [n] pixels, all of value [v]. *)
Definition map_file (tag v : Byte.byte) (n : nat) : bytes := tag :: repeat v n.

Definition no_service : string -> option bytes := fun _ => None.

(** A service that answers every request with the same body. *)
Definition service (body : bytes) : string -> option bytes := fun _ => Some body.

(** Every path can be written. *)
Definition empty_world (net : string -> option bytes) : world :=
  World ∅ (fun _ => true) net ∅ [].

(** A world whose only local file is [content] at [p]. *)
Definition world_with (p : path) (content : bytes) (net : string -> option bytes) : world :=
  World {[ p := content ]} (fun _ => true) net ∅ [].

(** A service whose answer to [url] is [special] and to anything else [body]. *)
Definition service_but (url : string) (special body : bytes) : string -> option bytes :=
  fun u => if String.eqb u url then Some special else Some body.

Definition cache : string := "cache".

Definition tag_K : Byte.byte := Byte.x4b.
Definition tag_M : Byte.byte := Byte.x4d.
Definition tag_u : Byte.byte := Byte.x75.
Definition tag_n : Byte.byte := Byte.x6e.

Definition noise_545_7 : path := Path cache "ffp10_noise_545_full_map_mc_00007.fits".
Definition noise_999_0 : path := Path cache "ffp10_noise_999_full_map_mc_00000.fits".
Definition noise_100_0 : path :=
  Path PLANCK_NOISE_DIR "ffp10_noise_100_full_map_mc_00000.fits".
Definition noise_100_99 : path :=
  Path PLANCK_NOISE_DIR "ffp10_noise_100_full_map_mc_00099.fits".

(** A K_CMB map of 1023 pixels (1024 bytes) and one of three pixels of value 5. *)
Definition big : bytes := map_file tag_K Byte.x01 1023.
Definition small : bytes := map_file tag_K Byte.x05 3.

(** The file is in the cache and the service is down. *)
Definition w_cached : world := world_with noise_545_7 big no_service.

(** Nothing is cached; the service answers with [small]. *)
Definition w_online : world := empty_world (service small).

(** Nothing is cached and the service is down. *)
Definition w_offline : world := empty_world no_service.

(** The service answers with an empty body. *)
Definition w_empty_payload : world := empty_world (service []).

(** The service answers with maps in uK, or with maps without unit keyword. *)
Definition w_unknown : world := empty_world (service (map_file tag_u Byte.x05 3)).
Definition w_nounit : world := empty_world (service (map_file tag_n Byte.x05 3)).

(** A map without unit keyword is in the cache. *)
Definition w_nounit_cached : world :=
  world_with noise_545_7 (map_file tag_n Byte.x05 3) no_service.

(** The last realization of detector 100 is in MJy/sr, the others in K_CMB. *)
Definition w_mixed : world :=
  empty_world (service_but (url_sims (name noise_100_99)) (map_file tag_M Byte.x05 3) small).

(** The baseline of detector 545 is present, all pixels 1. *)
Definition w_baseline : world :=
  world_with (avg_noise_map_fn 545) (map_file tag_K Byte.x01 3) (service small).

(** The files of all realizations of detector 100 are in the cache and the
    service is down. *)
Definition w_all_cached : world :=
  World (list_to_map
           (omap (fun i => match noise_target 100 PLANCK_NOISE_DIR i with
                           | Ok p => Some (p, big)
                           | Raise _ => None
                           end) (range N_PLANCK_SIMS)))
        (fun _ => true) no_service ∅ [].

(** The half-mission files of detector 100. *)
Definition hm_100_1 : path := Path cache "HFI_SkyMap_100_2048_R3.01_halfmission-1.fits".
Definition hm_100_2 : path := Path cache "HFI_SkyMap_100_2048_R3.01_halfmission-2.fits".

(** Realization 0 of detector 30 is in the cache and the service is down. *)
Definition noise_30_0 : path :=
  Path PLANCK_NOISE_DIR "ffp10_noise_030_full_map_mc_00000.fits".
Definition w_30_ready : world := world_with noise_30_0 big no_service.

(** The baseline of detector 545 (all pixels 1) and realization 0 (all
    pixels 5) are present, and the service is down. *)
Definition noise_545_0 : path :=
  Path PLANCK_NOISE_DIR "ffp10_noise_545_full_map_mc_00000.fits".
Definition w_545_ready : world :=
  World (<[avg_noise_map_fn 545 := map_file tag_K Byte.x01 1023]>
           {[ noise_545_0 := map_file tag_K Byte.x05 1023 ]})
        (fun _ => true) no_service ∅ [].

End Toy.

(** * Verification *)

(** ** Strings and templates *)

Example format_freq_30 : format_freq 30 = Ok "030".
Proof. reflexivity. Qed.

Example format_freq_negative : format_freq (-5) = Ok "-05".
Proof. reflexivity. Qed.

Example format_f0_rounds_to_even : Py.format_f0 (2 ^ 53 + 1) = Ok "9007199254740992".
Proof. reflexivity. Qed.

Example format_f0_overflow : Py.format_f0 (2 ^ 1024 - 2 ^ 970) = Raise OverflowError.
Proof. vm_compute. reflexivity. Qed.

Example format_escaped_braces :
  Py.format "{{{fn}}}" [("fn", Py.VStr "x")] = Ok "{x}".
Proof. reflexivity. Qed.

Example format_missing_field :
  Py.format "{instrument}_{fn}" [("fn", Py.VStr "x")] = Raise (KeyError "instrument").
Proof. reflexivity. Qed.

Lemma append_empty_r (s : string) : s +:+ EmptyString = s.
Proof.
  induction s as [|c s IH]; [reflexivity|].
  change (String c (s +:+ EmptyString) = String c s). now f_equal.
Qed.

Lemma format_url_maps (fn : string) :
  Py.format url_template_maps [("fn", Py.VStr fn)] = Ok (url_maps fn).
Proof. cbv -[String.append]. rewrite append_empty_r. reflexivity. Qed.

Lemma format_url_sims (fn : string) :
  Py.format url_template_sims [("fn", Py.VStr fn)] = Ok (url_sims fn).
Proof. cbv -[String.append]. rewrite append_empty_r. reflexivity. Qed.

Lemma format_noise_fn (f r : string) :
  Py.format planck_noise_fn_template
    [("frequency", Py.VStr f); ("ring_cut", Py.VStr "full"); ("realization", Py.VStr r)]
  = Ok (noise_fn f r).
Proof. cbv -[String.append]. reflexivity. Qed.

Lemma format_hm_fn (i f : string) (hm : Z) :
  Py.format hm_map_fn_template
    [("instrument", Py.VStr i); ("freq", Py.VStr f); ("hm", Py.VInt hm)]
  = Ok (hm_fn i f (Py.str_of_int hm)).
Proof. cbv -[String.append Py.str_of_int]. reflexivity. Qed.

Lemma format_obs_fn (i f r : string) (n : Z) :
  Py.format planck_obs_fn
    [("instrument", Py.VStr i); ("frequency", Py.VStr f); ("rev", Py.VStr r); ("obs_nside", Py.VInt n)]
  = Ok (i +:+ "_SkyMap_" +:+ f +:+ "_" +:+ Py.str_of_int n +:+ "_" +:+ r +:+ "_full.fits").
Proof. cbv -[String.append Py.str_of_int]. reflexivity. Qed.

Ltac m_unfold :=
  unfold mbind, M_bind, mret, M_ret, stat, requests_get, write_file, print, emit,
    lift, raise, read_file, observe in *; cbn in *.

Section Facts.
Context `{Libraries}.

Lemma log_log (w : world) (a b : list event) : log (log w a) b = log w (a ++ b).
Proof. unfold log. cbn. now rewrite app_assoc. Qed.

Lemma acquire_cached (p : path) (tmpl : string) (w : world) :
  is_cached w p = true ->
  acquire_map_data p tmpl w = (Ok tt, log w [EPrint (File_exists p)]).
Proof.
  unfold is_cached, acquire_map_data. intros Hc. m_unfold.
  destruct (fs w !! p) as [c|] eqn:E; [|discriminate]. cbn.
  destruct (Z.of_nat (length c) <? 1024); [discriminate|]. reflexivity.
Qed.

Lemma acquire_uncached (p : path) (tmpl url : string) (w : world) :
  is_cached w p = false ->
  Py.format tmpl [("fn", Py.VStr (name p))] = Ok url ->
  acquire_map_data p tmpl w =
    match remote w url with
    | Some body =>
        if writable w p then
          (Ok tt, log (store w p body)
                      [EPrint (miss_message w p); ENetGet url;
                       EWrite p body; EPrint (Downloaded (name p))])
        else (Raise (OSError p), log w [EPrint (miss_message w p); ENetGet url])
    | None => (Raise RequestException, log w [EPrint (miss_message w p); ENetGet url])
    end.
Proof.
  unfold is_cached, acquire_map_data, miss_message, log, store. intros Hc Hf. m_unfold.
  unfold log, store. cbn.
  destruct (fs w !! p) as [c|] eqn:E; cbn.
  - destruct (Z.of_nat (length c) <? 1024); [|discriminate]. cbn.
    rewrite Hf. cbn. destruct (remote w url); cbn; [destruct (writable w p); cbn|];
      rewrite <- ?app_assoc; reflexivity.
  - rewrite Hf. cbn. destruct (remote w url); cbn; [destruct (writable w p); cbn|];
      rewrite <- ?app_assoc; reflexivity.
Qed.

Lemma append_assoc (a b c : string) : (a +:+ b) +:+ c = a +:+ (b +:+ c).
Proof.
  induction a as [|x a IH]; [reflexivity|].
  change (String x ((a +:+ b) +:+ c) = String x (a +:+ (b +:+ c))). now f_equal.
Qed.

Lemma noise_resolver (d : Z) (dir : string) (i : Z) (w : world) :
  get_planck_noise_data d dir i w
  = resolve (noise_target d dir i) (fun p => acquire_map_data p url_template_sims) w.
Proof.
  unfold get_planck_noise_data, resolve, noise_target.
  unfold mbind, M_bind, result_bind, mret, M_ret, result_ret, lift.
  destruct (format_freq d) as [f|e]; [|reflexivity].
  destruct (format_real i) as [r|e]; [|reflexivity].
  rewrite format_noise_fn. reflexivity.
Qed.

Lemma hm_resolver (d : Z) (dir : string) (w : world) :
  get_planck_hm_data d dir w
  = resolve (hm_targets d dir)
            (fun '(p1, p2) => acquire_map_data p1 url_template_maps;;
                              acquire_map_data p2 url_template_maps) w.
Proof.
  unfold get_planck_hm_data, resolve, hm_targets, obs_instrument.
  unfold mbind, M_bind, result_bind, mret, M_ret, result_ret, lift.
  destruct (format_freq d) as [f|e]; [|reflexivity].
  rewrite !format_hm_fn. 
  change (Py.str_of_int 1) with "1". change (Py.str_of_int 2) with "2".
  destruct (acquire_map_data _ _ w) as [[[]|e] w1]; [|reflexivity].
  destruct (acquire_map_data _ _ w1) as [[[]|e] w2]; reflexivity.
Qed.

Lemma obs_resolver (d : Z) (dir : string) (w : world) :
  get_planck_obs_data d dir w
  = resolve (obs_target d dir) (fun p => acquire_map_data p url_template_maps) w.
Proof.
  unfold get_planck_obs_data, resolve, obs_target, obs_fn, obs_instrument, obs_nside,
    obs_rev, obs_freq_suffix.
  unfold mbind, M_bind, result_bind, mret, M_ret, result_ret, lift.
  destruct (in_list d [30; 44; 70]) eqn:Hl;
    destruct (format_freq d) as [f|e]; try reflexivity;
    destruct (d =? 353) eqn:H353; rewrite format_obs_fn, ?append_assoc, ?append_empty_r;
    try reflexivity.
Qed.

Ltac frame :=
  eexists; split; [unfold extends, log, store; cbn; repeat split; reflexivity|reflexivity].

Lemma acquire_frame (p : path) (tmpl : string) (w : world) :
  exists fe, extends w (acquire_map_data p tmpl w).2 fe /\ fetch_events fe.
Proof.
  destruct (is_cached w p) eqn:Hc.
  - rewrite acquire_cached by exact Hc. frame.
  - destruct (Py.format tmpl [("fn", Py.VStr (name p))]) as [url|e] eqn:Hf.
    + rewrite (acquire_uncached _ _ _ _ Hc Hf).
      destruct (remote w url); [destruct (writable w p)|]; frame.
    + unfold acquire_map_data, is_cached in *. m_unfold.
      destruct (fs w !! p) as [c|]; cbn.
      * destruct (Z.of_nat (length c) <? 1024); [|discriminate]. cbn. rewrite Hf. cbn.
        frame.
      * rewrite Hf. cbn. frame.
Qed.

Lemma get_field_unit_run (p : path) (hdu : nat) (idx : Z) (w : world) :
  get_field_unit p hdu idx w
  = (header_unit p (fs w !! p) hdu idx, log w [EFieldUnit p (header_unit p (fs w !! p) hdu idx)]).
Proof.
  unfold get_field_unit, fits_open, header_unit, log. m_unfold.
  destruct (fs w !! p) as [c|]; [|reflexivity].
  destruct (fits_headers c) as [hdul|]; [|reflexivity].
  destruct (hdul !! hdu) as [h|]; [|reflexivity].
  destruct (h !! _); reflexivity.
Qed.

Lemma hp_read_map_run (p : path) (w : world) :
  hp_read_map p w
  = (map_of_file p (fs w !! p), log w [EReadMap p (map_of_file p (fs w !! p))]).
Proof.
  unfold hp_read_map, map_of_file, log. m_unfold.
  destruct (fs w !! p) as [c|]; [|reflexivity].
  destruct (read_map_field0 c); reflexivity.
Qed.

Lemma hp_anafast_run (m : list float) (lmax : Z) (w : world) :
  hp_anafast m lmax w
  = (match anafast m lmax with
     | Some cl => Ok cl
     | None => Raise (LibraryError "anafast")
     end, log w [EAnafast m lmax]).
Proof.
  unfold hp_anafast, log. m_unfold. destruct (anafast m lmax); reflexivity.
Qed.

Lemma extends_refl (w : world) : extends w w [].
Proof. unfold extends. rewrite app_nil_r. auto. Qed.

Lemma extends_trans (w w1 w2 : world) (a b : list event) :
  extends w w1 a -> extends w1 w2 b -> extends w w2 (a ++ b).
Proof.
  intros (Ht & Hr & Ha & Hw) (Ht' & Hr' & Ha' & Hw'). unfold extends.
  rewrite Ht', Ht, app_assoc. repeat split; congruence.
Qed.

Lemma extends_log (w w1 : world) (fe evs : list event) :
  extends w w1 fe -> extends w (log w1 evs) (fe ++ evs).
Proof.
  intros Hext. eapply extends_trans; [exact Hext|]. unfold extends, log; cbn. auto.
Qed.

Lemma sim_body_iteration (d : Z) (sub : bool) (avg : option (list float)) (lmax : Z)
      (s : sims) (i : Z) (w : world) (r : result sims) (w' : world) :
  sim_body d sub avg lmax s i w = (r, w') ->
  exists evs, iteration d sub avg lmax i s evs r /\ extends w w' evs.
Proof.
  unfold sim_body. unfold mbind at 1, M_bind at 1. rewrite noise_resolver.
  unfold resolve. unfold mbind at 1, M_bind at 1, lift at 1.
  destruct (noise_target d PLANCK_NOISE_DIR i) as [p|e] eqn:Ht.
  2:{ intros [= <- <-]. exists []. split; [now constructor|apply extends_refl]. }
  unfold mbind at 1, M_bind at 1.
  destruct (acquire_frame p url_template_sims w) as (fe & Hext & Hfe).
  destruct (acquire_map_data p url_template_sims w) as [[[]|e] w1]; cbn in Hext.
  2:{ intros [= <- <-]. exists fe. split; [eapply it_fetch_failed; eauto|]. exact Hext. }
  cbn [mret M_ret].
  unfold mbind at 1, M_bind at 1. rewrite get_field_unit_run.
  destruct (header_unit p (fs w1 !! p) 1 0) as [u|e].
  2:{ intros [= <- <-]. eexists. split; [eapply it_unit_failed; eauto|].
      now apply extends_log. }
  destruct (recognized_unit u) eqn:Hu; cbn [negb].
  2:{ unfold raise. intros [= <- <-]. eexists. split; [eapply it_unit_unknown; eauto|].
      now apply extends_log. }
  unfold mbind at 1, M_bind at 1. rewrite hp_read_map_run. cbn [fs log].
  apply (extends_log _ _ _ [EFieldUnit p (Ok u)]) in Hext.
  destruct (map_of_file p (fs w1 !! p)) as [m|e].
  2:{ intros [= <- <-]. eexists. split; [eapply it_read_failed; eauto|].
      apply (extends_log _ _ _ [EReadMap p (Raise e)]) in Hext.
      rewrite <- app_assoc in Hext. exact Hext. }
  unfold mbind at 1, M_bind at 1.
  assert (Hadj : forall w0, (if sub then match avg with
                         | Some avg0 => lift (isub m avg0)
                         | None => raise (NameError "avg") end
                     else mret m) w0 = (adjust sub avg m, w0)).
  { intros w0. unfold adjust. destruct sub; [destruct avg|]; reflexivity. }
  rewrite Hadj. clear Hadj.
  apply (extends_log _ _ _ [EReadMap p (Ok m)]) in Hext.
  rewrite <- app_assoc in Hext. cbn [app] in Hext.
  destruct (adjust sub avg m) as [m'|e] eqn:Ha.
  2:{ intros [= <- <-]. eexists. split; [eapply it_adjust_failed; eauto|]. exact Hext. }
  unfold mbind at 1, M_bind at 1. rewrite hp_anafast_run.
  apply (extends_log _ _ _ [EAnafast m' lmax]) in Hext.
  rewrite <- app_assoc in Hext. cbn [app] in Hext.
  destruct (anafast m' lmax) as [cl|] eqn:Hcl.
  - cbn. intros [= <- <-]. eexists. split; [eapply it_done; eauto|]. exact Hext.
  - intros [= <- <-]. eexists. split; [eapply it_anafast_failed; eauto|]. exact Hext.
Qed.

Lemma for_each_realizations (d : Z) (sub : bool) (avg : option (list float)) (lmax : Z)
      (idxs : list Z) :
  forall (s : sims) (w : world) (r : result sims) (w' : world),
    for_each idxs (sim_body d sub avg lmax) s w = (r, w') ->
    exists evs, realizations d sub avg lmax idxs s evs r /\ extends w w' evs.
Proof.
  induction idxs as [|i rest IH]; intros s w r w'.
  - cbn. intros [= <- <-]. exists []. split; [constructor|apply extends_refl].
  - cbn [for_each]. unfold mbind at 1, M_bind at 1.
    destruct (sim_body d sub avg lmax s i w) as [[s1|e] w1] eqn:Hb;
      apply sim_body_iteration in Hb as (evs & Hit & Hext).
    + intros Hrest. apply IH in Hrest as (evs' & Hrs & Hext').
      exists (evs ++ evs'). split; [econstructor; eauto|].
      eapply extends_trans; eauto.
    + intros [= <- <-]. exists evs. split; [now constructor|exact Hext].
Qed.

Lemma finish_run (d : Z) (w w0 : world) (avg : option (list float)) (base : list event)
      (r : result unit) (w' : world) :
  baseline d w avg base ->
  extends w w0 base ->
  finish d avg w0 = (r, w') ->
  exists evs, run d w evs r w'.
Proof.
  intros Hb Hext0. unfold finish. unfold mbind at 1, M_bind at 1.
  destruct (for_each _ _ _ _) as [[s|e] w1] eqn:Hloop;
    apply for_each_realizations in Hloop as (levs & Hrs & Hext).
  2:{ intros [= <- <-]. eexists. eapply run_aborted; eauto.
      eapply extends_trans; eauto. }
  assert (Hext1 : extends w w1 (base ++ levs)) by (eapply extends_trans; eauto).
  destruct (pca_fit _) as [fit|] eqn:Hfit.
  2:{ intros [= <- <-]. eexists. eapply run_fit_failed; eauto. }
  destruct (src_map_unit s) as [u|] eqn:Hu.
  2:{ intros [= <- <-]. eexists. eapply run_no_unit; eauto. }
  unfold np_savez. destruct Hext1 as (Ht & Hr & Ha & Hw).
  destruct (writable w1 _) eqn:Hwr; rewrite Hw in Hwr.
  - intros [= <- <-]. eexists. eapply run_saved; eauto; cbn.
    + rewrite Ht, <- !app_assoc. reflexivity.
    + now rewrite Ha.
  - intros [= <- <-]. eexists. eapply run_save_failed; eauto.
    unfold extends. auto.
Qed.

Lemma get_ps_data_run (d : Z) (w : world) (r : result unit) (w' : world) :
  get_ps_data d w = (r, w') -> exists evs, run d w evs r w'.
Proof.
  change (get_ps_data d) with
    (avg ← (if ps_subtract_average d
            then m ← hp_read_map (avg_noise_map_fn d); mret (Some m)
            else mret None);
     finish d avg).
  unfold mbind at 1, M_bind at 1.
  destruct (ps_subtract_average d) eqn:Hsub.
  - unfold mbind at 1, M_bind at 1. rewrite hp_read_map_run.
    destruct (map_of_file _ _) as [a|e] eqn:Hm.
    2:{ intros [= <- <-]. eexists. eapply run_no_baseline; eauto. }
    cbn [mret M_ret]. intros Hf. eapply finish_run; [| |exact Hf].
    + unfold baseline. rewrite Hsub. eauto.
    + apply (extends_log w w [] [EReadMap (avg_noise_map_fn d) (Ok a)]), extends_refl.
  - cbn [mret M_ret]. intros Hf. eapply finish_run; [| |exact Hf].
    + unfold baseline. rewrite Hsub. eauto.
    + apply extends_refl.
Qed.
End Facts.

(** ** Projections of the trace *)

Section Projections.
Context `{Libraries}.

Lemma units_read_app (a b : list event) :
  units_read (a ++ b) = units_read a ++ units_read b.
Proof.
  induction a as [|e a IH]; [reflexivity|].
  destruct e as [| | |p [u|x]| | | |]; cbn; rewrite IH; reflexivity.
Qed.

Lemma anafast_calls_app (a b : list event) :
  anafast_calls (a ++ b) = anafast_calls a ++ anafast_calls b.
Proof.
  induction a as [|e a IH]; [reflexivity|].
  destruct e; cbn; rewrite IH; reflexivity.
Qed.

Lemma saved_app (a b : list event) : saved (a ++ b) = saved a ++ saved b.
Proof.
  induction a as [|e a IH]; [reflexivity|].
  destruct e; cbn; rewrite IH; reflexivity.
Qed.

Lemma net_calls_app (a b : list event) : net_calls (a ++ b) = net_calls a ++ net_calls b.
Proof.
  induction a as [|e a IH]; [reflexivity|].
  destruct e; cbn; rewrite IH; reflexivity.
Qed.

Lemma fetch_events_silent (fe : list event) :
  fetch_events fe ->
  units_read fe = [] /\ anafast_calls fe = [] /\ saved fe = [].
Proof.
  unfold fetch_events. induction fe as [|e fe IH]; [auto|].
  cbn. intros [He Hfe]%andb_true_iff. destruct (IH Hfe) as (? & ? & ?).
  destruct e; try discriminate; cbn; auto.
Qed.

Lemma fetch_events_not_anafast (fe pre post : list event) (m : list float) (l : Z) :
  fetch_events fe -> fe <> pre ++ EAnafast m l :: post.
Proof.
  unfold fetch_events. intros Hfe ->. rewrite forallb_app in Hfe.
  apply andb_true_iff in Hfe as [_ Hfe]. cbn in Hfe. discriminate.
Qed.

Lemma new_events_extends (w w' : world) (evs : list event) :
  trace w' = trace w ++ evs -> new_events w w' = evs.
Proof. unfold new_events. intros ->. apply drop_app_length. Qed.

Lemma analysed_as_nil (f : list float -> result (list float)) : analysed_as f [].
Proof. intros [|? pre] m' l post Heq; discriminate. Qed.

Lemma analysed_as_app (f : list float -> result (list float)) (a b : list event) :
  analysed_as f a -> analysed_as f b -> analysed_as f (a ++ b).
Proof.
  intros Ha Hb pre m' l post Heq.
  apply app_eq_app in Heq as [x [[-> Hx]|[-> Hx]]].
  - destruct x as [|e x].
    + cbn in Hx. destruct (Hb [] m' l post (eq_sym Hx)) as (pre' & p & m & Habs & _).
      destruct pre'; discriminate.
    + injection Hx as <- ->.
      destruct (Ha pre m' l x eq_refl) as (pre' & p & m & -> & Hf).
      exists pre', p, m. auto.
  - destruct (Hb x m' l post Hx) as (pre' & p & m & -> & Hf).
    exists (a ++ pre'), p, m. rewrite app_assoc. auto.
Qed.

Lemma analysed_as_fetch (f : list float -> result (list float)) (fe : list event) :
  fetch_events fe -> analysed_as f fe.
Proof.
  intros Hfe pre m' l post Heq. exfalso. exact (fetch_events_not_anafast _ _ _ _ _ Hfe Heq).
Qed.

Lemma analysed_as_one (f : list float -> result (list float)) (e : event) :
  (forall m l, e <> EAnafast m l) -> analysed_as f [e].
Proof.
  intros He pre m' l post Heq.
  destruct pre as [|e1 [|e2 pre]]; cbn in Heq; try discriminate.
  inversion Heq; subst. now destruct (He m' l).
Qed.

Lemma analysed_as_read (f : list float -> result (list float)) (p : path)
      (m m' : list float) (l : Z) :
  f m = Ok m' -> analysed_as f [EReadMap p (Ok m); EAnafast m' l].
Proof.
  intros Hf pre m2 l2 post Heq.
  destruct pre as [|e1 [|e2 [|e3 pre]]]; cbn in Heq; try discriminate.
  inversion Heq; subst. exists [], p, m. auto.
Qed.

Lemma iteration_analysed (d : Z) (sub : bool) (avg : option (list float)) (lmax i : Z)
      (s : sims) (evs : list event) (r : result sims) :
  iteration d sub avg lmax i s evs r -> analysed_as (adjust sub avg) evs.
Proof.
  intros Hit. inversion Hit; subst; clear Hit;
    repeat first
      [ apply analysed_as_nil
      | apply analysed_as_fetch; assumption
      | apply analysed_as_read; assumption
      | apply analysed_as_one; discriminate
      | apply analysed_as_app
      | apply (analysed_as_app _ [_] [_; _])
      | apply (analysed_as_app _ [_] [_]) ].
Qed.

Lemma realizations_analysed (d : Z) (sub : bool) (avg : option (list float)) (lmax : Z)
      (idxs : list Z) (s : sims) (evs : list event) (r : result sims) :
  realizations d sub avg lmax idxs s evs r -> analysed_as (adjust sub avg) evs.
Proof.
  induction 1.
  - apply analysed_as_nil.
  - eapply iteration_analysed; eauto.
  - apply analysed_as_app; [eapply iteration_analysed; eauto|assumption].
Qed.

Lemma iteration_lmax (d : Z) (sub : bool) (avg : option (list float)) (lmax i : Z)
      (s : sims) (evs : list event) (r : result sims) :
  iteration d sub avg lmax i s evs r ->
  forall m l, In (m, l) (anafast_calls evs) -> l = lmax.
Proof.
  intros Hit m l. inversion Hit; subst; clear Hit;
    rewrite ?anafast_calls_app;
    repeat match goal with
           | Hfe : fetch_events _ |- _ =>
               destruct (fetch_events_silent _ Hfe) as (_ & -> & _); clear Hfe
           end; cbn; intros Hin; try contradiction.
  all: destruct Hin as [[= _ <-]|[]]; reflexivity.
Qed.

Lemma realizations_lmax (d : Z) (sub : bool) (avg : option (list float)) (lmax : Z)
      (idxs : list Z) (s : sims) (evs : list event) (r : result sims) :
  realizations d sub avg lmax idxs s evs r ->
  forall m l, In (m, l) (anafast_calls evs) -> l = lmax.
Proof.
  induction 1; intros m l; [contradiction|eapply iteration_lmax; eauto|].
  rewrite anafast_calls_app, in_app_iff. intros [Hin|Hin]; [eapply iteration_lmax|]; eauto.
Qed.

Lemma iteration_saved (d : Z) (sub : bool) (avg : option (list float)) (lmax i : Z)
      (s : sims) (evs : list event) (r : result sims) :
  iteration d sub avg lmax i s evs r -> saved evs = [].
Proof.
  intros Hit. inversion Hit; subst; clear Hit;
    rewrite ?saved_app;
    repeat match goal with
           | Hfe : fetch_events _ |- _ =>
               destruct (fetch_events_silent _ Hfe) as (_ & _ & ->); clear Hfe
           end; reflexivity.
Qed.

Lemma realizations_saved (d : Z) (sub : bool) (avg : option (list float)) (lmax : Z)
      (idxs : list Z) (s : sims) (evs : list event) (r : result sims) :
  realizations d sub avg lmax idxs s evs r -> saved evs = [].
Proof.
  induction 1; [reflexivity|eapply iteration_saved; eauto|].
  rewrite saved_app, IHrealizations. erewrite iteration_saved; eauto.
Qed.

(** A pass that completes read one recognized unit, which it leaves in
    [src_map_unit]. *)
Lemma iteration_done_unit (d : Z) (sub : bool) (avg : option (list float)) (lmax i : Z)
      (s s' : sims) (evs : list event) :
  iteration d sub avg lmax i s evs (Ok s') ->
  exists p u, noise_target d PLANCK_NOISE_DIR i = Ok p /\
              units_read evs = [(p, u)] /\
              recognized_unit u = true /\
              src_map_unit s' = Some u.
Proof.
  intros Hit. inversion Hit; subst; clear Hit.
  exists p, u. rewrite units_read_app.
  match goal with
  | Hfe : fetch_events _ |- _ => destruct (fetch_events_silent _ Hfe) as (-> & _ & _)
  end. cbn. auto.
Qed.

(** A pass that reads an unrecognized unit stops on it. *)
Lemma iteration_unknown_unit (d : Z) (sub : bool) (avg : option (list float)) (lmax i : Z)
      (s : sims) (evs : list event) (r : result sims) (p : path) (u : string) :
  iteration d sub avg lmax i s evs r ->
  In (p, u) (units_read evs) ->
  recognized_unit u = false ->
  r = Raise (ValueError_unknown_unit u p) /\
  exists pre, evs = pre ++ [EFieldUnit p (Ok u)] /\ units_read pre = [] /\
              anafast_calls pre = [].
Proof.
  intros Hit. inversion Hit; subst; clear Hit;
    rewrite ?units_read_app;
    repeat match goal with
           | Hfe : fetch_events _ |- _ =>
               let Hu := fresh "Hu" in let Ha := fresh "Ha" in
               pose proof (fetch_events_silent _ Hfe) as (Hu & Ha & _); rewrite Hu; clear Hfe
           end; intros Hin Hbad; cbn in Hin; try contradiction;
    destruct Hin as [[= <- <-]|[]]; try congruence.
  split; [reflexivity|]. exists fe. auto.
Qed.

Lemma realizations_unknown_unit (d : Z) (sub : bool) (avg : option (list float)) (lmax : Z)
      (idxs : list Z) (s : sims) (evs : list event) (r : result sims) :
  realizations d sub avg lmax idxs s evs r ->
  forall p u,
    In (p, u) (units_read evs) ->
    recognized_unit u = false ->
    r = Raise (ValueError_unknown_unit u p) /\
    exists pre, evs = pre ++ [EFieldUnit p (Ok u)] /\
                forall q v, In (q, v) (units_read pre) -> recognized_unit v = true.
Proof.
  induction 1 as [s|i rest s evs e Hit|i rest s s' evs evs' r Hit Hrs IH]; intros p u Hin Hbad.
  - contradiction.
  - destruct (iteration_unknown_unit _ _ _ _ _ _ _ _ _ _ Hit Hin Hbad)
      as (-> & pre & -> & Hpre & _).
    split; [reflexivity|]. exists pre. split; [reflexivity|].
    rewrite Hpre. contradiction.
  - destruct (iteration_done_unit _ _ _ _ _ _ _ _ Hit) as (p0 & u0 & _ & Hu0 & Hrec & _).
    rewrite units_read_app, Hu0 in Hin. destruct Hin as [[= -> ->]|Hin]; [congruence|].
    destruct (IH p u Hin Hbad) as (-> & pre & -> & Hpre).
    split; [reflexivity|]. exists (evs ++ pre). split; [now rewrite app_assoc|].
    intros q v. rewrite units_read_app, Hu0. intros [[= <- <-]|Hq]; eauto.
Qed.

Lemma last_unit_cons (p : path) (u : string) (units : list (path * string))
      (dflt : option string) :
  last_unit ((p, u) :: units) dflt = last_unit units (Some u).
Proof. unfold last_unit. rewrite last_cons. destruct (last units) as [[]|]; reflexivity. Qed.

Lemma realizations_units (d : Z) (sub : bool) (avg : option (list float)) (lmax : Z)
      (idxs : list Z) (s : sims) (evs : list event) (r : result sims) :
  realizations d sub avg lmax idxs s evs r ->
  forall s', r = Ok s' ->
    Forall2 (fun i pu => noise_target d PLANCK_NOISE_DIR i = Ok pu.1 /\
                         recognized_unit pu.2 = true)
            idxs (units_read evs) /\
    src_map_unit s' = last_unit (units_read evs) (src_map_unit s).
Proof.
  induction 1 as [s|i rest s evs e Hit|i rest s s1 evs evs' r Hit Hrs IH]; intros s' Hr.
  - injection Hr as <-. split; [constructor|reflexivity].
  - discriminate.
  - destruct (iteration_done_unit _ _ _ _ _ _ _ _ Hit) as (p0 & u0 & Ht & Hu0 & Hrec & Hs1).
    destruct (IH s' Hr) as (Hall & Hlast).
    rewrite units_read_app, Hu0. cbn [app]. split.
    + constructor; auto.
    + rewrite last_unit_cons, Hlast, Hs1. reflexivity.
Qed.

Lemma range_lookup (n i : nat) : (i < n)%nat -> range n !! i = Some (Z.of_nat i).
Proof.
  intros Hi. unfold range. rewrite list_lookup_fmap, lookup_seq_lt by exact Hi. reflexivity.
Qed.

Lemma range_length (n : nat) : length (range n) = n.
Proof. unfold range. now rewrite length_map, length_seq. Qed.

(** ** Facts about every run *)

Lemma run_extends (d : Z) (w : world) (evs : list event) (r : result unit) (w' : world) :
  run d w evs r w' -> trace w' = trace w ++ evs /\ remote w' = remote w.
Proof.
  intros Hrun. inversion Hrun; subst; clear Hrun.
  all: repeat match goal with
             | Hx : extends _ _ _ |- _ => destruct Hx as (? & ? & ?)
             end; auto.
Qed.

Lemma baseline_silent (d : Z) (w : world) (avg : option (list float)) (base : list event) :
  baseline d w avg base ->
  units_read base = [] /\ anafast_calls base = [] /\ saved base = [] /\
  net_calls base = [] /\ analysed_as (adjust (ps_subtract_average d) avg) base.
Proof.
  unfold baseline. destruct (ps_subtract_average d).
  - intros (a & _ & _ & ->). cbn. repeat split; auto. apply analysed_as_one. discriminate.
  - intros (_ & ->). cbn. repeat split; auto. apply analysed_as_nil.
Qed.


(** An unrecognized unit read anywhere in a run ends the run on the spot. *)
Lemma run_unknown_unit (d : Z) (w : world) (evs : list event) (r : result unit) (w' : world)
      (p : path) (u : string) :
  run d w evs r w' ->
  In (p, u) (units_read evs) ->
  recognized_unit u = false ->
  r = Raise (ValueError_unknown_unit u p) /\
  (exists pre, evs = pre ++ [EFieldUnit p (Ok u)] /\
               forall q v, In (q, v) (units_read pre) -> recognized_unit v = true) /\
  saved evs = [] /\
  archives w' = archives w.
Proof.
  intros Hrun Hin Hbad.
  inversion Hrun as [e Hs Hm
                    |avg base levs e w1 Hb Hrs Hx
                    |avg base levs s w1 Hb Hrs Hfit Hx
                    |avg base levs s fit w1 Hb Hrs Hfit Hu Hx
                    |avg base levs s fit u1 w1 Hb Hrs Hfit Hu Hwr Ht Hr Ha
                    |avg base levs s fit u1 w1 Hb Hrs Hfit Hu Hwr Hx]; subst; clear Hrun.
  1: cbn in Hin; contradiction.
  all: destruct (baseline_silent _ _ _ _ Hb) as (Hbu & _ & Hbs & _);
    rewrite !units_read_app, Hbu in Hin; cbn in Hin; rewrite ?app_nil_r in Hin;
    destruct (realizations_unknown_unit _ _ _ _ _ _ _ _ Hrs p u Hin Hbad)
      as (Hr1 & pre & -> & Hpre); try discriminate.
  injection Hr1 as ->.
  split; [reflexivity|]. split; [|split].
  - exists (base ++ pre). split; [now rewrite app_assoc|].
    intros q v. rewrite units_read_app, Hbu. cbn. apply Hpre.
  - rewrite saved_app, Hbs. eapply realizations_saved; eauto.
  - apply Hx.
Qed.


(** ** The calls of the spectrum estimator *)

(** A pass that completes analysed one map; its spectrum and its mean are
    what the pass adds to the loop's lists. *)
Lemma iteration_done_spectrum (d : Z) (sub : bool) (avg : option (list float)) (lmax i : Z)
      (s s' : sims) (evs : list event) :
  iteration d sub avg lmax i s evs (Ok s') ->
  exists m' cl, anafast_calls evs = [(m', lmax)] /\
                anafast m' lmax = Some cl /\
                src_cls s' = src_cls s ++ [cl] /\
                maps_means s' = maps_means s ++ [np_mean m'].
Proof.
  intros Hit. inversion Hit; subst; clear Hit.
  exists m', cl. rewrite anafast_calls_app.
  match goal with
  | Hfe : fetch_events _ |- _ => destruct (fetch_events_silent _ Hfe) as (_ & -> & _)
  end. cbn. auto.
Qed.

Lemma realizations_spectra (d : Z) (sub : bool) (avg : option (list float)) (lmax : Z)
      (idxs : list Z) (s : sims) (evs : list event) (r : result sims) :
  realizations d sub avg lmax idxs s evs r ->
  forall s', r = Ok s' ->
    exists cls,
      Forall2 (fun c cl => anafast c.1 c.2 = Some cl) (anafast_calls evs) cls /\
      length cls = length idxs /\
      src_cls s' = src_cls s ++ cls /\
      maps_means s' = maps_means s ++ map (fun c => np_mean c.1) (anafast_calls evs).
Proof.
  induction 1 as [s|i rest s evs e Hit|i rest s s1 evs evs' r Hit Hrs IH]; intros s' Hr.
  - injection Hr as <-. exists []. cbn. rewrite !app_nil_r. repeat split; constructor.
  - discriminate.
  - destruct (iteration_done_spectrum _ _ _ _ _ _ _ _ Hit) as (m' & cl & Hc & Hcl & Hs & Hm).
    destruct (IH s' Hr) as (cls & Hall & Hlen & Hs' & Hm').
    exists (cl :: cls). rewrite anafast_calls_app, Hc. cbn [app map length fst].
    split; [constructor; auto|]. split; [now rewrite Hlen|].
    rewrite Hs', Hm', Hs, Hm, <- !app_assoc. auto.
Qed.

(** A pass of the loop on a cached, readable map. *)
Lemma sim_body_cached (d : Z) (sub : bool) (avg : option (list float)) (lmax : Z)
      (s : sims) (i : Z) (w : world) (m m' : list float) :
  cached_map d w i = Some m ->
  adjust sub avg m = Ok m' ->
  exists p u,
    sim_body d sub avg lmax s i w
    = (match anafast m' lmax with
       | Some cl => Ok (Sims (src_cls s ++ [cl]) (maps_means s ++ [np_mean m']) (Some u))
       | None => Raise (LibraryError "anafast")
       end,
       log w [EPrint (File_exists p); EFieldUnit p (Ok u); EReadMap p (Ok m);
              EAnafast m' lmax]).
Proof.
  unfold cached_map.
  destruct (noise_target d PLANCK_NOISE_DIR i) as [p|] eqn:Ht; [|discriminate].
  destruct (is_cached w p) eqn:Hc; [|discriminate].
  destruct (header_unit p (fs w !! p) 1 0) as [u|] eqn:Hu; [|discriminate].
  destruct (recognized_unit u) eqn:Hr; [|discriminate].
  destruct (map_of_file p (fs w !! p)) as [m0|] eqn:Hm; [|discriminate].
  intros [= ->] Ha. exists p, u.
  unfold sim_body. unfold mbind at 1, M_bind at 1.
  rewrite noise_resolver. unfold resolve. rewrite Ht.
  unfold mbind at 1, M_bind at 1, lift. cbn [fst snd].
  unfold mbind at 1, M_bind at 1. rewrite (acquire_cached _ _ _ Hc).
  cbn [mret M_ret].
  unfold mbind at 1, M_bind at 1. rewrite get_field_unit_run. cbn [fs log].
  rewrite Hu, Hr. cbn [negb].
  unfold mbind at 1, M_bind at 1. rewrite hp_read_map_run. cbn [fs log]. rewrite Hm.
  unfold mbind at 1, M_bind at 1.
  assert (Hadj : forall w0, (if sub then match avg with
                         | Some avg0 => lift (isub m avg0)
                         | None => raise (NameError "avg") end
                     else mret m) w0 = (adjust sub avg m, w0)).
  { intros w0. unfold adjust. destruct sub; [destruct avg|]; reflexivity. }
  rewrite Hadj, Ha. clear Hadj.
  unfold mbind at 1, M_bind at 1. rewrite hp_anafast_run.
  rewrite !log_log. cbn [app].
  destruct (anafast m' lmax); reflexivity.
Qed.

Lemma cached_map_fs (d : Z) (w w1 : world) (i : Z) :
  fs w1 = fs w -> cached_map d w1 i = cached_map d w i.
Proof.
  intros Hfs. unfold cached_map, is_cached. now rewrite Hfs.
Qed.

Lemma expected_calls_fs (f : list float -> result (list float)) (lmax d : Z)
      (w w1 : world) (idxs : list Z) :
  fs w1 = fs w -> expected_calls f lmax d w1 idxs = expected_calls f lmax d w idxs.
Proof.
  intros Hfs. induction idxs as [|i rest IH]; [reflexivity|].
  cbn [expected_calls]. rewrite (cached_map_fs d w w1 i Hfs), IH. reflexivity.
Qed.

(** The loop makes the calls that the cached maps determine. *)
Lemma for_each_expected (d : Z) (sub : bool) (avg : option (list float)) (lmax : Z)
      (idxs : list Z) :
  forall (s : sims) (w : world) (r : result sims) (w' : world),
    for_each idxs (sim_body d sub avg lmax) s w = (r, w') ->
    expected_calls (adjust sub avg) lmax d w idxs
      `prefix_of` anafast_calls (new_events w w').
Proof.
  induction idxs as [|i rest IH]; intros s w r w' Hloop.
  - apply prefix_nil.
  - cbn [expected_calls].
    destruct (cached_map d w i) as [m|] eqn:Hcm; [|apply prefix_nil].
    destruct (adjust sub avg m) as [m'|] eqn:Ha; [|apply prefix_nil].
    destruct (sim_body_cached d sub avg lmax s i w m m' Hcm Ha) as (p & u & Hb).
    cbn [for_each] in Hloop. unfold mbind at 1, M_bind at 1 in Hloop.
    rewrite Hb in Hloop.
    destruct (anafast m' lmax) as [cl|].
    + pose proof (for_each_realizations _ _ _ _ _ _ _ _ _ Hloop) as (evs & _ & Hext).
      destruct Hext as (Htr & _).
      specialize (IH _ _ _ _ Hloop).
      rewrite (new_events_extends _ _ _ Htr) in IH.
      rewrite (expected_calls_fs _ _ _ w (log w _)) in IH by reflexivity.
      cbn [trace log] in Htr. rewrite <- app_assoc in Htr.
      rewrite (new_events_extends _ _ _ Htr).
      cbn. now apply prefix_cons.
    + injection Hloop as <- <-.
      erewrite new_events_extends by reflexivity. cbn. reflexivity.
Qed.

(** A run makes the calls that the cached maps determine, with the
    baseline it read. *)
Lemma get_ps_data_expected (d : Z) (w : world) (r : result unit) (w' : world) :
  get_ps_data d w = (r, w') ->
  forall avg : option (list float),
    (if ps_subtract_average d
     then exists a, map_of_file (avg_noise_map_fn d) (fs w !! avg_noise_map_fn d) = Ok a /\
                    avg = Some a
     else avg = None) ->
    expected_calls (adjust (ps_subtract_average d) avg)
                   (get_lmax_for_nside (ps_nside d)) d w (range N_PLANCK_SIMS)
      `prefix_of` anafast_calls (new_events w w').
Proof.
  assert (Hfin : forall avg w0 base,
             fs w0 = fs w -> trace w0 = trace w ++ base -> anafast_calls base = [] ->
             finish d avg w0 = (r, w') ->
             expected_calls (adjust (ps_subtract_average d) avg)
                            (get_lmax_for_nside (ps_nside d)) d w (range N_PLANCK_SIMS)
               `prefix_of` anafast_calls (new_events w w')).
  { intros avg w0 base Hfs Htr0 Hbase. unfold finish. unfold mbind at 1, M_bind at 1.
    destruct (for_each _ _ _ _) as [rl w1] eqn:Hloop.
    pose proof (for_each_expected _ _ _ _ _ _ _ _ _ Hloop) as Hpre.
    pose proof (for_each_realizations _ _ _ _ _ _ _ _ _ Hloop) as (levs & _ & (Htr1 & _)).
    rewrite (new_events_extends _ _ _ Htr1) in Hpre.
    rewrite (expected_calls_fs _ _ _ w w0) in Hpre by exact Hfs.
    assert (Hend : forall tail, trace w' = trace w1 ++ tail ->
                                expected_calls (adjust (ps_subtract_average d) avg)
                                  (get_lmax_for_nside (ps_nside d)) d w (range N_PLANCK_SIMS)
                                  `prefix_of` anafast_calls (new_events w w')).
    { intros tail Htl. rewrite Htr1, Htr0, <- !app_assoc in Htl.
      rewrite (new_events_extends _ _ _ Htl), !anafast_calls_app, Hbase. cbn [app].
      now apply prefix_app_r. }
    destruct rl as [s|e].
    2:{ intros [= <- <-]. apply (Hend []). now rewrite app_nil_r. }
    destruct (pca_fit _) as [fit|];
      [|intros [= <- <-]; apply (Hend []); now rewrite app_nil_r].
    destruct (src_map_unit s) as [u|];
      [|intros [= <- <-]; apply (Hend []); now rewrite app_nil_r].
    unfold np_savez. destruct (writable w1 _); intros [= <- <-].
    - eapply Hend. reflexivity.
    - apply (Hend []). now rewrite app_nil_r. }
  change (get_ps_data d) with
    (avg ← (if ps_subtract_average d
            then m ← hp_read_map (avg_noise_map_fn d); mret (Some m)
            else mret None);
     finish d avg).
  unfold mbind at 1, M_bind at 1.
  destruct (ps_subtract_average d).
  - unfold mbind at 1, M_bind at 1. rewrite hp_read_map_run.
    destruct (map_of_file _ _) as [a|e].
    + cbn [mret M_ret]. intros Hf avg (a' & [= <-] & ->).
      eapply Hfin; [| | |exact Hf]; reflexivity.
    + intros _ avg (a' & [=] & _).
  - cbn [mret M_ret]. intros Hf avg ->.
    eapply (Hfin None w []); [reflexivity|now rewrite app_nil_r|reflexivity|exact Hf].
Qed.

Lemma lmax_of_detector (d : Z) :
  (In d [30; 44; 70] -> get_lmax_for_nside (ps_nside d) = 3071) /\
  (~ In d [30; 44; 70] -> get_lmax_for_nside (ps_nside d) = 6143).
Proof.
  split.
  - intros [<-|[<-|[<-|[]]]]; reflexivity.
  - intros Hn. unfold ps_nside, in_list. cbn.
    destruct (Z.eqb_spec d 30); [subst; exfalso; apply Hn; cbn; auto|].
    destruct (Z.eqb_spec d 44); [subst; exfalso; apply Hn; cbn; auto|].
    destruct (Z.eqb_spec d 70); [subst; exfalso; apply Hn; cbn; auto|].
    reflexivity.
Qed.

(** What every run says about the calls of the estimator. *)
Lemma run_calls (d : Z) (w : world) (evs : list event) (r : result unit) (w' : world) :
  run d w evs r w' ->
  (forall m l, In (m, l) (anafast_calls evs) -> l = get_lmax_for_nside (ps_nside d)) /\
  (r = Ok tt -> length (anafast_calls evs) = N_PLANCK_SIMS).
Proof.
  intros Hrun.
  inversion Hrun as [e Hs Hm
                    |avg base levs e w1 Hb Hrs Hx
                    |avg base levs s w1 Hb Hrs Hfit Hx
                    |avg base levs s fit w1 Hb Hrs Hfit Hu Hx
                    |avg base levs s fit u1 w1 Hb Hrs Hfit Hu Hwr Ht Hr Ha
                    |avg base levs s fit u1 w1 Hb Hrs Hfit Hu Hwr Hx]; subst; clear Hrun.
  1: split; [intros m l []|discriminate].
  all: destruct (baseline_silent _ _ _ _ Hb) as (_ & Hba & _);
    rewrite !anafast_calls_app, Hba; cbn [app anafast_calls]; rewrite ?app_nil_r;
    (split; [intros m l Hin; eapply realizations_lmax; eauto|]); try discriminate.
  intros _.
  destruct (realizations_spectra _ _ _ _ _ _ _ _ Hrs s eq_refl) as (cls & Hall & Hlen & _).
  rewrite (Forall2_length _ _ _ Hall), Hlen. apply range_length.
Qed.

(** C5.  For detectors 30, 44 and 70 the resolution is 1024 and the maximum
    multipole 3071; for every other detector they are 2048 and 6143; the
    multipole is [get_lmax_for_nside] of the resolution, 3 * resolution - 1.
    In a run of [get_ps_data] for the detector every call of the spectrum
    estimator carries this multipole, and a run that returns made
    N_PLANCK_SIMS calls.  The calls of every run begin with the calls that
    the cached maps determine: one per realization, in order, with this
    multipole, on the map read (minus the baseline for 353, 545 and 857),
    for as long as the realization's file is accepted by the fetcher, has a
    recognized unit and reads as a map, and the estimator answers. *)
Theorem resolution_and_lmax_per_detector (d nside lmax : Z) (w : world)
        (r : result unit) (w' : world) :
  get_ps_data d w = (r, w') ->
  In d [30; 44; 70] /\ nside = 1024 /\ lmax = 3071 \/
  ~ In d [30; 44; 70] /\ nside = 2048 /\ lmax = 6143 ->
  get_lmax_for_nside nside = lmax /\
  lmax = 3 * nside - 1 /\
  (forall m l, In (m, l) (anafast_calls (new_events w w')) -> l = lmax) /\
  (r = Ok tt -> length (anafast_calls (new_events w w')) = N_PLANCK_SIMS) /\
  (forall f : list float -> result (list float),
      (if in_list d [353; 545; 857]
       then exists a, map_of_file (avg_noise_map_fn d) (fs w !! avg_noise_map_fn d) = Ok a /\
                      f = (fun m => isub m a)
       else f = (fun m => Ok m)) ->
      expected_calls f lmax d w (range N_PLANCK_SIMS)
        `prefix_of` anafast_calls (new_events w w')).
Proof.
  intros Hrun Hd.
  assert (Hl : get_lmax_for_nside (ps_nside d) = lmax /\ get_lmax_for_nside nside = lmax /\
               lmax = 3 * nside - 1).
  { destruct (lmax_of_detector d) as [H1 H2].
    destruct Hd as [(Hin & -> & ->) | (Hn & -> & ->)]; auto. }
  destruct Hl as (Hl & Hn & Hf).
  split; [exact Hn|]. split; [exact Hf|].
  pose proof (get_ps_data_expected _ _ _ _ Hrun) as Hexp.
  apply get_ps_data_run in Hrun as (evs & Hrun).
  destruct (run_extends _ _ _ _ _ Hrun) as (Htr & _).
  rewrite (new_events_extends _ _ _ Htr) in *.
  destruct (run_calls _ _ _ _ _ Hrun) as (Hall & Hlen). rewrite Hl in Hall.
  split; [exact Hall|]. split; [exact Hlen|].
  intros f Hfc. rewrite <- Hl.
  change (in_list d [353; 545; 857]) with (ps_subtract_average d) in Hfc.
  destruct (ps_subtract_average d) eqn:Hsub.
  - destruct Hfc as (a & Ha & ->).
    specialize (Hexp (Some a)). apply Hexp. eauto.
  - subst f. specialize (Hexp None). now apply Hexp.
Qed.

Lemma subtract_average_true (d : Z) :
  d = 353 \/ d = 545 \/ d = 857 -> ps_subtract_average d = true.
Proof. intros [-> | [-> | ->]]; reflexivity. Qed.

Lemma subtract_average_false (d : Z) :
  d <> 353 -> d <> 545 -> d <> 857 -> ps_subtract_average d = false.
Proof.
  intros H1 H2 H3. unfold ps_subtract_average, in_list. cbn.
  destruct (Z.eqb_spec d 353); [contradiction|].
  destruct (Z.eqb_spec d 545); [contradiction|].
  destruct (Z.eqb_spec d 857); [contradiction|]. reflexivity.
Qed.

(** C6.  For detectors 353, 545 and 857 the first event of a run of
    [get_ps_data] is the read of the baseline map; when that read fails the
    run raises its error with no other event, hence with no request, and
    with files and archives unchanged; when it succeeds, every map given to
    the spectrum estimator is the map just read minus the baseline, and the
    calls of the run begin with one call per realization, in order, on the
    cached map of the realization minus the baseline, for as long as the
    file is accepted by the fetcher, has a recognized unit and reads as a
    map, the subtraction is defined and the estimator answers.  For every
    other detector the same holds with the map as it is read.  A run that
    returns called the estimator N_PLANCK_SIMS times.  The subtraction is
    pixel by pixel on maps of the same length. *)
Theorem baseline_loaded_first_and_subtracted (d : Z) (w : world) (r : result unit)
        (w' : world) :
  get_ps_data d w = (r, w') ->
  let avg_fn := avg_noise_map_fn d in
  let avg := map_of_file avg_fn (fs w !! avg_fn) in
  let calls := anafast_calls (new_events w w') in
  (d = 353 \/ d = 545 \/ d = 857 ->
   (exists rest, new_events w w' = EReadMap avg_fn avg :: rest) /\
   (forall e, avg = Raise e ->
              r = Raise e /\ new_events w w' = [EReadMap avg_fn (Raise e)] /\
              net_calls (new_events w w') = [] /\ fs w' = fs w /\
              archives w' = archives w) /\
   (forall a, avg = Ok a ->
              analysed_as (fun m => isub m a) (new_events w w') /\
              expected_calls (fun m => isub m a) 6143 d w (range N_PLANCK_SIMS)
                `prefix_of` calls)) /\
  (d <> 353 -> d <> 545 -> d <> 857 ->
   analysed_as (fun m => Ok m) (new_events w w') /\
   expected_calls (fun m => Ok m) (if in_list d [30; 44; 70] then 3071 else 6143)
                  d w (range N_PLANCK_SIMS)
     `prefix_of` calls) /\
  (r = Ok tt -> length calls = N_PLANCK_SIMS) /\
  (forall m a : list float,
      length m = length a -> isub m a = Ok (zip_with float_sub m a)).
Proof.
  intros Hrun avg_fn avg calls. subst calls.
  pose proof (get_ps_data_expected _ _ _ _ Hrun) as Hexp.
  apply get_ps_data_run in Hrun as (evs & Hrun).
  destruct (run_extends _ _ _ _ _ Hrun) as (Htr & _).
  rewrite (new_events_extends _ _ _ Htr) in *. clear Htr.
  split; [|split; [|split]].
  - intros Hd. pose proof (subtract_average_true d Hd) as Hs.
    assert (Hl : get_lmax_for_nside (ps_nside d) = 6143)
      by (destruct Hd as [-> | [-> | ->]]; reflexivity).
    assert (Hpre : forall a, avg = Ok a ->
                             expected_calls (fun m => isub m a) 6143 d w (range N_PLANCK_SIMS)
                               `prefix_of` anafast_calls evs).
    { intros a Ha. specialize (Hexp (Some a)). rewrite Hs, Hl in Hexp. apply Hexp. eauto. }
    clear Hexp.
    inversion Hrun as [e Hs' Hm
                      |avg0 base levs e w1 Hb Hrs Hx
                      |avg0 base levs s w1 Hb Hrs Hfit Hx
                      |avg0 base levs s fit w1 Hb Hrs Hfit Hu Hx
                      |avg0 base levs s fit u1 w1 Hb Hrs Hfit Hu Hwr Ht Hr Ha
                    |avg0 base levs s fit u1 w1 Hb Hrs Hfit Hu Hwr Hx]; subst; clear Hrun.
    { subst avg avg_fn. rewrite Hm. split; [eauto|]. split.
      - intros e' [= <-]. cbn. auto.
      - discriminate. }
    all: unfold baseline in Hb; rewrite Hs in Hb; destruct Hb as (a & Hm & -> & ->);
      subst avg avg_fn; rewrite Hm in *;
      (split; [cbn; eauto|]); (split; [discriminate|]);
      intros a' Ha'; (split; [|now apply Hpre]); injection Ha' as <-;
      pose proof (realizations_analysed _ _ _ _ _ _ _ _ Hrs) as Han; rewrite Hs in Han;
      repeat apply analysed_as_app; try exact Han; apply analysed_as_one; discriminate.
  - intros H1 H2 H3. pose proof (subtract_average_false d H1 H2 H3) as Hd.
    split.
    + clear Hexp.
      inversion Hrun as [e Hs Hm
                        |avg0 base levs e w1 Hb Hrs Hx
                        |avg0 base levs s w1 Hb Hrs Hfit Hx
                        |avg0 base levs s fit w1 Hb Hrs Hfit Hu Hx
                        |avg0 base levs s fit u1 w1 Hb Hrs Hfit Hu Hwr Ht Hr Ha
                      |avg0 base levs s fit u1 w1 Hb Hrs Hfit Hu Hwr Hx]; subst; clear Hrun.
      { congruence. }
      all: unfold baseline in Hb; rewrite Hd in Hb; destruct Hb as (-> & ->);
        pose proof (realizations_analysed _ _ _ _ _ _ _ _ Hrs) as Han; rewrite Hd in Han;
        repeat apply analysed_as_app; try exact Han;
        try apply analysed_as_nil; apply analysed_as_one; discriminate.
    + specialize (Hexp None). rewrite Hd in Hexp.
      assert (Hl : get_lmax_for_nside (ps_nside d)
                   = if in_list d [30; 44; 70] then 3071 else 6143)
        by (unfold ps_nside; destruct (in_list d [30; 44; 70]); reflexivity).
      rewrite <- Hl. now apply Hexp.
  - apply (run_calls _ _ _ _ _ Hrun).
  - intros m a Hlen. unfold isub. rewrite Hlen, Nat.eqb_refl. reflexivity.
Qed.

(** C9.  On a file whose header of the requested HDU has no unit keyword for
    the requested field, [get_field_unit] returns the empty string and does
    not raise.  The empty string is not a recognized unit, and a run of
    [get_ps_data] in which it is read raises the unknown-unit [ValueError]
    for it, the read being the last event of the run, with no archive saved
    and the stored archives unchanged: the outcome of an unrecognized
    unit. *)
Theorem missing_unit_keyword_is_unknown_unit :
  (forall (p : path) (hdu : nat) (field_idx : Z) (w : world) (content : bytes)
          (hdul : list (gmap string string)) (h : gmap string string),
      fs w !! p = Some content ->
      fits_headers content = Some hdul ->
      hdul !! hdu = Some h ->
      h !! ("TUNIT" +:+ Py.str_of_int (field_idx + 1)) = None ->
      get_field_unit p hdu field_idx w
      = (Ok EmptyString, log w [EFieldUnit p (Ok EmptyString)])) /\
  recognized_unit EmptyString = false /\
  (forall (d : Z) (w : world) (r : result unit) (w' : world) (p : path),
      get_ps_data d w = (r, w') ->
      In (p, EmptyString) (units_read (new_events w w')) ->
      r = Raise (ValueError_unknown_unit EmptyString p) /\
      (exists pre, new_events w w' = pre ++ [EFieldUnit p (Ok EmptyString)]) /\
      saved (new_events w w') = [] /\
      archives w' = archives w).
Proof.
  split; [|split].
  - intros p hdu idx w c hdul h Hf Hh Hl Hk.
    rewrite get_field_unit_run. unfold header_unit. rewrite Hf, Hh, Hl, Hk. reflexivity.
  - reflexivity.
  - intros d w r w' p Hrun Hin.
    apply get_ps_data_run in Hrun as (evs & Hrun).
    destruct (run_extends _ _ _ _ _ Hrun) as (Htr & _).
    rewrite (new_events_extends _ _ _ Htr) in *.
    destruct (run_unknown_unit _ _ _ _ _ _ _ Hrun Hin eq_refl) as (-> & (pre & -> & _) & Hs & Ha).
    eauto 10.
Qed.

(** C10.  After a run of [get_ps_data] that returns normally, one unit was
    read per realization, N_PLANCK_SIMS in all, the i-th from the i-th
    realization's file, each of them K_CMB or MJy/sr; the run stored one
    archive, under the detector's file name, and its unit label is the unit
    read last, from realization N_PLANCK_SIMS - 1. *)
Theorem archive_unit_is_last_realization_unit (d : Z) (w w' : world) :
  get_ps_data d w = (Ok tt, w') ->
  exists (units : list (path * string)) (a : archive) (p : path) (u : string),
    units_read (new_events w w') = units /\
    length units = N_PLANCK_SIMS /\
    (forall i q v, units !! i = Some (q, v) ->
                   noise_target d PLANCK_NOISE_DIR (Z.of_nat i) = Ok q /\
                   (v = "K_CMB" \/ v = "MJy/sr")) /\
    units !! (N_PLANCK_SIMS - 1)%nat = Some (p, u) /\
    archives w' = <[noise_model_fn d := a]> (archives w) /\
    maps_unit a = u.
Proof.
  intros Hrun.
  apply get_ps_data_run in Hrun as (evs & Hrun).
  destruct (run_extends _ _ _ _ _ Hrun) as (Htr & _).
  rewrite (new_events_extends _ _ _ Htr). clear Htr.
  inversion Hrun as [| | |
                     |avg base levs s fit u w1 Hb Hrs Hfit Hu Hwr Ht Hr Ha|];
    subst; clear Hrun.
  destruct (baseline_silent _ _ _ _ Hb) as (Hbu & _).
  destruct (realizations_units _ _ _ _ _ _ _ _ Hrs s eq_refl) as (Hall & Hlast).
  rewrite !units_read_app, Hbu. cbn [app units_read]. rewrite app_nil_r.
  pose proof (Forall2_length _ _ _ Hall) as Hlen. rewrite range_length in Hlen.
  cbn [src_map_unit] in Hlast. rewrite Hu in Hlast. unfold last_unit in Hlast.
  destruct (last (units_read levs)) as [[p u']|] eqn:Hl; [|discriminate].
  injection Hlast as <-.
  exists (units_read levs), (model_of s fit u), p, u.
  split; [reflexivity|]. split; [now symmetry|]. split; [|split; [|split]].
  - intros i q v Hi.
    destruct (Forall2_lookup_r _ _ _ _ _ Hall Hi) as (j & Hj & Ht' & Hrec).
    assert (i < N_PLANCK_SIMS)%nat as Hlt.
    { rewrite Hlen. eapply lookup_lt_Some; eauto. }
    rewrite range_lookup in Hj by exact Hlt. injection Hj as <-.
    split; [exact Ht'|]. cbn in Hrec. unfold recognized_unit in Hrec. cbn in Hrec.
    rewrite !orb_true_iff, !String.eqb_eq in Hrec. destruct Hrec as [?|[?|?]]; [auto|auto|discriminate].
  - rewrite last_lookup in Hl. rewrite <- Hlen in Hl.
    rewrite <- Hl. f_equal; lia.
  - exact Ha.
  - reflexivity.
Qed.

End Projections.

(** ** The asset fetcher *)

Section FetcherClaims.
Context `{Libraries}.

Lemma is_cached_true (w : world) (p : path) :
  is_cached w p = true <->
  exists content, fs w !! p = Some content /\ 1024 <= Z.of_nat (length content).
Proof.
  unfold is_cached. destruct (fs w !! p) as [c|].
  - rewrite negb_true_iff, Z.ltb_ge. split; [eauto|]. now intros (c' & [= <-] & Hc).
  - split; [discriminate|]. now intros (c' & [=] & _).
Qed.

Lemma is_cached_false (w : world) (p : path) :
  is_cached w p = false <->
  fs w !! p = None \/
  exists content, fs w !! p = Some content /\ Z.of_nat (length content) < 1024.
Proof.
  unfold is_cached. destruct (fs w !! p) as [c|].
  - rewrite negb_false_iff, Z.ltb_lt. split; [eauto|].
    intros [[=]|(c' & [= <-] & Hc)]. exact Hc.
  - split; auto.
Qed.

Lemma append_cancel_l (a x y : string) : a +:+ x = a +:+ y -> x = y.
Proof.
  induction a as [|c a IH]; [auto|].
  change (String c (a +:+ x) = String c (a +:+ y) -> x = y).
  intros [= Heq]. auto.
Qed.

Lemma hm_targets_distinct (d : Z) (dir : string) (p1 p2 : path) :
  hm_targets d dir = Ok (p1, p2) -> p1 <> p2.
Proof.
  unfold hm_targets, hm_fn, mbind, result_bind, mret, result_ret.
  destruct (format_freq d) as [f|e]; [|discriminate].
  intros [= <- <-] [= Heq].
  do 4 apply append_cancel_l in Heq. discriminate Heq.
Qed.

(** C1.  The acquisition policy, which every resolver applies to each of
    its target files.  [acquire_map_data] on a local file of at least 1024
    bytes makes no request and leaves the files as they are.  On a file that
    is absent or shorter than 1024 bytes it makes exactly one request, to the
    URL formatted from the template; when the request returns and the file
    can be written it returns normally, and whenever it returns normally the
    file holds exactly the response body.  The three resolvers compute their
    target path(s), run [acquire_map_data] on each, and only then return the
    path(s); the two half-mission targets are different files; the URL
    templates always format. *)
Theorem download_only_when_missing_or_undersized :
  (forall (p : path) (tmpl url : string) (w : world) (r : result unit) (w' : world),
      Py.format tmpl [("fn", Py.VStr (name p))] = Ok url ->
      acquire_map_data p tmpl w = (r, w') ->
      (forall content,
          fs w !! p = Some content -> 1024 <= Z.of_nat (length content) ->
          r = Ok tt /\ net_calls (new_events w w') = [] /\ fs w' = fs w) /\
      (fs w !! p = None \/
       (exists content, fs w !! p = Some content /\ Z.of_nat (length content) < 1024) ->
       net_calls (new_events w w') = [url] /\
       (forall body, remote w url = Some body -> writable w p = true ->
                     r = Ok tt /\ fs w' = <[p := body]> (fs w)) /\
       (r = Ok tt -> exists body, remote w url = Some body /\ fs w' !! p = Some body))) /\
  (forall (d : Z) (dir : string) (i : Z) (w : world),
      get_planck_noise_data d dir i w
      = resolve (noise_target d dir i) (fun p => acquire_map_data p url_template_sims) w) /\
  (forall (d : Z) (dir : string) (w : world),
      get_planck_obs_data d dir w
      = resolve (obs_target d dir) (fun p => acquire_map_data p url_template_maps) w) /\
  (forall (d : Z) (dir : string) (w : world),
      get_planck_hm_data d dir w
      = resolve (hm_targets d dir)
                (fun '(p1, p2) => acquire_map_data p1 url_template_maps;;
                                  acquire_map_data p2 url_template_maps) w) /\
  (forall (d : Z) (dir : string) (p1 p2 : path),
      hm_targets d dir = Ok (p1, p2) -> p1 <> p2) /\
  (forall fn : string,
      Py.format url_template_sims [("fn", Py.VStr fn)] = Ok (url_sims fn) /\
      Py.format url_template_maps [("fn", Py.VStr fn)] = Ok (url_maps fn)).
Proof.
  split; [|split; [|split; [|split; [|split]]]].
  - intros p tmpl url w r w' Hf Hrun. split.
    + intros c Hc Hsz.
      assert (Hca : is_cached w p = true) by (apply is_cached_true; eauto).
      rewrite (acquire_cached _ _ _ Hca) in Hrun. injection Hrun as <- <-.
      rewrite (new_events_extends w _ [EPrint (File_exists p)]) by reflexivity. auto.
    + intros Hmiss%is_cached_false.
      rewrite (acquire_uncached _ _ _ _ Hmiss Hf) in Hrun.
      destruct (remote w url) as [body|]; [destruct (writable w p)|];
        injection Hrun as <- <-; erewrite new_events_extends by reflexivity; cbn.
      * split; [reflexivity|]. split.
        -- intros b [= <-] _. auto.
        -- intros _. exists body. split; [reflexivity|]. apply lookup_insert_eq.
      * split; [reflexivity|]. split; [discriminate|discriminate].
      * split; [reflexivity|]. split; [discriminate|discriminate].
  - apply noise_resolver.
  - apply obs_resolver.
  - apply hm_resolver.
  - apply hm_targets_distinct.
  - intros fn. split; [apply format_url_sims|apply format_url_maps].
Qed.

Lemma format_f0_small (z : Z) : Z.abs z < 2 ^ 53 -> Py.format_f0 z = Ok (Py.str_of_int z).
Proof.
  intros Hz. unfold Py.format_f0, Py.float_of_int.
  apply Z.ltb_lt in Hz. rewrite Hz. reflexivity.
Qed.



Lemma acquire_raises (p : path) (tmpl : string) (w : world) (e : exn) :
  (acquire_map_data p tmpl w).1 = Raise e <->
  is_cached w p = false /\
  (Py.format tmpl [("fn", Py.VStr (name p))] = Raise e \/
   exists url, Py.format tmpl [("fn", Py.VStr (name p))] = Ok url /\
               (remote w url = None /\ e = RequestException \/
                is_Some (remote w url) /\ writable w p = false /\ e = OSError p)).
Proof.
  destruct (is_cached w p) eqn:Hc.
  - rewrite acquire_cached by exact Hc. cbn. split; [discriminate|]. now intros [[=] _].
  - destruct (Py.format tmpl [("fn", Py.VStr (name p))]) as [url|e'] eqn:Hf.
    + rewrite (acquire_uncached _ _ _ _ Hc Hf).
      destruct (remote w url) as [body|] eqn:Hr; [destruct (writable w p) eqn:Hw|]; cbn.
      * split; [discriminate|].
        intros [_ [[=]|(url' & [= <-] & [[Hn _]|(_ & [=] & _)])]]. congruence.
      * split.
        -- intros [= <-]. split; [reflexivity|]. right. exists url.
           split; [reflexivity|]. right. rewrite Hr. eauto.
        -- intros [_ [[=]|(url' & [= <-] & [[Hn _]|(_ & _ & ->)])]];
             [congruence|reflexivity].
      * split.
        -- intros [= <-]. split; [reflexivity|]. right. eauto.
        -- intros [_ [[=]|(url' & [= <-] & [[_ ->]|([b Hb] & _)])]];
             [reflexivity|congruence].
    + unfold acquire_map_data, is_cached in *. m_unfold.
      destruct (fs w !! p) as [c|]; cbn.
      * destruct (Z.of_nat (length c) <? 1024); [|discriminate]. cbn. rewrite Hf. cbn.
        split; [intros [= <-]; auto|]. intros [_ [[= <-]|(url' & [=] & _)]]. reflexivity.
      * rewrite Hf. cbn.
        split; [intros [= <-]; auto|]. intros [_ [[= <-]|(url' & [=] & _)]]. reflexivity.
Qed.


Lemma in_list_true (d : Z) (l : list Z) : in_list d l = true <-> In d l.
Proof.
  unfold in_list. rewrite existsb_exists. split.
  - intros (x & Hx & ->%Z.eqb_eq). exact Hx.
  - intros Hd. exists d. split; [exact Hd|apply Z.eqb_refl].
Qed.

Lemma in_list_false (d : Z) (l : list Z) : in_list d l = false <-> ~ In d l.
Proof.
  rewrite <- in_list_true. destruct (in_list d l); split; congruence.
Qed.

Lemma prefix_append (a c : string) : String.prefix a (a +:+ c) = true.
Proof.
  induction a as [|x a IH]; [now destruct c|].
  change (String.prefix (String x a) (String x (a +:+ c)) = true).
  cbn [String.prefix]. destruct (ascii_dec x x); [exact IH|congruence].
Qed.

(** C4, amended.  [get_planck_obs_data] names its file with LFI, resolution
    1024, revision R3.00 and the -BPassCorrected suffix for detectors 30, 44
    and 70, with HFI, 2048 and R3.01 for the others, and with the -psb suffix
    for detector 353.  [get_planck_hm_data] selects the instrument family the
    same way (LFI for 30, 44 and 70, HFI otherwise) and for every other
    detector, 353 included, names its two files
    [HFI_SkyMap_{detector:03}_2048_R3.01_halfmission-{1,2}.fits], without
    suffix.  Both resolvers fetch their targets with the acquisition policy
    and the same URL template. *)
Theorem half_mission_names_fix_resolution (d : Z) (dir f : string) :
  format_freq d = Ok f ->
  (obs_target d dir = Ok (Path dir (obs_fn d f)) /\
   (In d [30; 44; 70] ->
    obs_fn d f = "LFI_SkyMap_" +:+ f +:+ "-BPassCorrected_1024_R3.00_full.fits") /\
   (d = 353 -> obs_fn d f = "HFI_SkyMap_" +:+ f +:+ "-psb_2048_R3.01_full.fits") /\
   (~ In d [30; 44; 70] -> d <> 353 ->
    obs_fn d f = "HFI_SkyMap_" +:+ f +:+ "_2048_R3.01_full.fits")) /\
  (exists n1 n2,
      hm_targets d dir = Ok (Path dir n1, Path dir n2) /\
      (In d [30; 44; 70] ->
       String.prefix ("LFI_SkyMap_" +:+ f) n1 = true /\
       String.prefix ("LFI_SkyMap_" +:+ f) n2 = true) /\
      (~ In d [30; 44; 70] ->
       n1 = "HFI_SkyMap_" +:+ f +:+ "_2048_R3.01_halfmission-1.fits" /\
       n2 = "HFI_SkyMap_" +:+ f +:+ "_2048_R3.01_halfmission-2.fits")) /\
  (forall w : world,
      get_planck_obs_data d dir w
      = resolve (obs_target d dir) (fun p => acquire_map_data p url_template_maps) w) /\
  (forall w : world,
      get_planck_hm_data d dir w
      = resolve (hm_targets d dir)
                (fun '(p1, p2) => acquire_map_data p1 url_template_maps;;
                                  acquire_map_data p2 url_template_maps) w).
Proof.
  intros Hf. split; [|split; [|split]].
  - split; [|split; [|split]].
    + unfold obs_target. rewrite Hf. reflexivity.
    + intros Hd. unfold obs_fn, obs_instrument, obs_nside, obs_rev, obs_freq_suffix.
      assert ((d =? 353) = false) as ->.
      { destruct Hd as [<-|[<-|[<-|[]]]]; reflexivity. }
      apply in_list_true in Hd. rewrite Hd. reflexivity.
    + intros ->. reflexivity.
    + intros Hd%in_list_false Hn%Z.eqb_neq.
      unfold obs_fn, obs_instrument, obs_nside, obs_rev, obs_freq_suffix.
      rewrite Hd, Hn. reflexivity.
  - unfold hm_targets. rewrite Hf. do 2 eexists. split; [reflexivity|]. split.
    + intros Hd%in_list_true. unfold obs_instrument, hm_fn. rewrite Hd.
      split.
      * change (String.prefix ("LFI_SkyMap_" +:+ f)
                  ("LFI_SkyMap_" +:+ f +:+ "_2048_R3.01_halfmission-1.fits") = true).
        rewrite <- append_assoc. apply prefix_append.
      * change (String.prefix ("LFI_SkyMap_" +:+ f)
                  ("LFI_SkyMap_" +:+ f +:+ "_2048_R3.01_halfmission-2.fits") = true).
        rewrite <- append_assoc. apply prefix_append.
    + intros Hd%in_list_false. unfold obs_instrument, hm_fn. rewrite Hd.
      split; reflexivity.
  - apply obs_resolver.
  - apply hm_resolver.
Qed.

(** C7, amended.  [acquire_map_data] raises exactly when one of its steps
    raises (formatting the URL, the request, or opening the file for
    writing), with that exception: it handles none.  When the request raises
    there has been exactly one request and the files are unchanged.  When
    the request returns, whatever the body, and the file can be written,
    [acquire_map_data] returns normally after one request and the file holds
    the body; a body shorter than 1024 bytes is not accepted as cached by the
    next call, and a body that is not a FITS file makes [get_field_unit]
    raise [OSError] when the builder opens it. *)
Theorem request_errors_surface_payloads_are_stored :
  (forall (p : path) (tmpl : string) (w : world) (e : exn),
      (acquire_map_data p tmpl w).1 = Raise e <->
      is_cached w p = false /\
      (Py.format tmpl [("fn", Py.VStr (name p))] = Raise e \/
       exists url, Py.format tmpl [("fn", Py.VStr (name p))] = Ok url /\
                   (remote w url = None /\ e = RequestException \/
                    is_Some (remote w url) /\ writable w p = false /\ e = OSError p))) /\
  (forall (p : path) (tmpl url : string) (w : world),
      Py.format tmpl [("fn", Py.VStr (name p))] = Ok url ->
      is_cached w p = false ->
      remote w url = None ->
      let w' := (acquire_map_data p tmpl w).2 in
      net_calls (new_events w w') = [url] /\ fs w' = fs w) /\
  (forall (p : path) (tmpl url : string) (w : world) (body : bytes),
      Py.format tmpl [("fn", Py.VStr (name p))] = Ok url ->
      is_cached w p = false ->
      remote w url = Some body ->
      writable w p = true ->
      let w' := (acquire_map_data p tmpl w).2 in
      (acquire_map_data p tmpl w).1 = Ok tt /\
      net_calls (new_events w w') = [url] /\
      fs w' !! p = Some body /\
      (Z.of_nat (length body) < 1024 -> is_cached w' p = false) /\
      (fits_headers body = None ->
       forall hdu field_idx, (get_field_unit p hdu field_idx w').1 = Raise (OSError p))).
Proof.
  split; [|split].
  - apply acquire_raises.
  - intros p tmpl url w Hf Hc Hr. rewrite (acquire_uncached _ _ _ _ Hc Hf), Hr. cbn.
    erewrite new_events_extends by reflexivity. auto.
  - intros p tmpl url w body Hf Hc Hr Hw.
    rewrite (acquire_uncached _ _ _ _ Hc Hf), Hr, Hw. cbn.
    erewrite new_events_extends by reflexivity. cbn.
    split; [reflexivity|]. split; [reflexivity|]. split; [apply lookup_insert_eq|]. split.
    + intros Hlen. unfold is_cached. cbn. rewrite lookup_insert_eq.
      apply Z.ltb_lt in Hlen. now rewrite Hlen.
    + intros Hbad hdu idx. rewrite get_field_unit_run. cbn.
      unfold header_unit. rewrite lookup_insert_eq, Hbad. reflexivity.
Qed.

End FetcherClaims.

(** ** File-name formatting *)

Lemma length_append (a b : string) :
  String.length (a +:+ b) = (String.length a + String.length b)%nat.
Proof.
  induction a as [|x a IH]; [reflexivity|].
  change (S (String.length (a +:+ b)) = S (String.length a + String.length b)).
  now rewrite IH.
Qed.

Lemma length_zeros (n : nat) : String.length (Py.zeros n) = n.
Proof. induction n as [|n IH]; cbn; [reflexivity|now rewrite IH]. Qed.

Lemma zfill_length (width : nat) (s : string) :
  (width <= String.length (Py.zfill width s))%nat.
Proof.
  unfold Py.zfill. destruct (Nat.leb_spec width (String.length s)) as [Hle|Hlt]; [exact Hle|].
  destruct s as [|c rest].
  - rewrite length_zeros. cbn. lia.
  - destruct (Py.is_sign c).
    + change (width <= S (String.length (Py.zeros (width - String.length (String c rest)) +:+ rest)))%nat.
      rewrite length_append, length_zeros. cbn in *. lia.
    + rewrite length_append, length_zeros. cbn in *. lia.
Qed.

Lemma zfill_idempotent (width : nat) (s : string) :
  Py.zfill width (Py.zfill width s) = Py.zfill width s.
Proof.
  pose proof (zfill_length width s) as Hlen.
  unfold Py.zfill at 1. apply Nat.leb_le in Hlen. rewrite Hlen. reflexivity.
Qed.

Lemma all_from_spec (P : Z -> bool) (fuel : nat) :
  forall a, all_from fuel a P = true ->
            forall z, a <= z < a + Z.of_nat fuel -> P z = true.
Proof.
  induction fuel as [|k IH]; intros a Hall z Hz; [lia|].
  cbn [all_from] in Hall. apply andb_true_iff in Hall as [Ha Hrest].
  destruct (Z.eq_dec z a) as [->|Hne]; [exact Ha|].
  apply (IH (a + 1) Hrest). lia.
Qed.

Lemma padded_spec (width : nat) (fmt : Z -> result string) (z : Z) :
  padded width fmt z = true ->
  exists s, fmt z = Ok s /\ String.length s = width /\
            s = Py.zeros (width - String.length (Py.str_of_int z)) +:+ Py.str_of_int z.
Proof.
  unfold padded. destruct (fmt z) as [s|]; [|discriminate].
  intros [Hl He]%andb_true_iff. exists s.
  apply Nat.eqb_eq in Hl. apply String.eqb_eq in He. auto.
Qed.

(** C8.  Frequency 545 formats to 545, realization 7 to 00007 and
    realization 100 to 00100.  Padding is idempotent: padding a padded string
    again changes nothing.  Every frequency from 0 to 999 formats to exactly
    three characters, every realization from 0 to 99999 to exactly five: the
    decimal writing preceded by zeros.  The noise file name embeds the two
    formatted fields. *)
Theorem file_name_fields_are_zero_padded :
  format_freq 545 = Ok "545" /\
  format_real 7 = Ok "00007" /\
  format_real 100 = Ok "00100" /\
  (forall (width : nat) (s : string),
      Py.zfill width (Py.zfill width s) = Py.zfill width s) /\
  (forall f, 0 <= f < 1000 ->
             exists s, format_freq f = Ok s /\ String.length s = 3%nat /\
                       s = Py.zeros (3 - String.length (Py.str_of_int f)) +:+ Py.str_of_int f) /\
  (forall r, 0 <= r < 100000 ->
             exists s, format_real r = Ok s /\ String.length s = 5%nat /\
                       s = Py.zeros (5 - String.length (Py.str_of_int r)) +:+ Py.str_of_int r) /\
  (forall f r dir, noise_target f dir r
                   = match format_freq f, format_real r with
                     | Ok fs, Ok rs =>
                         Ok (Path dir ("ffp10_noise_" +:+ fs +:+ "_full_map_mc_" +:+ rs +:+ ".fits"))
                     | Raise e, _ | _, Raise e => Raise e
                     end).
Proof.
  split; [reflexivity|]. split; [reflexivity|]. split; [reflexivity|].
  split; [apply zfill_idempotent|]. split; [|split].
  - intros f Hf. apply padded_spec.
    apply (all_from_spec (padded 3 format_freq) (Z.to_nat 1000) 0); [vm_compute; reflexivity|lia].
  - intros r Hr. apply padded_spec.
    apply (all_from_spec (padded 5 format_real) (Z.to_nat 100000) 0); [vm_compute; reflexivity|lia].
  - intros f r dir. unfold noise_target, mbind, result_bind.
    destruct (format_freq f); [|reflexivity]. destruct (format_real r); reflexivity.
Qed.

(** * Further properties of the fetcher and of the builder *)

(** ** Decimal fields of the file names *)

Lemma zfill_alt (width : nat) (s : string) :
  Py.zfill width s =
  let fill := Py.zeros (width - String.length s) in
  match s with
  | String c rest => if Py.is_sign c then String c (fill +:+ rest) else fill +:+ s
  | EmptyString => fill
  end.
Proof.
  unfold Py.zfill. destruct (Nat.leb_spec width (String.length s)) as [Hle|Hlt]; [|reflexivity].
  replace (width - String.length s)%nat with 0%nat by lia. cbn.
  destruct s as [|c rest]; [reflexivity|]. now destruct (Py.is_sign c).
Qed.

Lemma zeros_digits (k : nat) (u : Decimal.uint) :
  Py.zeros k +:+ NilEmpty.string_of_uint u
  = NilEmpty.string_of_uint (Nat.iter k Decimal.D0 u).
Proof.
  induction k as [|k IH]; [reflexivity|].
  change (String "0" (Py.zeros k +:+ NilEmpty.string_of_uint u)
          = String "0" (NilEmpty.string_of_uint (Nat.iter k Decimal.D0 u))).
  now rewrite IH.
Qed.

Lemma of_uint_zeros (k : nat) (u : Decimal.uint) :
  Z.of_uint (Nat.iter k Decimal.D0 u) = Z.of_uint u.
Proof. induction k as [|k IH]; [reflexivity|]. exact IH. Qed.

Lemma iter_D0_nonnil (k : nat) (u : Decimal.uint) :
  u <> Decimal.Nil -> Nat.iter k Decimal.D0 u <> Decimal.Nil.
Proof. destruct k; [auto|discriminate]. Qed.

Lemma digits_not_sign (u : Decimal.uint) :
  u <> Decimal.Nil ->
  exists c rest, NilEmpty.string_of_uint u = String c rest /\ Py.is_sign c = false.
Proof. destruct u; [congruence| | | | | | | | | |]; intros _; cbn; eauto. Qed.

Lemma nilzero_digits (u : Decimal.uint) :
  u <> Decimal.Nil -> NilZero.string_of_uint u = NilEmpty.string_of_uint u.
Proof. destruct u; [congruence| | | | | | | | | |]; reflexivity. Qed.

(** Padding the writing of a number writes the number with leading zeros. *)
Lemma zfill_int (width : nat) (i : Decimal.int) :
  (match i with Decimal.Pos u | Decimal.Neg u => u <> Decimal.Nil end) ->
  exists k,
    Py.zfill width (NilZero.string_of_int i)
    = NilZero.string_of_int
        (match i with
         | Decimal.Pos u => Decimal.Pos (Nat.iter k Decimal.D0 u)
         | Decimal.Neg u => Decimal.Neg (Nat.iter k Decimal.D0 u)
         end) /\
    (String.length (NilZero.string_of_int i) + k
     = Nat.max width (String.length (NilZero.string_of_int i)))%nat.
Proof.
  intros Hu. rewrite zfill_alt. cbn zeta.
  set (k := (width - String.length (NilZero.string_of_int i))%nat).
  exists k. split; [|lia].
  destruct i as [u|u]; cbn [NilZero.string_of_int] in *.
  - rewrite !nilzero_digits by (try apply iter_D0_nonnil; exact Hu).
    destruct (digits_not_sign u Hu) as (c & rest & Heq & Hc).
    rewrite Heq, Hc, <- Heq. apply zeros_digits.
  - rewrite !nilzero_digits by (try apply iter_D0_nonnil; exact Hu).
    cbn. f_equal. apply zeros_digits.
Qed.

Lemma to_int_nonnil (z : Z) :
  match Z.to_int z with Decimal.Pos u | Decimal.Neg u => u <> Decimal.Nil end.
Proof.
  destruct z; cbn; [discriminate| |]; apply Unsigned.to_uint_nonnil.
Qed.

Lemma zfill_round_trip (width : nat) (z : Z) :
  int_of_str (Py.zfill width (Py.str_of_int z)) = Some z /\
  String.length (Py.zfill width (Py.str_of_int z))
  = Nat.max width (String.length (Py.str_of_int z)).
Proof.
  unfold Py.str_of_int.
  destruct (zfill_int width (Z.to_int z) (to_int_nonnil z)) as (k & -> & Hk).
  pose proof (to_int_nonnil z) as Hn. pose proof (DecimalZ.of_to z) as Hz.
  split.
  - unfold int_of_str. destruct (Z.to_int z) as [u|u].
    + rewrite NilZero.isi; [|intros [= Hx]; now apply (iter_D0_nonnil k u Hn)|discriminate].
      cbn. f_equal. rewrite of_uint_zeros. exact Hz.
    + rewrite NilZero.isi; [|discriminate|intros [= Hx]; now apply (iter_D0_nonnil k u Hn)].
      cbn. f_equal. rewrite of_uint_zeros. exact Hz.
  - rewrite <- Hk. destruct (Z.to_int z) as [u|u]; cbn [NilZero.string_of_int].
    + rewrite !nilzero_digits by (try apply iter_D0_nonnil; exact Hn).
      rewrite <- zeros_digits, length_append, length_zeros. lia.
    + rewrite !nilzero_digits by (try apply iter_D0_nonnil; exact Hn).
      rewrite <- zeros_digits. cbn. rewrite length_append, length_zeros. lia.
Qed.

(** X4.  For an integer below 2^53 in absolute value, [format_freq] and
    [format_real] return a string that reads back as the integer; the string
    has 3 (respectively 5) characters, or as many as the decimal writing of
    the integer when that is longer.  Hence two such integers with the same
    formatted field are equal. *)
Theorem formatted_fields_read_back :
  (forall z, Z.abs z < 2 ^ 53 ->
             exists s, format_freq z = Ok s /\ int_of_str s = Some z /\
                       String.length s = Nat.max 3 (String.length (Py.str_of_int z))) /\
  (forall z, Z.abs z < 2 ^ 53 ->
             exists s, format_real z = Ok s /\ int_of_str s = Some z /\
                       String.length s = Nat.max 5 (String.length (Py.str_of_int z))) /\
  (forall a b, Z.abs a < 2 ^ 53 -> Z.abs b < 2 ^ 53 ->
               format_freq a = format_freq b -> a = b) /\
  (forall a b, Z.abs a < 2 ^ 53 -> Z.abs b < 2 ^ 53 ->
               format_real a = format_real b -> a = b).
Proof.
  assert (Hf : forall z, Z.abs z < 2 ^ 53 -> format_freq z = Ok (Py.zfill 3 (Py.str_of_int z))).
  { intros z Hz. unfold format_freq. now rewrite format_f0_small. }
  assert (Hr : forall z, Z.abs z < 2 ^ 53 -> format_real z = Ok (Py.zfill 5 (Py.str_of_int z))).
  { intros z Hz. unfold format_real. now rewrite format_f0_small. }
  split; [|split; [|split]].
  - intros z Hz. eexists. split; [apply Hf, Hz|]. apply zfill_round_trip.
  - intros z Hz. eexists. split; [apply Hr, Hz|]. apply zfill_round_trip.
  - intros a b Ha Hb. rewrite (Hf a Ha), (Hf b Hb). intros [= Heq].
    pose proof (proj1 (zfill_round_trip 3 a)) as Pa. rewrite Heq in Pa.
    rewrite (proj1 (zfill_round_trip 3 b)) in Pa. congruence.
  - intros a b Ha Hb. rewrite (Hr a Ha), (Hr b Hb). intros [= Heq].
    pose proof (proj1 (zfill_round_trip 5 a)) as Pa. rewrite Heq in Pa.
    rewrite (proj1 (zfill_round_trip 5 b)) in Pa. congruence.
Qed.

Lemma digits_lack_underscore (u : Decimal.uint) :
  lacks "_" (NilEmpty.string_of_uint u) = true.
Proof. induction u; cbn; auto. Qed.

Lemma digits_lack_dot (u : Decimal.uint) :
  lacks "." (NilEmpty.string_of_uint u) = true.
Proof. induction u; cbn; auto. Qed.

Lemma zfill_lacks (width : nat) (z : Z) :
  lacks "_" (Py.zfill width (Py.str_of_int z)) = true /\
  lacks "." (Py.zfill width (Py.str_of_int z)) = true.
Proof.
  unfold Py.str_of_int.
  destruct (zfill_int width (Z.to_int z) (to_int_nonnil z)) as (k & -> & _).
  pose proof (to_int_nonnil z) as Hn.
  destruct (Z.to_int z) as [u|u]; cbn [NilZero.string_of_int];
    rewrite nilzero_digits by (apply iter_D0_nonnil; exact Hn); cbn;
    auto using digits_lack_underscore, digits_lack_dot.
Qed.

Lemma split_at (c : ascii) (s1 : string) :
  forall s2 t1 t2,
    lacks c s1 = true -> lacks c s2 = true ->
    s1 +:+ String c t1 = s2 +:+ String c t2 -> s1 = s2 /\ t1 = t2.
Proof.
  induction s1 as [|x s1 IH]; intros [|y s2] t1 t2 H1 H2 Heq.
  - now injection Heq.
  - change (String c t1 = String y (s2 +:+ String c t2)) in Heq.
    injection Heq as -> _. cbn in H2. rewrite Ascii.eqb_refl in H2. discriminate.
  - change (String x (s1 +:+ String c t1) = String c t2) in Heq.
    injection Heq as -> _. cbn in H1. rewrite Ascii.eqb_refl in H1. discriminate.
  - change (String x (s1 +:+ String c t1) = String y (s2 +:+ String c t2)) in Heq.
    injection Heq as -> Heq. cbn in H1, H2.
    apply andb_true_iff in H1 as [_ H1]. apply andb_true_iff in H2 as [_ H2].
    destruct (IH s2 t1 t2 H1 H2 Heq) as [-> ->]. auto.
Qed.

(** The file name of the target determines the detector and the
    realization. *)
Lemma noise_target_injective (d1 d2 r1 r2 : Z) (dir1 dir2 : string) (p1 p2 : path) :
  Z.abs d1 < 2 ^ 53 -> Z.abs d2 < 2 ^ 53 -> Z.abs r1 < 2 ^ 53 -> Z.abs r2 < 2 ^ 53 ->
  noise_target d1 dir1 r1 = Ok p1 -> noise_target d2 dir2 r2 = Ok p2 ->
  name p1 = name p2 ->
  d1 = d2 /\ r1 = r2.
Proof.
  intros Hd1 Hd2 Hr1 Hr2. unfold noise_target, format_freq, format_real.
  rewrite !format_f0_small by assumption.
  unfold mbind, result_bind, mret, result_ret, noise_fn.
  intros [= <-] [= <-] Heq. cbn [name] in Heq. symmetry in Heq.
  apply (append_cancel_l "ffp10_noise_") in Heq.
  change (Py.zfill 3 (Py.str_of_int d2)
            +:+ String "_" ("full_map_mc_" +:+ Py.zfill 5 (Py.str_of_int r2) +:+ ".fits")
          = Py.zfill 3 (Py.str_of_int d1)
            +:+ String "_" ("full_map_mc_" +:+ Py.zfill 5 (Py.str_of_int r1) +:+ ".fits"))
    in Heq.
  destruct (zfill_lacks 3 d1) as [Hu1 _], (zfill_lacks 3 d2) as [Hu2 _].
  apply (split_at "_" _ _ _ _ Hu2 Hu1) in Heq as [Hf Heq].
  apply (append_cancel_l "full_map_mc_") in Heq.
  destruct (zfill_lacks 5 r1) as [_ Hp1], (zfill_lacks 5 r2) as [_ Hp2].
  apply (split_at "." _ _ _ _ Hp2 Hp1) in Heq as [Hr _].
  pose proof (proj1 (zfill_round_trip 3 d1)) as Pd. rewrite <- Hf in Pd.
  rewrite (proj1 (zfill_round_trip 3 d2)) in Pd.
  pose proof (proj1 (zfill_round_trip 5 r1)) as Pr. rewrite <- Hr in Pr.
  rewrite (proj1 (zfill_round_trip 5 r2)) in Pr.
  split; congruence.
Qed.

(** ** The fetcher *)

Section MoreFetcher.
Context `{Libraries}.

Lemma log_nil (w : world) : log w [] = w.
Proof. destruct w. unfold log. cbn. now rewrite app_nil_r. Qed.

(** The world [acquire_map_data] ends in: the events added are fetcher
    events, and the only file that can differ is the target. *)
Lemma acquire_world (p : path) (tmpl : string) (w : world) :
  exists fe, fetch_events fe /\
    ((acquire_map_data p tmpl w).2 = log w fe \/
     exists body, (acquire_map_data p tmpl w).2 = log (store w p body) fe).
Proof.
  destruct (is_cached w p) eqn:Hc.
  - rewrite acquire_cached by exact Hc. eexists. split; [|left; reflexivity]. reflexivity.
  - destruct (Py.format tmpl [("fn", Py.VStr (name p))]) as [url|e] eqn:Hf.
    + rewrite (acquire_uncached _ _ _ _ Hc Hf).
      destruct (remote w url) as [body|]; [destruct (writable w p)|]; cbn.
      * eexists. split; [|right; eexists; reflexivity]. reflexivity.
      * eexists. split; [|left; reflexivity]. reflexivity.
      * eexists. split; [|left; reflexivity]. reflexivity.
    + unfold acquire_map_data, is_cached in *. m_unfold.
      destruct (fs w !! p) as [c|]; cbn.
      * destruct (Z.of_nat (length c) <? 1024); [|discriminate]. cbn. rewrite Hf. cbn.
        eexists. split; [|left; reflexivity]. reflexivity.
      * rewrite Hf. cbn. eexists. split; [|left; reflexivity]. reflexivity.
Qed.

(** X1.  [acquire_map_data] changes no file but its target, removes no file,
    and leaves the archives, the remote service and the write permissions
    as they were. *)
Theorem acquire_touches_only_its_target (p : path) (tmpl : string) (w : world) :
  (forall q, q <> p ->
             fs (acquire_map_data p tmpl w).2 !! q = fs w !! q) /\
  (is_Some (fs w !! p) -> is_Some (fs (acquire_map_data p tmpl w).2 !! p)) /\
  archives (acquire_map_data p tmpl w).2 = archives w /\
  remote (acquire_map_data p tmpl w).2 = remote w /\
  writable (acquire_map_data p tmpl w).2 = writable w.
Proof.
  destruct (acquire_world p tmpl w) as (fe & _ & [-> | (body & ->)]); cbn.
  - repeat split; auto.
  - repeat split; auto.
    + intros q Hq. apply lookup_insert_ne. congruence.
    + intros _. rewrite lookup_insert_eq. eauto.
Qed.

(** X2.  After a download that was written, a second call for the same
    target makes no request when the body had at least 1024 bytes.  A
    shorter body is requested again by the second call, which leaves the
    files as the first call left them and the target still not accepted:
    such a target is downloaded at every call. *)
Theorem acquire_again (p : path) (tmpl url : string) (w : world) (body : bytes) :
  Py.format tmpl [("fn", Py.VStr (name p))] = Ok url ->
  is_cached w p = false ->
  remote w url = Some body ->
  writable w p = true ->
  let w1 := (acquire_map_data p tmpl w).2 in
  (1024 <= Z.of_nat (length body) ->
   acquire_map_data p tmpl w1 = (Ok tt, log w1 [EPrint (File_exists p)])) /\
  (Z.of_nat (length body) < 1024 ->
   (acquire_map_data p tmpl w1).1 = Ok tt /\
   net_calls (new_events w1 (acquire_map_data p tmpl w1).2) = [url] /\
   fs (acquire_map_data p tmpl w1).2 = fs w1 /\
   is_cached (acquire_map_data p tmpl w1).2 p = false).
Proof.
  intros Hf Hc Hr Hw w1. subst w1.
  rewrite (acquire_uncached _ _ _ _ Hc Hf), Hr, Hw. cbn [snd].
  set (w1 := log (store w p body) _).
  assert (Hfs1 : fs w1 !! p = Some body) by (cbn; apply lookup_insert_eq).
  split.
  - intros Hlen. apply acquire_cached. unfold is_cached. rewrite Hfs1.
    apply negb_true_iff, Z.ltb_ge. exact Hlen.
  - intros Hlen.
    assert (Hc1 : is_cached w1 p = false).
    { unfold is_cached. rewrite Hfs1. apply negb_false_iff, Z.ltb_lt. exact Hlen. }
    rewrite (acquire_uncached _ _ _ _ Hc1 Hf). cbn [remote writable w1 log store].
    rewrite Hr, Hw. cbn [fst snd].
    erewrite new_events_extends by reflexivity. cbn.
    split; [reflexivity|]. split; [reflexivity|]. split.
    + apply insert_insert_eq.
    + unfold is_cached. cbn. rewrite lookup_insert_eq.
      apply negb_false_iff, Z.ltb_lt. exact Hlen.
Qed.


Lemma is_cached_fs (w w' : world) (p : path) :
  fs w' !! p = fs w !! p -> is_cached w' p = is_cached w p.
Proof. unfold is_cached. now intros ->. Qed.

(** X3.  [get_planck_hm_data] handles half-mission 1 before half-mission 2.
    With both files in the cache it makes no request and changes no file.
    When file 1 is not accepted and its request fails, file 2 is never
    requested.  When neither file is accepted and both requests are
    answered, the two requests are made in that order and both bodies are
    written. *)
Theorem half_mission_files_in_order (d : Z) (dir : string) (w : world) (p1 p2 : path) :
  hm_targets d dir = Ok (p1, p2) ->
  (is_cached w p1 = true -> is_cached w p2 = true ->
   (get_planck_hm_data d dir w).1 = Ok (p1, p2) /\
   net_calls (new_events w (get_planck_hm_data d dir w).2) = [] /\
   fs (get_planck_hm_data d dir w).2 = fs w) /\
  (is_cached w p1 = false -> remote w (url_maps (name p1)) = None ->
   (get_planck_hm_data d dir w).1 = Raise RequestException /\
   net_calls (new_events w (get_planck_hm_data d dir w).2) = [url_maps (name p1)] /\
   fs (get_planck_hm_data d dir w).2 = fs w) /\
  (forall b1 b2,
      is_cached w p1 = false -> is_cached w p2 = false ->
      remote w (url_maps (name p1)) = Some b1 ->
      remote w (url_maps (name p2)) = Some b2 ->
      writable w p1 = true -> writable w p2 = true ->
      (get_planck_hm_data d dir w).1 = Ok (p1, p2) /\
      net_calls (new_events w (get_planck_hm_data d dir w).2)
      = [url_maps (name p1); url_maps (name p2)] /\
      fs (get_planck_hm_data d dir w).2 = <[p2 := b2]> (<[p1 := b1]> (fs w))).
Proof.
  intros Ht. pose proof (hm_targets_distinct _ _ _ _ Ht) as Hne.
  rewrite hm_resolver. unfold resolve. rewrite Ht.
  unfold mbind, M_bind, lift, mret, M_ret.
  split; [|split].
  - intros Hc1 Hc2. rewrite (acquire_cached _ _ _ Hc1).
    assert (Hc2' : is_cached (log w [EPrint (File_exists p1)]) p2 = true) by exact Hc2.
    rewrite (acquire_cached _ _ _ Hc2'). cbn [fst snd]. rewrite log_log.
    erewrite new_events_extends by reflexivity. auto.
  - intros Hc1 Hr. rewrite (acquire_uncached _ _ _ _ Hc1 (format_url_maps _)), Hr.
    cbn [fst snd]. erewrite new_events_extends by reflexivity. auto.
  - intros b1 b2 Hc1 Hc2 Hr1 Hr2 Hw1 Hw2.
    rewrite (acquire_uncached _ _ _ _ Hc1 (format_url_maps _)), Hr1, Hw1.
    set (w1 := log (store w p1 b1) _).
    assert (Hc2' : is_cached w1 p2 = false).
    { rewrite <- Hc2. apply is_cached_fs. cbn. apply lookup_insert_ne. exact Hne. }
    rewrite (acquire_uncached _ _ _ _ Hc2' (format_url_maps _)).
    cbn [remote writable w1 log store]. rewrite Hr2, Hw2. cbn [fst snd].
    unfold w1. cbn [fs trace log store]. unfold new_events. cbn [trace log store].
    rewrite <- app_assoc, drop_app_length. cbn.
    split; [reflexivity|]. split; reflexivity.
Qed.

Lemma noise_data_target (d : Z) (dir : string) (i : Z) (w : world) (p : path) :
  (get_planck_noise_data d dir i w).1 = Ok p -> noise_target d dir i = Ok p.
Proof.
  rewrite noise_resolver. unfold resolve.
  destruct (noise_target d dir i) as [q|e]; [|discriminate].
  unfold mbind, M_bind, lift, mret, M_ret.
  destruct (acquire_map_data q url_template_sims w) as [[[]|e] w1]; [|discriminate].
  cbn. now intros [= ->].
Qed.

(** X5.  Two calls of [get_planck_noise_data] that return paths with the
    same file name were made for the same detector and the same realization
    (numbers below 2^53 in absolute value), whatever the directories:
    distinct realizations, or detectors, never share a file name. *)
Theorem noise_files_do_not_collide (d1 d2 r1 r2 : Z) (dir1 dir2 : string)
        (w1 w2 : world) (p1 p2 : path) :
  Z.abs d1 < 2 ^ 53 -> Z.abs d2 < 2 ^ 53 -> Z.abs r1 < 2 ^ 53 -> Z.abs r2 < 2 ^ 53 ->
  (get_planck_noise_data d1 dir1 r1 w1).1 = Ok p1 ->
  (get_planck_noise_data d2 dir2 r2 w2).1 = Ok p2 ->
  name p1 = name p2 ->
  d1 = d2 /\ r1 = r2.
Proof.
  intros Hd1 Hd2 Hr1 Hr2 H1%noise_data_target H2%noise_data_target Hn.
  eapply noise_target_injective; eauto.
Qed.

End MoreFetcher.

(** ** The realization loop, seen from the files and the network *)

Section MoreBuilder.
Context `{Libraries}.

(** The world after the fetch of [sim_body], and what it requested. *)
Lemma noise_fetch_world (d : Z) (dir : string) (i : Z) (w : world) :
  match noise_target d dir i with
  | Raise e => get_planck_noise_data d dir i w = (Raise e, w)
  | Ok p =>
      exists fe,
        net_calls fe = (if is_cached w p then [] else [url_sims (name p)]) /\
        (forall q, In q fe -> is_fetch_event q = true) /\
        ((get_planck_noise_data d dir i w).2 = log w fe \/
         is_cached w p = false /\
         exists body, (get_planck_noise_data d dir i w).2 = log (store w p body) fe)
  end.
Proof.
  rewrite noise_resolver. unfold resolve.
  destruct (noise_target d dir i) as [p|e]; [|reflexivity].
  unfold mbind, M_bind, lift, mret, M_ret.
  assert (Hsnd : forall (x : result unit * world),
             (let (r, w') := x in
              match r with Ok a => (Ok p, w') | Raise e => (Raise e, w') end).2 = x.2).
  { intros [[|] ?]; reflexivity. }
  rewrite Hsnd. clear Hsnd.
  destruct (is_cached w p) eqn:Hc.
  - rewrite acquire_cached by exact Hc. eexists. split; [|split].
    3: left; reflexivity.
    + reflexivity.
    + intros q [<-|[]]. reflexivity.
  - rewrite (acquire_uncached _ _ _ _ Hc (format_url_sims _)).
    destruct (remote w _) as [body|]; [destruct (writable w p)|]; cbn [snd];
      eexists; (split; [|split]).
    all: try (right; split; [reflexivity|]; eexists; reflexivity).
    all: try (left; reflexivity).
    all: try reflexivity.
    all: cbn; intros q Hq; repeat (destruct Hq as [<-|Hq]; [reflexivity|]); destruct Hq.
Qed.

Lemma sim_body_world (d : Z) (sub : bool) (avg : option (list float)) (lmax : Z)
      (s : sims) (i : Z) (w : world) (r : result sims) (w' : world) :
  sim_body d sub avg lmax s i w = (r, w') ->
  exists tail,
    w' = log (get_planck_noise_data d PLANCK_NOISE_DIR i w).2 tail /\
    net_calls tail = [].
Proof.
  unfold sim_body. unfold mbind at 1, M_bind at 1.
  destruct (get_planck_noise_data d PLANCK_NOISE_DIR i w) as [[p|e] w1]; cbn [snd].
  2:{ intros [= <- <-]. exists []. now rewrite log_nil. }
  unfold mbind at 1, M_bind at 1. rewrite get_field_unit_run.
  destruct (header_unit p (fs w1 !! p) 1 0) as [u|e].
  2:{ intros [= <- <-]. eexists. split; reflexivity. }
  destruct (recognized_unit u); cbn [negb].
  2:{ unfold raise. intros [= <- <-]. eexists. split; reflexivity. }
  unfold mbind at 1, M_bind at 1. rewrite hp_read_map_run. cbn [fs log].
  destruct (map_of_file p (fs w1 !! p)) as [m|e].
  2:{ intros [= <- <-]. rewrite log_log. eexists. split; reflexivity. }
  unfold mbind at 1, M_bind at 1.
  assert (Hadj : forall w0, (if sub then match avg with
                         | Some avg0 => lift (isub m avg0)
                         | None => raise (NameError "avg") end
                     else mret m) w0 = (adjust sub avg m, w0)).
  { intros w0. unfold adjust. destruct sub; [destruct avg|]; reflexivity. }
  rewrite Hadj. clear Hadj.
  destruct (adjust sub avg m) as [m'|e].
  2:{ intros [= <- <-]. rewrite log_log. eexists. split; reflexivity. }
  unfold mbind at 1, M_bind at 1. rewrite hp_anafast_run.
  destruct (anafast m' lmax) as [cl|]; cbn; intros [= <- <-];
    rewrite !log_log; eexists; split; reflexivity.
Qed.

Lemma noise_target_parent (d : Z) (dir : string) (i : Z) (p : path) :
  noise_target d dir i = Ok p -> parent p = dir.
Proof.
  unfold noise_target. destruct (format_freq d); [|discriminate].
  destruct (format_real i); [|discriminate]. cbn. now intros [= <-].
Qed.

(** One pass of the loop, seen from the file system. *)
Lemma sim_body_step (d : Z) (sub : bool) (avg : option (list float)) (lmax : Z)
      (s : sims) (i : Z) (w : world) (r : result sims) (w' : world) :
  sim_body d sub avg lmax s i w = (r, w') ->
  exists evs : list event,
    trace w' = trace w ++ evs /\
    match noise_target d PLANCK_NOISE_DIR i with
    | Raise _ => net_calls evs = [] /\ fs w' = fs w /\ exists e, r = Raise e
    | Ok p =>
        net_calls evs = (if is_cached w p then [] else [url_sims (name p)]) /\
        (fs w' = fs w \/
         is_cached w p = false /\ exists body, fs w' = <[p := body]> (fs w))
    end.
Proof.
  intros Hb. pose proof (sim_body_world _ _ _ _ _ _ _ _ _ Hb) as (tail & Hw & Htail).
  pose proof (noise_fetch_world d PLANCK_NOISE_DIR i w) as Hf.
  destruct (noise_target d PLANCK_NOISE_DIR i) as [p|e].
  - destruct Hf as (fe & Hnet & _ & [Hw1 | (Hc & body & Hw1)]);
      rewrite Hw1 in Hw; rewrite log_log in Hw; subst w';
      exists (fe ++ tail); cbn; rewrite net_calls_app, Htail, app_nil_r; eauto 6.
  - unfold sim_body in Hb. unfold mbind at 1, M_bind at 1 in Hb. rewrite Hf in Hb.
    injection Hb as <- <-. exists []. rewrite app_nil_r. eauto.
Qed.

Lemma missing_urls_cons (d i : Z) (w : world) (rest : list Z) :
  missing_urls d w (i :: rest)
  = match noise_target d PLANCK_NOISE_DIR i with
    | Ok p => if is_cached w p then missing_urls d w rest
              else url_sims (name p) :: missing_urls d w rest
    | Raise _ => missing_urls d w rest
    end.
Proof.
  unfold missing_urls. cbn [omap list_omap].
  destruct (noise_target d PLANCK_NOISE_DIR i) as [p|]; [|reflexivity].
  destruct (is_cached w p); reflexivity.
Qed.

(** Files that stay cached are not missing later. *)
Lemma missing_urls_mono (d : Z) (w w1 : world) (idxs : list Z) :
  (forall q, is_cached w q = true -> is_cached w1 q = true) ->
  sublist (missing_urls d w1 idxs) (missing_urls d w idxs).
Proof.
  intros Hc. induction idxs as [|i rest IH]; [constructor|].
  rewrite !missing_urls_cons.
  destruct (noise_target d PLANCK_NOISE_DIR i) as [p|]; [|exact IH].
  destruct (is_cached w p) eqn:Hp.
  - now rewrite (Hc p Hp).
  - destruct (is_cached w1 p); [now apply sublist_cons|now apply sublist_skip].
Qed.

Lemma missing_urls_length (d : Z) (w : world) (idxs : list Z) :
  (length (missing_urls d w idxs) <= length idxs)%nat.
Proof.
  induction idxs as [|i rest IH]; [reflexivity|].
  rewrite missing_urls_cons. cbn [length].
  destruct (noise_target d PLANCK_NOISE_DIR i) as [p|]; [destruct (is_cached w p)|];
    cbn [length]; lia.
Qed.

Lemma cached_fs (d : Z) (idxs : list Z) (w w1 : world) :
  fs w1 = fs w ->
  forallb (fun i => match noise_target d PLANCK_NOISE_DIR i with
                    | Ok p => is_cached w1 p
                    | Raise _ => false
                    end) idxs
  = forallb (fun i => match noise_target d PLANCK_NOISE_DIR i with
                      | Ok p => is_cached w p
                      | Raise _ => false
                      end) idxs.
Proof.
  intros Hfs. induction idxs as [|i rest IH]; [reflexivity|].
  cbn [forallb]. rewrite IH. f_equal.
  destruct (noise_target d PLANCK_NOISE_DIR i); [|reflexivity].
  apply is_cached_fs. now rewrite Hfs.
Qed.

Lemma fetched_loop (d : Z) (sub : bool) (avg : option (list float)) (lmax : Z)
      (idxs : list Z) :
  forall (s : sims) (w : world) (r : result sims) (w' : world),
    for_each idxs (sim_body d sub avg lmax) s w = (r, w') -> fetched d idxs w w'.
Proof.
  induction idxs as [|i rest IH]; intros s w r w'.
  - cbn. intros [= <- <-]. exists []. rewrite app_nil_r.
    repeat split; auto; try constructor. intros q []. reflexivity.
  - cbn [for_each]. unfold mbind at 1, M_bind at 1.
    destruct (sim_body d sub avg lmax s i w) as [r1 w1] eqn:Hb.
    apply sim_body_step in Hb as (evs & Htr & Hstep).
    unfold fetched. rewrite missing_urls_cons. cbn [forallb].
    destruct (noise_target d PLANCK_NOISE_DIR i) as [p|e] eqn:Ht.
    + destruct Hstep as (Hnet & Hfs).
      assert (Hframe : (forall q, parent q <> PLANCK_NOISE_DIR -> fs w1 !! q = fs w !! q) /\
                       (forall q, is_cached w q = true -> fs w1 !! q = fs w !! q) /\
                       (forall q, is_Some (fs w !! q) -> is_Some (fs w1 !! q)) /\
                       (is_cached w p = true -> fs w1 = fs w)).
      { destruct Hfs as [-> | (Hc & body & ->)]; [auto|].
        repeat split.
        - intros q Hq. apply lookup_insert_ne. intros <-.
          apply Hq. eapply noise_target_parent; eauto.
        - intros q Hq. apply lookup_insert_ne. intros <-. congruence.
        - intros q Hq. destruct (decide (p = q)) as [<-|Hne].
          + rewrite lookup_insert_eq. eauto.
          + now rewrite lookup_insert_ne.
        - congruence. }
      destruct Hframe as (F1 & F2 & F3 & F4).
      destruct r1 as [s1|e].
      * intros Hrest. apply IH in Hrest as (evs' & Htr' & Hsub & G1 & G2 & G3 & G4 & G5).
        exists (evs ++ evs'). rewrite Htr', Htr, <- app_assoc.
        split; [reflexivity|]. split; [|split; [|split; [|split; [|split]]]].
        -- assert (Hmono : sublist (net_calls evs') (missing_urls d w rest)).
           { etransitivity; [exact Hsub|]. apply missing_urls_mono.
             intros q Hq. rewrite (is_cached_fs w w1 q); auto. }
           rewrite net_calls_app, Hnet.
           destruct (is_cached w p); cbn [app]; [exact Hmono|now apply sublist_skip].
        -- intros q Hq. now rewrite G1, F1.
        -- intros q Hq. rewrite G2, F2; auto.
           rewrite (is_cached_fs w w1 q); auto.
        -- auto.
        -- intros [Hc Hall]%andb_true_iff.
           rewrite net_calls_app, Hnet, Hc. specialize (F4 Hc).
           destruct G4 as [-> ->].
           { rewrite (cached_fs d rest w w1 F4). exact Hall. }
           rewrite F4. auto.
        -- intros q Hq.
           assert (Hlater : fs w1 !! q = fs w !! q ->
                            exists i0, In i0 (i :: rest) /\
                                       noise_target d PLANCK_NOISE_DIR i0 = Ok q /\
                                       is_cached w q = false).
           { intros Hsame. destruct (G5 q) as (i0 & Hin & Ht0 & Hc0); [congruence|].
             exists i0. split; [now right|]. split; [exact Ht0|].
             rewrite <- Hc0. symmetry. now apply is_cached_fs. }
           destruct Hfs as [Hfs | (Hc & body & Hfs)]; [apply Hlater; now rewrite Hfs|].
           destruct (decide (q = p)) as [->|Hne].
           ++ exists i. split; [now left|]. auto.
           ++ apply Hlater. rewrite Hfs. now apply lookup_insert_ne.
      * intros [= <- <-]. exists evs. split; [exact Htr|].
        split; [|split; [|split; [|split; [|split]]]]; auto.
        -- rewrite Hnet. destruct (is_cached w p); [apply sublist_nil_l|].
           apply sublist_skip, sublist_nil_l.
        -- intros [Hc _]%andb_true_iff. rewrite Hnet, Hc. auto.
        -- intros q Hq. destruct Hfs as [Hfs | (Hc & body & Hfs)];
             [now rewrite Hfs in Hq|].
           destruct (decide (q = p)) as [->|Hne].
           ++ exists i. split; [now left|]. auto.
           ++ rewrite Hfs, lookup_insert_ne in Hq by congruence. now contradiction Hq.
    + destruct Hstep as (Hnet & Hfs & e' & ->). intros [= <- <-].
      exists evs. split; [exact Htr|]. rewrite Hnet, Hfs.
      repeat split; auto; try apply sublist_nil_l. intros q []. reflexivity.
Qed.

Lemma fetched_refl (d : Z) (idxs : list Z) (w : world) : fetched d idxs w w.
Proof.
  exists []. rewrite app_nil_r. repeat split; auto; try apply sublist_nil_l.
  intros q []. reflexivity.
Qed.

Lemma fetched_silent_l (d : Z) (idxs : list Z) (w w0 w' : world) (base : list event) :
  fs w0 = fs w -> trace w0 = trace w ++ base -> net_calls base = [] ->
  fetched d idxs w0 w' -> fetched d idxs w w'.
Proof.
  intros Hfs Htr Hb (evs & Htr' & Hsub & G1 & G2 & G3 & G4 & G5).
  exists (base ++ evs). rewrite Htr', Htr, <- app_assoc, net_calls_app, Hb. cbn [app].
  split; [reflexivity|]. split.
  { etransitivity; [exact Hsub|]. apply missing_urls_mono.
    intros q Hq. rewrite <- Hq. apply is_cached_fs. now rewrite Hfs. }
  rewrite <- Hfs.
  split; [exact G1|]. split; [|split; [|split]].
  - intros q Hq. apply G2. rewrite <- Hq. apply is_cached_fs. now rewrite Hfs.
  - exact G3.
  - intros Hall. apply G4. rewrite <- Hall. now apply cached_fs.
  - intros q Hq. destruct (G5 q Hq) as (i & Hin & Ht & Hc).
    exists i. split; [exact Hin|]. split; [exact Ht|].
    rewrite <- Hc. symmetry. apply is_cached_fs. now rewrite Hfs.
Qed.

Lemma fetched_silent_r (d : Z) (idxs : list Z) (w w1 w' : world) (tail : list event) :
  fs w' = fs w1 -> trace w' = trace w1 ++ tail -> net_calls tail = [] ->
  fetched d idxs w w1 -> fetched d idxs w w'.
Proof.
  intros Hfs Htr Hb (evs & Htr' & Hsub & G1 & G2 & G3 & G4 & G5).
  exists (evs ++ tail). rewrite Htr, Htr', <- app_assoc, net_calls_app, Hb, app_nil_r.
  split; [reflexivity|]. split; [exact Hsub|]. rewrite Hfs. auto 7.
Qed.

(** A whole run, seen from the file system and the network. *)
Lemma get_ps_data_fetched (d : Z) (w : world) (r : result unit) (w' : world) :
  get_ps_data d w = (r, w') -> fetched d (range N_PLANCK_SIMS) w w'.
Proof.
  assert (Hfin : forall avg w0, finish d avg w0 = (r, w') ->
                                fetched d (range N_PLANCK_SIMS) w0 w').
  { intros avg w0. unfold finish. unfold mbind at 1, M_bind at 1.
    destruct (for_each _ _ _ _) as [[s|e] w1] eqn:Hloop; apply fetched_loop in Hloop.
    2:{ now intros [= <- <-]. }
    destruct (pca_fit _) as [fit|]; [|now intros [= <- <-]].
    destruct (src_map_unit s) as [u|]; [|now intros [= <- <-]].
    unfold np_savez. destruct (writable w1 _); intros [= <- <-]; [|exact Hloop].
    eapply fetched_silent_r; [| | |exact Hloop]; reflexivity. }
  change (get_ps_data d) with
    (avg ← (if ps_subtract_average d
            then m ← hp_read_map (avg_noise_map_fn d); mret (Some m)
            else mret None);
     finish d avg).
  unfold mbind at 1, M_bind at 1.
  destruct (ps_subtract_average d).
  - unfold mbind at 1, M_bind at 1. rewrite hp_read_map_run.
    destruct (map_of_file _ _) as [a|e].
    + cbn [mret M_ret]. intros Hf%Hfin.
      eapply fetched_silent_l; [| | |exact Hf]; reflexivity.
    + intros [= <- <-].
      eapply fetched_silent_r; [| | |apply fetched_refl]; reflexivity.
  - cbn [mret M_ret]. apply Hfin.
Qed.


Lemma range_In (n : nat) (i : Z) : In i (range n) -> exists k, (k < n)%nat /\ i = Z.of_nat k.
Proof.
  unfold range. intros (k & <- & Hk)%in_map_iff. apply in_seq in Hk. exists k. split; [lia|reflexivity].
Qed.

(** X9.  Among the files other than the archive it stores, a run of
    [get_ps_data], whatever its outcome, changes only noise maps of
    realizations below N_PLANCK_SIMS that the fetcher did not accept at the
    start.  It leaves every file outside PLANCK_NOISE_DIR as it was (the
    baseline map among them), leaves every accepted file as it was, and
    removes no file. *)
Theorem run_changes_only_uncached_noise_files (d : Z) (w : world) (r : result unit)
        (w' : world) (q : path) :
  get_ps_data d w = (r, w') ->
  q <> Path "." (noise_model_fn d) ->
  (fs w' !! q <> fs w !! q ->
   exists i : nat, (i < N_PLANCK_SIMS)%nat /\
                   noise_target d PLANCK_NOISE_DIR (Z.of_nat i) = Ok q /\
                   is_cached w q = false) /\
  (parent q <> PLANCK_NOISE_DIR -> fs w' !! q = fs w !! q) /\
  (is_cached w q = true -> fs w' !! q = fs w !! q) /\
  (is_Some (fs w !! q) -> is_Some (fs w' !! q)).
Proof.
  intros (evs & _ & _ & G1 & G2 & G3 & _ & G5)%get_ps_data_fetched _.
  split; [|auto].
  intros Hq. destruct (G5 q Hq) as (i & (k & Hk & ->)%range_In & Ht & Hc). eauto.
Qed.

(** X10.  When the files of all N_PLANCK_SIMS realizations of the detector
    are in the cache, a run of [get_ps_data] makes no request and leaves
    every file other than the archive it stores as it was. *)
Theorem cached_run_is_offline (d : Z) (w : world) (r : result unit) (w' : world) :
  all_cached d w = true ->
  get_ps_data d w = (r, w') ->
  net_calls (new_events w w') = [] /\
  forall q, q <> Path "." (noise_model_fn d) -> fs w' !! q = fs w !! q.
Proof.
  intros Hall Hrun.
  pose proof (get_ps_data_fetched _ _ _ _ Hrun) as (evs & Htr & _ & _ & _ & _ & G4 & _).
  rewrite (new_events_extends _ _ _ Htr).
  destruct (G4 Hall) as [-> ->]. auto.
Qed.

(** X11.  The requests of a run of [get_ps_data] are requests for noise maps
    of realizations whose file was not accepted at the start, each at most
    once and in the order of the realizations; there are at most
    N_PLANCK_SIMS of them. *)
Theorem requests_follow_missing_realizations (d : Z) (w : world) (r : result unit)
        (w' : world) :
  get_ps_data d w = (r, w') ->
  sublist (net_calls (new_events w w')) (missing_urls d w (range N_PLANCK_SIMS)) /\
  (length (net_calls (new_events w w')) <= N_PLANCK_SIMS)%nat.
Proof.
  intros (evs & Htr & Hsub & _)%get_ps_data_fetched.
  rewrite (new_events_extends _ _ _ Htr). split; [exact Hsub|].
  apply sublist_length in Hsub. etransitivity; [exact Hsub|].
  etransitivity; [apply missing_urls_length|]. now rewrite range_length.
Qed.

End MoreBuilder.

(** ** Runs of the builder and of the script *)

Section MoreRuns.
Context `{Libraries}.

(** X7.  After a run of [get_ps_data] that returns normally, the estimator
    was called N_PLANCK_SIMS times and answered every call; the archive of
    the detector holds the fit of the base-10 logarithms of these spectra,
    in the order of the calls, and the mean and standard deviation of the
    means of the maps given to the estimator. *)
Theorem archive_is_fit_of_analysed_maps (d : Z) (w w' : world) :
  get_ps_data d w = (Ok tt, w') ->
  exists (cls : list (list float)) (fit : pca float) (u : string),
    length cls = N_PLANCK_SIMS /\
    Forall2 (fun c cl => anafast c.1 c.2 = Some cl)
            (anafast_calls (new_events w w')) cls /\
    pca_fit (map (map float_log10) cls) = Some fit /\
    archives w' !! noise_model_fn d
    = Some (Archive (mean_ fit) (components_ fit) (explained_variance_ fit)
                    (np_mean (map (fun c => np_mean c.1) (anafast_calls (new_events w w'))))
                    (np_std (map (fun c => np_mean c.1) (anafast_calls (new_events w w'))))
                    u).
Proof.
  intros Hrun.
  apply get_ps_data_run in Hrun as (evs & Hrun).
  destruct (run_extends _ _ _ _ _ Hrun) as (Htr & _).
  rewrite (new_events_extends _ _ _ Htr). clear Htr.
  inversion Hrun as [| | |
                     |avg base levs s fit u w1 Hb Hrs Hfit Hu Hwr Ht Hr Ha|];
    subst; clear Hrun.
  destruct (baseline_silent _ _ _ _ Hb) as (_ & Hba & _).
  destruct (realizations_spectra _ _ _ _ _ _ _ _ Hrs s eq_refl) as (cls & Hall & Hlen & Hs & Hm).
  rewrite !anafast_calls_app, Hba. cbn [app anafast_calls]. rewrite app_nil_r.
  cbn [src_cls maps_means app] in Hs, Hm.
  exists cls, fit, u. rewrite range_length in Hlen.
  split; [exact Hlen|]. split; [exact Hall|]. split; [now rewrite <- Hs|].
  rewrite Ha, lookup_insert_eq. unfold model_of. now rewrite Hm.
Qed.


(** X8.  A run of [get_ps_data] that raises, whatever the error, stores
    nothing and leaves the archives as they were.  A run that returns
    stores one archive, as its last action, under the detector's file name,
    replacing any archive of that name and leaving the others. *)
Theorem archives_change_only_on_success (d : Z) (w : world) (r : result unit) (w' : world) :
  get_ps_data d w = (r, w') ->
  (forall e, r = Raise e -> archives w' = archives w /\ saved (new_events w w') = []) /\
  (r = Ok tt ->
   saved (new_events w w') = [noise_model_fn d] /\
   last (new_events w w') = Some (ESavez (noise_model_fn d)) /\
   is_Some (archives w' !! noise_model_fn d) /\
   forall k, k <> noise_model_fn d -> archives w' !! k = archives w !! k).
Proof.
  intros Hrun.
  apply get_ps_data_run in Hrun as (evs & Hrun).
  destruct (run_extends _ _ _ _ _ Hrun) as (Htr & _).
  rewrite (new_events_extends _ _ _ Htr). clear Htr.
  inversion Hrun as [e Hs Hm
                    |avg base levs e w1 Hb Hrs Hx
                    |avg base levs s w1 Hb Hrs Hfit Hx
                    |avg base levs s fit w1 Hb Hrs Hfit Hu Hx
                    |avg base levs s fit u1 w1 Hb Hrs Hfit Hu Hwr Ht Hr Ha
                    |avg base levs s fit u1 w1 Hb Hrs Hfit Hu Hwr Hx]; subst; clear Hrun.
  1: split; [auto|discriminate].
  all: destruct (baseline_silent _ _ _ _ Hb) as (_ & _ & Hbs & _);
    pose proof (realizations_saved _ _ _ _ _ _ _ _ Hrs) as Hls;
    rewrite ?saved_app, Hbs, Hls; cbn [app saved].
  1-3, 5: split; [intros e0 _; destruct Hx as (_ & _ & -> & _); auto|discriminate].
  split; [discriminate|]. intros _. split; [reflexivity|]. split; [|split].
  - rewrite !app_assoc. apply last_snoc.
  - rewrite Ha, lookup_insert_eq. eauto.
  - intros k Hk. rewrite Ha. now apply lookup_insert_ne.
Qed.

Lemma iteration_units_one (d : Z) (sub : bool) (avg : option (list float)) (lmax i : Z)
      (s : sims) (evs : list event) (r : result sims) :
  iteration d sub avg lmax i s evs r ->
  units_read evs = [] \/
  exists p u, noise_target d PLANCK_NOISE_DIR i = Ok p /\ units_read evs = [(p, u)].
Proof.
  intros Hit. inversion Hit; subst; clear Hit;
    rewrite ?units_read_app;
    repeat match goal with
           | Hfe : fetch_events _ |- _ =>
               let Hu := fresh "Hu" in
               pose proof (fetch_events_silent _ Hfe) as (Hu & _ & _); rewrite Hu; clear Hfe
           end; cbn; eauto.
Qed.

Lemma realizations_units_order (d : Z) (sub : bool) (avg : option (list float)) (lmax : Z)
      (idxs : list Z) (s : sims) (evs : list event) (r : result sims) :
  realizations d sub avg lmax idxs s evs r ->
  forall (j : nat) p u,
    units_read evs !! j = Some (p, u) ->
    exists i, idxs !! j = Some i /\ noise_target d PLANCK_NOISE_DIR i = Ok p.
Proof.
  induction 1 as [s|i rest s evs e Hit|i rest s s1 evs evs' r Hit Hrs IH]; intros j p u Hj.
  - discriminate.
  - destruct (iteration_units_one _ _ _ _ _ _ _ _ Hit) as [Hu | (p0 & u0 & Ht & Hu)];
      rewrite Hu in Hj; [discriminate|].
    destruct j as [|j]; [|discriminate]. injection Hj as <- <-. eauto.
  - destruct (iteration_done_unit _ _ _ _ _ _ _ _ Hit) as (p0 & u0 & Ht & Hu0 & _).
    rewrite units_read_app, Hu0 in Hj. destruct j as [|j].
    + injection Hj as <- <-. eauto.
    + apply (IH j p u Hj).
Qed.


(** X12.  In every run of [get_ps_data], complete or not, the j-th unit read
    is read from the file of realization j, and j is below
    N_PLANCK_SIMS. *)
Theorem headers_read_in_realization_order (d : Z) (w : world) (r : result unit) (w' : world)
        (j : nat) (p : path) (u : string) :
  get_ps_data d w = (r, w') ->
  units_read (new_events w w') !! j = Some (p, u) ->
  (j < N_PLANCK_SIMS)%nat /\ noise_target d PLANCK_NOISE_DIR (Z.of_nat j) = Ok p.
Proof.
  intros Hrun.
  apply get_ps_data_run in Hrun as (evs & Hrun).
  destruct (run_extends _ _ _ _ _ Hrun) as (Htr & _).
  rewrite (new_events_extends _ _ _ Htr). clear Htr.
  assert (Hloop : forall avg base levs rl,
             baseline d w avg base ->
             realizations d (ps_subtract_average d) avg
                          (get_lmax_for_nside (ps_nside d))
                          (range N_PLANCK_SIMS) (Sims [] [] None) levs rl ->
             units_read (base ++ levs) !! j = Some (p, u) ->
             (j < N_PLANCK_SIMS)%nat /\ noise_target d PLANCK_NOISE_DIR (Z.of_nat j) = Ok p).
  { intros avg base levs rl Hb Hrs. destruct (baseline_silent _ _ _ _ Hb) as (Hbu & _).
    rewrite units_read_app, Hbu. cbn [app]. intros Hj.
    destruct (realizations_units_order _ _ _ _ _ _ _ _ Hrs j p u Hj) as (i & Hi & Ht).
    pose proof (lookup_lt_Some _ _ _ Hi) as Hlt. rewrite range_length in Hlt.
    rewrite range_lookup in Hi by exact Hlt. injection Hi as <-. auto. }
  inversion Hrun as [e Hs Hm
                    |avg base levs e w1 Hb Hrs Hx
                    |avg base levs s w1 Hb Hrs Hfit Hx
                    |avg base levs s fit w1 Hb Hrs Hfit Hu Hx
                    |avg base levs s fit u1 w1 Hb Hrs Hfit Hu Hwr Ht Hr Ha
                    |avg base levs s fit u1 w1 Hb Hrs Hfit Hu Hwr Hx]; subst; clear Hrun.
  1: discriminate.
  1-3, 5: eapply Hloop; eauto.
  intros Hj. eapply Hloop; eauto.
  rewrite app_assoc, units_read_app in Hj. cbn in Hj. now rewrite app_nil_r in Hj.
Qed.

Lemma unit_errors_app (a b : list event) :
  unit_errors (a ++ b) = unit_errors a ++ unit_errors b.
Proof.
  induction a as [|e a IH]; [reflexivity|].
  destruct e as [| | |p [u|x]| | | |]; cbn; rewrite IH; reflexivity.
Qed.

Lemma fetch_events_no_unit_error (fe : list event) :
  fetch_events fe -> unit_errors fe = [].
Proof.
  unfold fetch_events. induction fe as [|e fe IH]; [auto|].
  cbn. intros [He Hfe]%andb_true_iff. destruct e; try discriminate; cbn; auto.
Qed.

Lemma iteration_unit_error (d : Z) (sub : bool) (avg : option (list float)) (lmax i : Z)
      (s : sims) (evs : list event) (r : result sims) (p : path) (e : exn) :
  iteration d sub avg lmax i s evs r ->
  In (p, e) (unit_errors evs) ->
  r = Raise e /\ last evs = Some (EFieldUnit p (Raise e)).
Proof.
  intros Hit. inversion Hit; subst; clear Hit;
    rewrite ?unit_errors_app;
    repeat match goal with
           | Hfe : fetch_events _ |- _ =>
               rewrite (fetch_events_no_unit_error _ Hfe); clear Hfe
           end; cbn; try tauto.
  intros [[= <- <-]|[]]. split; [reflexivity|]. apply last_snoc.
Qed.

Lemma iteration_ok_no_unit_error (d : Z) (sub : bool) (avg : option (list float))
      (lmax i : Z) (s s' : sims) (evs : list event) :
  iteration d sub avg lmax i s evs (Ok s') -> unit_errors evs = [].
Proof.
  intros Hit. destruct (unit_errors evs) as [|[p e] l] eqn:Hu; [reflexivity|].
  destruct (iteration_unit_error _ _ _ _ _ _ _ _ p e Hit) as [[=] _].
  rewrite Hu. now left.
Qed.

Lemma last_app_cons {A} (a b : list A) (x : A) : last b = Some x -> last (a ++ b) = Some x.
Proof.
  intros Hb. destruct b as [|y b]; [discriminate|]. now rewrite last_app, Hb.
Qed.

Lemma realizations_unit_error (d : Z) (sub : bool) (avg : option (list float)) (lmax : Z)
      (idxs : list Z) (s : sims) (evs : list event) (r : result sims) :
  realizations d sub avg lmax idxs s evs r ->
  forall p e, In (p, e) (unit_errors evs) ->
              r = Raise e /\ last evs = Some (EFieldUnit p (Raise e)).
Proof.
  induction 1 as [s|i rest s evs e0 Hit|i rest s s1 evs evs' r Hit Hrs IH]; intros p e Hin.
  - contradiction.
  - eapply iteration_unit_error; eauto.
  - rewrite unit_errors_app, (iteration_ok_no_unit_error _ _ _ _ _ _ _ _ Hit) in Hin.
    destruct (IH p e Hin) as [-> Hl]. split; [reflexivity|]. now apply last_app_cons.
Qed.

Lemma baseline_no_unit_error (d : Z) (w : world) (avg : option (list float))
      (base : list event) :
  baseline d w avg base -> unit_errors base = [].
Proof.
  unfold baseline. destruct (ps_subtract_average d).
  - now intros (a & _ & _ & ->).
  - now intros (_ & ->).
Qed.


(** X6.  [get_field_unit] changes no file and raises nothing but [OSError]
    and [IndexError]: [OSError] exactly when the file is missing or is not
    a FITS file, [IndexError] exactly when the file has no HDU of the given
    index.  In a run of [get_ps_data] such an error is not caught: the run
    raises it, the failed read is its last action and the archives are
    left as they were. *)
Theorem header_errors_are_not_caught :
  (forall (p : path) (hdu : nat) (idx : Z) (w : world),
      fs (get_field_unit p hdu idx w).2 = fs w /\
      (forall e, (get_field_unit p hdu idx w).1 = Raise e -> e = OSError p \/ e = IndexError) /\
      ((get_field_unit p hdu idx w).1 = Raise (OSError p) <->
       forall c, fs w !! p = Some c -> fits_headers c = None) /\
      ((get_field_unit p hdu idx w).1 = Raise IndexError <->
       exists c hdul, fs w !! p = Some c /\ fits_headers c = Some hdul /\
                      (length hdul <= hdu)%nat)) /\
  (forall (d : Z) (w : world) (r : result unit) (w' : world) (p : path) (e : exn),
      get_ps_data d w = (r, w') ->
      In (p, e) (unit_errors (new_events w w')) ->
      r = Raise e /\
      last (new_events w w') = Some (EFieldUnit p (Raise e)) /\
      archives w' = archives w).
Proof.
  split.
  - intros p hdu idx w. rewrite get_field_unit_run. cbn [fst snd fs log].
    unfold header_unit. split; [reflexivity|].
    destruct (fs w !! p) as [c|].
    2:{ split; [intros e [= <-]; auto|]. split; [split; [discriminate|reflexivity]|].
        split; [discriminate|]. intros (c & hdul & [=] & _). }
    destruct (fits_headers c) as [hdul|] eqn:Hh.
    2:{ split; [intros e [= <-]; auto|]. split.
        - split; [|reflexivity]. intros _ c' [= <-]. exact Hh.
        - split; [discriminate|]. intros (c' & hdul & [= <-] & Hh' & _). congruence. }
    destruct (hdul !! hdu) as [h|] eqn:Hl.
    2:{ split; [intros e [= <-]; auto|]. split.
        - split; [discriminate|]. intros Hc. specialize (Hc c eq_refl). congruence.
        - split; [|reflexivity]. intros _. exists c, hdul.
          split; [reflexivity|]. split; [exact Hh|]. now apply lookup_ge_None. }
    assert (Hok : exists u, match h !! ("TUNIT" +:+ Py.str_of_int (idx + 1)) with
                            | Some unit => Ok unit
                            | None => Ok EmptyString
                            end = Ok u :> result string).
    { destruct (h !! _); eauto. }
    destruct Hok as (u & ->).
    split; [discriminate|]. split.
    + split; [discriminate|]. intros Hc. specialize (Hc c eq_refl). congruence.
    + split; [discriminate|]. intros (c' & hdul' & [= <-] & Hh' & Hlen).
      rewrite Hh in Hh'. injection Hh' as <-.
      apply lookup_ge_None in Hlen. congruence.
  - intros d w r w' p e Hrun.
    apply get_ps_data_run in Hrun as (evs & Hrun).
    destruct (run_extends _ _ _ _ _ Hrun) as (Htr & _).
    rewrite (new_events_extends _ _ _ Htr). clear Htr.
    inversion Hrun as [e0 Hs Hm
                      |avg base levs e0 w1 Hb Hrs Hx
                      |avg base levs s w1 Hb Hrs Hfit Hx
                      |avg base levs s fit w1 Hb Hrs Hfit Hu Hx
                      |avg base levs s fit u1 w1 Hb Hrs Hfit Hu Hwr Ht Hr Ha
                      |avg base levs s fit u1 w1 Hb Hrs Hfit Hu Hwr Hx]; subst; clear Hrun.
    1: intros [].
    all: rewrite ?unit_errors_app, (baseline_no_unit_error _ _ _ _ Hb); cbn [app unit_errors];
      rewrite ?app_nil_r; intros Hin;
      destruct (realizations_unit_error _ _ _ _ _ _ _ _ Hrs p e Hin) as [Hr1 Hl];
      try discriminate.
    injection Hr1 as ->. split; [reflexivity|]. split; [now apply last_app_cons|].
    now destruct Hx as (_ & _ & -> & _).
Qed.

Lemma logs_app (a b : list event) : logs (a ++ b) = logs a ++ logs b.
Proof.
  induction a as [|e a IH]; [reflexivity|].
  destruct e; cbn; rewrite IH; reflexivity.
Qed.

Lemma fetch_events_no_log (fe : list event) : fetch_events fe -> logs fe = [].
Proof.
  unfold fetch_events. induction fe as [|e fe IH]; [auto|].
  cbn. intros [He Hfe]%andb_true_iff. destruct e; try discriminate; cbn; auto.
Qed.

Lemma iteration_no_log (d : Z) (sub : bool) (avg : option (list float)) (lmax i : Z)
      (s : sims) (evs : list event) (r : result sims) :
  iteration d sub avg lmax i s evs r -> logs evs = [].
Proof.
  intros Hit. inversion Hit; subst; clear Hit;
    rewrite ?logs_app;
    repeat match goal with
           | Hfe : fetch_events _ |- _ => rewrite (fetch_events_no_log _ Hfe); clear Hfe
           end; reflexivity.
Qed.

Lemma realizations_no_log (d : Z) (sub : bool) (avg : option (list float)) (lmax : Z)
      (idxs : list Z) (s : sims) (evs : list event) (r : result sims) :
  realizations d sub avg lmax idxs s evs r -> logs evs = [].
Proof.
  induction 1; [reflexivity|eapply iteration_no_log; eauto|].
  rewrite logs_app, IHrealizations. erewrite iteration_no_log; eauto.
Qed.

Lemma run_no_log (d : Z) (w : world) (evs : list event) (r : result unit) (w' : world) :
  run d w evs r w' -> logs evs = [].
Proof.
  intros Hrun.
  inversion Hrun as [e Hs Hm
                    |avg base levs e w1 Hb Hrs Hx
                    |avg base levs s w1 Hb Hrs Hfit Hx
                    |avg base levs s fit w1 Hb Hrs Hfit Hu Hx
                    |avg base levs s fit u1 w1 Hb Hrs Hfit Hu Hwr Ht Hr Ha
                    |avg base levs s fit u1 w1 Hb Hrs Hfit Hu Hwr Hx]; subst; clear Hrun.
  1: reflexivity.
  all: rewrite ?logs_app, (realizations_no_log _ _ _ _ _ _ _ _ Hrs);
    unfold baseline in Hb; destruct (ps_subtract_average d);
    [destruct Hb as (a & _ & _ & ->)|destruct Hb as (_ & ->)]; reflexivity.
Qed.

(** The script body in terms of the run of its one detector. *)
Lemma main_run (w : world) :
  main w = match get_ps_data 545 w with
           | (Ok _, w1) => (Ok tt, log w1 [ELog "Done with 545 GHz"; ELog "All done"])
           | (Raise e, w1) => (Raise e, w1)
           end.
Proof.
  unfold main, DETECTORS. cbn [for_each].
  unfold mbind, M_bind, mret, M_ret, emit.
  destruct (get_ps_data 545 w) as [[[]|e] w1]; [|reflexivity].
  rewrite log_log. reflexivity.
Qed.


(** X13.  The script raises what the run of detector 545 raises, without a
    log line and with the archives as they were; when the run returns, the
    script returns, the archive of detector 545 is stored and the log
    holds the detector's line followed by the closing line. *)
Theorem main_stops_at_the_failing_detector (w : world) :
  (main w).1 = (get_ps_data 545 w).1 /\
  (forall e, (main w).1 = Raise e ->
             (main w).2 = (get_ps_data 545 w).2 /\
             logs (new_events w (main w).2) = [] /\
             archives (main w).2 = archives w) /\
  ((main w).1 = Ok tt ->
   logs (new_events w (main w).2) = ["Done with 545 GHz"; "All done"] /\
   saved (new_events w (main w).2) = [noise_model_fn 545] /\
   is_Some (archives (main w).2 !! noise_model_fn 545)).
Proof.
  rewrite main_run.
  destruct (get_ps_data 545 w) as [r w1] eqn:Hrun.
  apply get_ps_data_run in Hrun as (evs & Hrun).
  pose proof (run_no_log _ _ _ _ _ Hrun) as Hlog.
  destruct (run_extends _ _ _ _ _ Hrun) as (Htr & _).
  destruct r as [[]|e]; cbn [fst snd].
  - split; [reflexivity|]. split; [discriminate|]. intros _.
    erewrite new_events_extends by (cbn; rewrite Htr, <- app_assoc; reflexivity).
    rewrite logs_app, saved_app, Hlog. cbn [app logs saved]. rewrite app_nil_r.
    split; [reflexivity|].
    inversion Hrun as [| | |
                       |avg base levs s fit u w2 Hb Hrs Hfit Hu Hwr Ht Hr Ha|];
      subst; clear Hrun.
    destruct (baseline_silent _ _ _ _ Hb) as (_ & _ & Hbs & _).
    rewrite !saved_app, Hbs, (realizations_saved _ _ _ _ _ _ _ _ Hrs).
    split; [reflexivity|].
    cbn. rewrite Ha, lookup_insert_eq. eauto.
  - split; [reflexivity|]. split; [|discriminate]. intros e0 [= <-].
    rewrite (new_events_extends _ _ _ Htr). split; [reflexivity|]. split; [exact Hlog|].
    inversion Hrun; subst;
      repeat match goal with
             | Hx : extends _ _ _ |- _ => destruct Hx as (_ & _ & -> & _)
             end; reflexivity.
Qed.

End MoreRuns.

(** * Runs of the model on concrete worlds *)

Lemma run_pair `{Libraries} {A : Type} (c : M A) (w : world) (r : result A) :
  (c w).1 = r -> c w = (r, (c w).2).
Proof. destruct (c w) as [r' w']. cbn. now intros ->. Qed.

Section Examples.
#[local] Existing Instance Toy.libs.

(** Witness of C1: a cached file of 1024 bytes is left alone without any
    request; a missing file is requested once and written in full. *)
Lemma download_only_when_missing_or_undersized_witness :
  ((acquire_map_data Toy.noise_545_7 url_template_sims Toy.w_cached).1 = Ok tt /\
   net_calls (new_events Toy.w_cached
                (acquire_map_data Toy.noise_545_7 url_template_sims Toy.w_cached).2) = [] /\
   fs (acquire_map_data Toy.noise_545_7 url_template_sims Toy.w_cached).2 = fs Toy.w_cached) /\
  (net_calls (new_events Toy.w_online
                (acquire_map_data Toy.noise_545_7 url_template_sims Toy.w_online).2)
   = [url_sims (name Toy.noise_545_7)] /\
   (acquire_map_data Toy.noise_545_7 url_template_sims Toy.w_online).1 = Ok tt /\
   fs (acquire_map_data Toy.noise_545_7 url_template_sims Toy.w_online).2
   = <[Toy.noise_545_7 := Toy.small]> (fs Toy.w_online)) /\
  Path Toy.cache "HFI_SkyMap_100_2048_R3.01_halfmission-1.fits"
  <> Path Toy.cache "HFI_SkyMap_100_2048_R3.01_halfmission-2.fits".
Proof.
  destruct download_only_when_missing_or_undersized as (Hpol & _ & _ & _ & Hhm & _).
  split; [|split; [|apply (Hhm 100 Toy.cache); vm_compute; reflexivity]].
  - destruct (Hpol Toy.noise_545_7 url_template_sims (url_sims (name Toy.noise_545_7))
                   Toy.w_cached
                   (acquire_map_data Toy.noise_545_7 url_template_sims Toy.w_cached).1
                   (acquire_map_data Toy.noise_545_7 url_template_sims Toy.w_cached).2)
      as (Hcached & _).
    { vm_compute. reflexivity. }
    { apply run_pair. reflexivity. }
    apply (Hcached Toy.big).
    { vm_compute. reflexivity. }
    { vm_compute. discriminate. }
  - destruct (Hpol Toy.noise_545_7 url_template_sims (url_sims (name Toy.noise_545_7))
                   Toy.w_online
                   (acquire_map_data Toy.noise_545_7 url_template_sims Toy.w_online).1
                   (acquire_map_data Toy.noise_545_7 url_template_sims Toy.w_online).2)
      as (_ & Hmissing).
    { vm_compute. reflexivity. }
    { apply run_pair. reflexivity. }
    destruct Hmissing as (Hn & Hbody & _).
    { left. vm_compute. reflexivity. }
    split; [exact Hn|]. apply (Hbody Toy.small); vm_compute; reflexivity.
Defined.




(** Counterexample to C4 as stated: for detector 30 the half-mission names
    carry 2048 where the observation name carries 1024, and for detector 353
    they carry no -psb suffix where the observation name does. *)
Lemma half_mission_names_ignore_resolution_and_psb :
  (get_planck_hm_data 30 Toy.cache Toy.w_online).1
  = Ok (Path Toy.cache "LFI_SkyMap_030_2048_R3.01_halfmission-1.fits",
        Path Toy.cache "LFI_SkyMap_030_2048_R3.01_halfmission-2.fits") /\
  (get_planck_obs_data 30 Toy.cache Toy.w_online).1
  = Ok (Path Toy.cache "LFI_SkyMap_030-BPassCorrected_1024_R3.00_full.fits") /\
  mentions "1024" "LFI_SkyMap_030_2048_R3.01_halfmission-1.fits" = false /\
  (get_planck_hm_data 353 Toy.cache Toy.w_online).1
  = Ok (Path Toy.cache "HFI_SkyMap_353_2048_R3.01_halfmission-1.fits",
        Path Toy.cache "HFI_SkyMap_353_2048_R3.01_halfmission-2.fits") /\
  (get_planck_obs_data 353 Toy.cache Toy.w_online).1
  = Ok (Path Toy.cache "HFI_SkyMap_353-psb_2048_R3.01_full.fits") /\
  mentions "-psb" "HFI_SkyMap_353_2048_R3.01_halfmission-1.fits" = false.
Proof. repeat split; vm_compute; reflexivity. Qed.

(** Witness of C4 (amended), at detectors 30, 353 and 100. *)
Lemma half_mission_names_fix_resolution_witness :
  obs_fn 30 "030" = "LFI_SkyMap_" +:+ "030" +:+ "-BPassCorrected_1024_R3.00_full.fits" /\
  obs_fn 353 "353" = "HFI_SkyMap_" +:+ "353" +:+ "-psb_2048_R3.01_full.fits" /\
  obs_fn 100 "100" = "HFI_SkyMap_" +:+ "100" +:+ "_2048_R3.01_full.fits" /\
  (exists n1 n2,
      hm_targets 30 Toy.cache = Ok (Path Toy.cache n1, Path Toy.cache n2) /\
      String.prefix ("LFI_SkyMap_" +:+ "030") n1 = true /\
      String.prefix ("LFI_SkyMap_" +:+ "030") n2 = true) /\
  (exists n1 n2,
      hm_targets 353 Toy.cache = Ok (Path Toy.cache n1, Path Toy.cache n2) /\
      n1 = "HFI_SkyMap_" +:+ "353" +:+ "_2048_R3.01_halfmission-1.fits" /\
      n2 = "HFI_SkyMap_" +:+ "353" +:+ "_2048_R3.01_halfmission-2.fits").
Proof.
  assert (H30 : format_freq 30 = Ok "030") by (vm_compute; reflexivity).
  assert (H353 : format_freq 353 = Ok "353") by (vm_compute; reflexivity).
  assert (H100 : format_freq 100 = Ok "100") by (vm_compute; reflexivity).
  destruct (half_mission_names_fix_resolution 30 Toy.cache "030" H30)
    as ((_ & Hlfi & _ & _) & (a1 & a2 & Ha & Halfi & _) & _).
  destruct (half_mission_names_fix_resolution 353 Toy.cache "353" H353)
    as ((_ & _ & Hpsb & _) & (b1 & b2 & Hb & _ & Hbhfi) & _).
  destruct (half_mission_names_fix_resolution 100 Toy.cache "100" H100)
    as ((_ & _ & _ & Hhfi) & _).
  split; [|split; [|split; [|split]]].
  - apply Hlfi. left. reflexivity.
  - apply Hpsb. reflexivity.
  - apply Hhfi.
    + intros [Hx|[Hx|[Hx|[]]]]; discriminate Hx.
    + discriminate.
  - exists a1, a2. split; [exact Ha|]. apply Halfi. left. reflexivity.
  - exists b1, b2. split; [exact Hb|]. apply Hbhfi.
    intros [Hx|[Hx|[Hx|[]]]]; discriminate Hx.
Defined.

(** Witness of C5: realization 0 of detector 30 is cached and is analysed
    up to multipole 3071; a run for detector 100 on a full cache makes
    N_PLANCK_SIMS calls. *)
Lemma resolution_and_lmax_per_detector_witness :
  [(repeat 1 1023, 3071)]
    `prefix_of` anafast_calls (new_events Toy.w_30_ready (get_ps_data 30 Toy.w_30_ready).2) /\
  length (anafast_calls (new_events Toy.w_all_cached (get_ps_data 100 Toy.w_all_cached).2))
  = N_PLANCK_SIMS /\
  get_lmax_for_nside 2048 = 6143.
Proof.
  split; [|split].
  - destruct (resolution_and_lmax_per_detector
                30 1024 3071 Toy.w_30_ready (get_ps_data 30 Toy.w_30_ready).1
                (get_ps_data 30 Toy.w_30_ready).2) as (_ & _ & _ & _ & Hpre).
    + apply run_pair. reflexivity.
    + left. split; [left; reflexivity|split; reflexivity].
    + assert (He : expected_calls (fun m => Ok m) 3071 30 Toy.w_30_ready (range N_PLANCK_SIMS)
                   = [(repeat 1 1023, 3071)]) by (vm_compute; reflexivity).
      rewrite <- He. apply Hpre. reflexivity.
  - destruct (resolution_and_lmax_per_detector
                100 2048 6143 Toy.w_all_cached (get_ps_data 100 Toy.w_all_cached).1
                (get_ps_data 100 Toy.w_all_cached).2) as (_ & _ & _ & Hlen & _).
    + apply run_pair. reflexivity.
    + right. split; [|split; reflexivity].
      intros [Hx|[Hx|[Hx|[]]]]; discriminate Hx.
    + apply Hlen. vm_compute. reflexivity.
  - destruct (resolution_and_lmax_per_detector
                100 2048 6143 Toy.w_all_cached (get_ps_data 100 Toy.w_all_cached).1
                (get_ps_data 100 Toy.w_all_cached).2) as (Hl & _).
    + apply run_pair. reflexivity.
    + right. split; [|split; reflexivity].
      intros [Hx|[Hx|[Hx|[]]]]; discriminate Hx.
    + exact Hl.
Defined.

(** Witness of C6: detector 545 with its baseline (all pixels 1) and a
    cached realization 0 (all pixels 5), analysed as pixels 4; detector 545
    without its baseline; detector 30, analysed as read. *)
Lemma baseline_loaded_first_and_subtracted_witness :
  [(repeat 4 1023, 6143)]
    `prefix_of` anafast_calls (new_events Toy.w_545_ready (get_ps_data 545 Toy.w_545_ready).2) /\
  ((get_ps_data 545 Toy.w_online).1 = Raise (OSError (avg_noise_map_fn 545)) /\
   net_calls (new_events Toy.w_online (get_ps_data 545 Toy.w_online).2) = [] /\
   fs (get_ps_data 545 Toy.w_online).2 = fs Toy.w_online) /\
  [(repeat 1 1023, 3071)]
    `prefix_of` anafast_calls (new_events Toy.w_30_ready (get_ps_data 30 Toy.w_30_ready).2) /\
  isub [5; 5; 5] [1; 1; 1] = Ok (zip_with float_sub [5; 5; 5] [1; 1; 1]).
Proof.
  split; [|split; [|split]].
  - destruct (baseline_loaded_first_and_subtracted
                545 Toy.w_545_ready (get_ps_data 545 Toy.w_545_ready).1
                (get_ps_data 545 Toy.w_545_ready).2) as (Hsub & _).
    { apply run_pair. reflexivity. }
    destruct Hsub as (_ & _ & Han).
    { right. left. reflexivity. }
    destruct (Han (repeat 1 1023)) as (_ & Hpre).
    { vm_compute. reflexivity. }
    assert (He : expected_calls (fun m => isub m (repeat 1 1023)) 6143 545
                                Toy.w_545_ready (range N_PLANCK_SIMS)
                 = [(repeat 4 1023, 6143)]) by (vm_compute; reflexivity).
    rewrite <- He. exact Hpre.
  - destruct (baseline_loaded_first_and_subtracted
                545 Toy.w_online (get_ps_data 545 Toy.w_online).1
                (get_ps_data 545 Toy.w_online).2) as (Hsub & _).
    { apply run_pair. reflexivity. }
    destruct Hsub as (_ & Hmiss & _).
    { right. left. reflexivity. }
    destruct (Hmiss (OSError (avg_noise_map_fn 545))) as (Hr & _ & Hn & Hfs & _).
    { vm_compute. reflexivity. }
    auto.
  - destruct (baseline_loaded_first_and_subtracted
                30 Toy.w_30_ready (get_ps_data 30 Toy.w_30_ready).1
                (get_ps_data 30 Toy.w_30_ready).2) as (_ & Hraw & _).
    { apply run_pair. reflexivity. }
    destruct Hraw as (_ & Hpre); try discriminate.
    assert (He : expected_calls (fun m => Ok m) (if in_list 30 [30; 44; 70] then 3071 else 6143)
                                30 Toy.w_30_ready (range N_PLANCK_SIMS)
                 = [(repeat 1 1023, 3071)]) by (vm_compute; reflexivity).
    rewrite <- He. exact Hpre.
  - destruct (baseline_loaded_first_and_subtracted
                100 Toy.w_online (get_ps_data 100 Toy.w_online).1
                (get_ps_data 100 Toy.w_online).2) as (_ & _ & _ & Hpix).
    { apply run_pair. reflexivity. }
    apply Hpix. reflexivity.
Defined.

(** Counterexample to C7 as stated: the service answers with an empty body,
    which no reader can use; the resolver stores it and returns the path. *)
Lemma unusable_payload_returns_normally :
  (get_planck_noise_data 545 Toy.cache 7 Toy.w_empty_payload).1 = Ok Toy.noise_545_7 /\
  fs (get_planck_noise_data 545 Toy.cache 7 Toy.w_empty_payload).2 !! Toy.noise_545_7
  = Some [] /\
  fits_headers [] = None /\
  read_map_field0 [] = None.
Proof. repeat split; vm_compute; reflexivity. Qed.

(** Witness of C7 (amended): the service is down, then answers with an
    empty body. *)
Lemma request_errors_surface_payloads_are_stored_witness :
  (net_calls (new_events Toy.w_offline
                (acquire_map_data Toy.noise_545_7 url_template_sims Toy.w_offline).2)
   = [url_sims (name Toy.noise_545_7)] /\
   fs (acquire_map_data Toy.noise_545_7 url_template_sims Toy.w_offline).2
   = fs Toy.w_offline) /\
  ((acquire_map_data Toy.noise_545_7 url_template_sims Toy.w_empty_payload).1 = Ok tt /\
   is_cached (acquire_map_data Toy.noise_545_7 url_template_sims Toy.w_empty_payload).2
             Toy.noise_545_7 = false /\
   (get_field_unit Toy.noise_545_7 1 0
      (acquire_map_data Toy.noise_545_7 url_template_sims Toy.w_empty_payload).2).1
   = Raise (OSError Toy.noise_545_7)).
Proof.
  destruct request_errors_surface_payloads_are_stored as (_ & Hdown & Hbody).
  split.
  - apply (Hdown Toy.noise_545_7 url_template_sims (url_sims (name Toy.noise_545_7))
                 Toy.w_offline); vm_compute; reflexivity.
  - destruct (Hbody Toy.noise_545_7 url_template_sims (url_sims (name Toy.noise_545_7))
                    Toy.w_empty_payload []) as (Hr & _ & _ & Hshort & Hbad);
      try (vm_compute; reflexivity).
    split; [exact Hr|]. split.
    + apply Hshort. vm_compute. reflexivity.
    + apply Hbad. vm_compute. reflexivity.
Defined.

(** Witness of C8, at frequency 30 and realization 7. *)
Lemma file_name_fields_are_zero_padded_witness :
  (exists s, format_freq 30 = Ok s /\ String.length s = 3%nat /\
             s = Py.zeros (3 - String.length (Py.str_of_int 30)) +:+ Py.str_of_int 30) /\
  (exists s, format_real 7 = Ok s /\ String.length s = 5%nat /\
             s = Py.zeros (5 - String.length (Py.str_of_int 7)) +:+ Py.str_of_int 7).
Proof.
  destruct file_name_fields_are_zero_padded as (_ & _ & _ & _ & Hfreq & Hreal & _).
  split; [apply Hfreq; lia|apply Hreal; lia].
Defined.

(** Witness of C9: a cached map whose header has no unit keyword, and a run
    whose first map has none. *)
Lemma missing_unit_keyword_is_unknown_unit_witness :
  get_field_unit Toy.noise_545_7 1 0 Toy.w_nounit_cached
  = (Ok EmptyString, log Toy.w_nounit_cached [EFieldUnit Toy.noise_545_7 (Ok EmptyString)]) /\
  (get_ps_data 100 Toy.w_nounit).1
  = Raise (ValueError_unknown_unit EmptyString Toy.noise_100_0) /\
  archives (get_ps_data 100 Toy.w_nounit).2 = archives Toy.w_nounit.
Proof.
  destruct missing_unit_keyword_is_unknown_unit as (Hget & _ & Hrun).
  split.
  - apply (Hget Toy.noise_545_7 1%nat 0 Toy.w_nounit_cached
                (Toy.map_file Toy.tag_n Byte.x05 3) [∅; ∅] ∅);
      vm_compute; reflexivity.
  - destruct (Hrun 100 Toy.w_nounit (get_ps_data 100 Toy.w_nounit).1
                   (get_ps_data 100 Toy.w_nounit).2 Toy.noise_100_0)
      as (Hr & _ & _ & Ha).
    + apply run_pair. reflexivity.
    + vm_compute. left. reflexivity.
    + auto.
Defined.

(** Witness of C10: the first 99 maps are in K_CMB, the last in MJy/sr; the
    run succeeds and the archive says MJy/sr. *)
Lemma archive_unit_is_last_realization_unit_witness :
  exists a : archive,
    archives (get_ps_data 100 Toy.w_mixed).2
    = <[noise_model_fn 100 := a]> (archives Toy.w_mixed) /\
    maps_unit a = "MJy/sr" /\
    units_read (new_events Toy.w_mixed (get_ps_data 100 Toy.w_mixed).2) !! 0%nat
    = Some (Toy.noise_100_0, "K_CMB").
Proof.
  destruct (archive_unit_is_last_realization_unit
              100 Toy.w_mixed (get_ps_data 100 Toy.w_mixed).2)
    as (units & a & p & u & Hunits & _ & _ & Hlast & Harch & Hu).
  - apply run_pair. vm_compute. reflexivity.
  - exists a. split; [exact Harch|]. split.
    + rewrite Hu. rewrite <- Hunits in Hlast. vm_compute in Hlast.
      injection Hlast as _ <-. reflexivity.
    + vm_compute. reflexivity.
Defined.

End Examples.

(** ** Runs for the further properties *)

Section MoreExamples.
#[local] Existing Instance Toy.libs.

(** Witness of X1: a download of one noise map leaves another path and the
    archives alone. *)
Lemma acquire_touches_only_its_target_witness :
  fs (acquire_map_data Toy.noise_545_7 url_template_sims Toy.w_online).2 !! Toy.noise_999_0
  = fs Toy.w_online !! Toy.noise_999_0 /\
  archives (acquire_map_data Toy.noise_545_7 url_template_sims Toy.w_online).2
  = archives Toy.w_online.
Proof.
  destruct (acquire_touches_only_its_target Toy.noise_545_7 url_template_sims Toy.w_online)
    as (Hother & _ & Harch & _).
  split; [apply Hother; discriminate|exact Harch].
Defined.

(** Witness of X2: the service answers with a map of four bytes; the second
    call asks for it again. *)
Lemma acquire_again_witness :
  net_calls
    (new_events
       (acquire_map_data Toy.noise_545_7 url_template_sims Toy.w_online).2
       (acquire_map_data Toy.noise_545_7 url_template_sims
          (acquire_map_data Toy.noise_545_7 url_template_sims Toy.w_online).2).2)
  = [url_sims (name Toy.noise_545_7)].
Proof.
  destruct (acquire_again Toy.noise_545_7 url_template_sims
                          (url_sims (name Toy.noise_545_7)) Toy.w_online Toy.small)
    as (_ & Hshort); [vm_compute; reflexivity..|].
  destruct Hshort as (_ & Hnet & _); [vm_compute; reflexivity|exact Hnet].
Defined.

(** Witness of X3: nothing is cached and the service answers; the two
    half-mission maps of detector 100 are requested in order. *)
Lemma half_mission_files_in_order_witness :
  (get_planck_hm_data 100 Toy.cache Toy.w_online).1 = Ok (Toy.hm_100_1, Toy.hm_100_2) /\
  net_calls (new_events Toy.w_online (get_planck_hm_data 100 Toy.cache Toy.w_online).2)
  = [url_maps (name Toy.hm_100_1); url_maps (name Toy.hm_100_2)].
Proof.
  destruct (half_mission_files_in_order 100 Toy.cache Toy.w_online Toy.hm_100_1 Toy.hm_100_2)
    as (_ & _ & Hboth); [vm_compute; reflexivity|].
  destruct (Hboth Toy.small Toy.small) as (Hr & Hn & _); [vm_compute; reflexivity..|].
  split; assumption.
Defined.

(** Witness of X4: the field of detector 545 reads back as 545. *)
Lemma formatted_fields_read_back_witness :
  exists s, format_freq 545 = Ok s /\ int_of_str s = Some 545.
Proof.
  destruct formatted_fields_read_back as (Hfreq & _).
  destruct (Hfreq 545) as (s & Hs & Hback & _); [vm_compute; reflexivity|].
  exists s. split; assumption.
Defined.

(** Witness of X5: the same file name, returned from a cache hit in one
    directory and from a download into the same directory written with a
    trailing slash. *)
Lemma noise_files_do_not_collide_witness :
  545 = 545 /\ 7 = 7.
Proof.
  apply (noise_files_do_not_collide
           545 545 7 7 Toy.cache (Toy.cache +:+ "/") Toy.w_cached Toy.w_online
           Toy.noise_545_7 (Path (Toy.cache +:+ "/") (name Toy.noise_545_7)));
    vm_compute; reflexivity.
Defined.

(** Witness of X6: the toy files have two HDUs, so HDU 2 is out of range;
    and an empty payload is not a FITS file, which ends the run at the
    first realization. *)
Lemma header_errors_are_not_caught_witness :
  (get_field_unit Toy.noise_545_7 2 0 Toy.w_nounit_cached).1 = Raise IndexError /\
  (get_ps_data 100 Toy.w_empty_payload).1 = Raise (OSError Toy.noise_100_0) /\
  archives (get_ps_data 100 Toy.w_empty_payload).2 = archives Toy.w_empty_payload.
Proof.
  destruct header_errors_are_not_caught as (Hget & Hrun).
  split.
  - destruct (Hget Toy.noise_545_7 2%nat 0 Toy.w_nounit_cached) as (_ & _ & _ & Hidx).
    apply Hidx. exists (Toy.map_file Toy.tag_n Byte.x05 3), [∅; ∅].
    vm_compute. repeat split. lia.
  - destruct (Hrun 100 Toy.w_empty_payload (get_ps_data 100 Toy.w_empty_payload).1
                   (get_ps_data 100 Toy.w_empty_payload).2
                   Toy.noise_100_0 (OSError Toy.noise_100_0))
      as (Hr & _ & Ha).
    + apply run_pair. reflexivity.
    + vm_compute. left. reflexivity.
    + auto.
Defined.

(** Witness of X7: a complete run for detector 100. *)
Lemma archive_is_fit_of_analysed_maps_witness :
  exists (cls : list (list float)) (fit : pca float) (u : string),
    length cls = N_PLANCK_SIMS /\
    Forall2 (fun c cl => anafast c.1 c.2 = Some cl)
            (anafast_calls (new_events Toy.w_mixed (get_ps_data 100 Toy.w_mixed).2)) cls /\
    pca_fit (map (map float_log10) cls) = Some fit /\
    is_Some (archives (get_ps_data 100 Toy.w_mixed).2 !! noise_model_fn 100).
Proof.
  destruct (archive_is_fit_of_analysed_maps 100 Toy.w_mixed (get_ps_data 100 Toy.w_mixed).2)
    as (cls & fit & u & Hlen & Hall & Hfit & Harch).
  - apply run_pair. vm_compute. reflexivity.
  - exists cls, fit, u. rewrite Harch. eauto.
Defined.

(** Witness of X8: a run that stops on an unknown unit leaves the archives. *)
Lemma archives_change_only_on_success_witness :
  archives (get_ps_data 100 Toy.w_unknown).2 = archives Toy.w_unknown.
Proof.
  destruct (archives_change_only_on_success
              100 Toy.w_unknown (get_ps_data 100 Toy.w_unknown).1
              (get_ps_data 100 Toy.w_unknown).2) as (Hfail & _).
  - apply run_pair. reflexivity.
  - destruct (Hfail (ValueError_unknown_unit "uK" Toy.noise_100_0)) as (Ha & _);
      [vm_compute; reflexivity|exact Ha].
Defined.

(** Witness of X9: after the run for detector 100 the file of realization
    0, missing at the start, is there. *)
Lemma run_changes_only_uncached_noise_files_witness :
  exists i : nat, (i < N_PLANCK_SIMS)%nat /\
                  noise_target 100 PLANCK_NOISE_DIR (Z.of_nat i) = Ok Toy.noise_100_0 /\
                  is_cached Toy.w_online Toy.noise_100_0 = false.
Proof.
  destruct (run_changes_only_uncached_noise_files
              100 Toy.w_online (get_ps_data 100 Toy.w_online).1
              (get_ps_data 100 Toy.w_online).2 Toy.noise_100_0) as (Hchanged & _).
  - apply run_pair. reflexivity.
  - vm_compute. discriminate.
  - apply Hchanged. vm_compute. discriminate.
Defined.

(** Witness of X10: every realization is cached and the service is down. *)
Lemma cached_run_is_offline_witness :
  net_calls (new_events Toy.w_all_cached (get_ps_data 100 Toy.w_all_cached).2) = [] /\
  fs (get_ps_data 100 Toy.w_all_cached).2 !! Toy.noise_100_0
  = fs Toy.w_all_cached !! Toy.noise_100_0.
Proof.
  destruct (cached_run_is_offline 100 Toy.w_all_cached (get_ps_data 100 Toy.w_all_cached).1
                                  (get_ps_data 100 Toy.w_all_cached).2) as (Hnet & Hfs).
  - vm_compute. reflexivity.
  - apply run_pair. reflexivity.
  - split; [exact Hnet|]. apply Hfs. vm_compute. discriminate.
Defined.

(** Witness of X11: the service is down; the run makes one request, for
    realization 0. *)
Lemma requests_follow_missing_realizations_witness :
  sublist (net_calls (new_events Toy.w_offline (get_ps_data 100 Toy.w_offline).2))
          (missing_urls 100 Toy.w_offline (range N_PLANCK_SIMS)).
Proof.
  destruct (requests_follow_missing_realizations
              100 Toy.w_offline (get_ps_data 100 Toy.w_offline).1
              (get_ps_data 100 Toy.w_offline).2) as (Hsub & _).
  - apply run_pair. reflexivity.
  - exact Hsub.
Defined.

(** Witness of X12: the first unit of a complete run is read from the file
    of realization 0. *)
Lemma headers_read_in_realization_order_witness :
  (0 < N_PLANCK_SIMS)%nat /\ noise_target 100 PLANCK_NOISE_DIR 0 = Ok Toy.noise_100_0.
Proof.
  apply (headers_read_in_realization_order
           100 Toy.w_mixed (get_ps_data 100 Toy.w_mixed).1 (get_ps_data 100 Toy.w_mixed).2
           0%nat Toy.noise_100_0 "K_CMB").
  - apply run_pair. reflexivity.
  - vm_compute. reflexivity.
Defined.

(** Witness of X13: with the baseline of detector 545 in place the script
    returns and logs its two lines; with the service down it stops without a
    log line. *)
Lemma main_stops_at_the_failing_detector_witness :
  logs (new_events Toy.w_baseline (main Toy.w_baseline).2)
  = ["Done with 545 GHz"; "All done"] /\
  logs (new_events Toy.w_offline (main Toy.w_offline).2) = [].
Proof.
  split.
  - destruct (main_stops_at_the_failing_detector Toy.w_baseline) as (_ & _ & Hok).
    destruct Hok as (Hlogs & _); [vm_compute; reflexivity|exact Hlogs].
  - destruct (main_stops_at_the_failing_detector Toy.w_offline) as (_ & Hfail & _).
    destruct (Hfail (OSError (avg_noise_map_fn 545))) as (_ & Hlogs & _);
      [vm_compute; reflexivity|exact Hlogs].
Defined.

End MoreExamples.
